(** * Online Galton Board: a shallow embedding of [script.js]

    The page script registers two [DOMContentLoaded] closures over the same
    canvas.  This development embeds the second one (the variant with the
    [isSettling] flag and [validateInputs]), function by function, and proves
    the board-construction, layout, physics and session-control properties of
    the design document against it.  The first closure is embedded in module
    [Legacy].  Each closure is embedded on its own, over its own variables:
    what the other one writes to the page they share (the canvas size, the
    [disabled] flags) and its use of the host's timers and random draws are
    not interleaved with it.

    Numbers.  A JavaScript number is modelled as an exact rational or [NaN]
    ([num := option Q], [None] = NaN): arithmetic propagates NaN and every
    comparison with NaN is false, as in the language; rounding and overflow of
    binary64 are not modelled.  [parseInt] of an input field yields an integer
    or NaN ([option Z]).  [Math.random] reads successive elements of a stream
    of draws carried by the host.

    Host.  [requestAnimationFrame]/[cancelAnimationFrame] and
    [setInterval]/[clearInterval] act on a table of pending frame requests and
    active intervals; each interval carries the local counter
    [ballsDroppedThisSession] of the [startSimulation] activation that
    created it.  The drawing calls ([clearRect], [drawPegs], [drawBalls],
    [drawBins]) only read the simulation state: they are no part of the
    state transformers, and are modelled apart as the lists of shapes they
    paint.  The canvas is reduced to the [width] and [height] the script
    assigns and reads back.  The DOM keeps both as unsigned longs, so that a
    fractional value reads back truncated; this coercion is not modelled:
    the theorems below hold for any canvas height, or compare the heights of
    two states, or use boards whose height is an integer.  The host hands out
    the handles of frame requests and of intervals from one counter, where
    browsers number them apart; no theorem below relates the handle of a
    frame request to that of an interval.  Events may
    arrive in any order: the event system below imposes no timing. *)

From Stdlib Require Import String ZArith QArith Qabs Qminmax List Bool Lia Lqa.
Import ListNotations.

Open Scope Z_scope.

(* ------------------------------------------------------------------------- *)
(** ** JavaScript numbers *)

Module Num.

Definition num : Type := option Q.

Definition NaN : num := None.
Definition lit (q : Q) : num := Some q.
Definition of_int (z : option Z) : num := option_map inject_Z z.
Definition of_nat (n : nat) : num := Some (inject_Z (Z.of_nat n)).

Definition lift2 (f : Q -> Q -> Q) (a b : num) : num :=
  match a, b with
  | Some x, Some y => Some (f x y)
  | _, _ => None
  end.

Definition add : num -> num -> num := lift2 Qplus.
Definition sub : num -> num -> num := lift2 Qminus.
Definition mul : num -> num -> num := lift2 Qmult.

(** Division: [0/0] is NaN; a non-zero numerator over zero would be an
    infinity, which the script never produces (its divisors are [2], [40]
    and [NUM_ROWS + 3.5]) and which is mapped to NaN here as well. *)
Definition div (a b : num) : num :=
  match a, b with
  | Some x, Some y => if Qeq_bool y 0 then None else Some (x / y)%Q
  | _, _ => None
  end.

Definition neg (a : num) : num := option_map Qopp a.
Definition abs (a : num) : num := option_map Qabs a.

Definition Qsign (x : Q) : Q :=
  match Qcompare x 0 with
  | Lt => (-1)%Q
  | Eq => 0%Q
  | Gt => 1%Q
  end.

Definition sign (a : num) : num := option_map Qsign a.

Definition Qltb (x y : Q) : bool := negb (Qle_bool y x).

Definition lt (a b : num) : bool :=
  match a, b with
  | Some x, Some y => Qltb x y
  | _, _ => false
  end.

Definition le (a b : num) : bool :=
  match a, b with
  | Some x, Some y => Qle_bool x y
  | _, _ => false
  end.

Definition gt (a b : num) : bool := lt b a.
Definition ge (a b : num) : bool := le b a.

(** [Math.sqrt(s) < r], decided on exact numbers: the root of a negative
    number is NaN, a root is never below a non-positive bound, and otherwise
    the comparison is that of the squares. *)
Definition sqrt_lt (s r : num) : bool :=
  match s, r with
  | Some x, Some y => Qle_bool 0 x && Qltb 0 y && Qltb x (y * y)
  | _, _ => false
  end.

End Num.

Import Num.

Declare Scope num_scope.
Delimit Scope num_scope with num.
Bind Scope num_scope with num.
Infix "+" := add : num_scope.
Infix "-" := sub : num_scope.
Infix "*" := mul : num_scope.
Infix "/" := div : num_scope.
Infix "<?" := lt : num_scope.
Infix "<=?" := le : num_scope.
Infix ">?" := gt : num_scope.
Infix ">=?" := ge : num_scope.

(** Integer comparison with a possibly-NaN operand ([a < b] in the script,
    where [b] came from [parseInt]). *)
Definition int_lt (a : Z) (b : option Z) : bool :=
  match b with
  | Some n => a <? n
  | None => false
  end.

(* ------------------------------------------------------------------------- *)
(** ** Data model *)

Record Peg : Type := mkPeg {
  peg_x : num;
  peg_y : num;
  peg_radius : num
}.

Record Bin : Type := mkBin {
  bin_x : num;
  bin_y : num;
  width : num;
  height : num;
  count : Z;
  maxCapacity : Z
}.

Record Ball : Type := mkBall {
  x : num;
  y : num;
  radius : num;
  color : string;
  vx : num;
  vy : num;
  landed : bool;
  isSettling : bool
}.

(** The scalable configuration ([current*] variables and [scaleFactor]). *)
Record Layout : Type := mkLayout {
  currentPegSpacingX : num;
  currentPegSpacingY : num;
  currentStartYOffset : num;
  currentPegRadius : num;
  currentBallRadius : num;
  currentDrawnBinHeight : num;
  currentSpaceBelowPegs : num;
  currentBottomPadding : num;
  scaleFactor : num
}.

(** [disabled] flags of the five controls. *)
Record Controls : Type := mkControls {
  startButton_disabled : bool;
  numRowsInput_disabled : bool;
  numBallsInput_disabled : bool;
  binCapacityInput_disabled : bool;
  resetButton_disabled : bool
}.

(** A timer handle variable: [undefined] until first assigned, [null] after a
    stop, or the positive integer returned by the host. *)
Inductive handle : Type :=
| h_undefined
| h_null
| h_id (n : positive).

Definition truthy (h : handle) : bool :=
  match h with
  | h_id _ => true
  | _ => false
  end.

(** The host's scheduling tables and random source. *)
Record Host : Type := mkHost {
  frames : list positive;
  intervals : list (positive * Z);
  nextHandle : positive;
  randoms : nat -> Q;
  randIdx : nat
}.

(** What the script reads from the page when an operation runs: the three
    input fields after [parseInt], and [window.innerWidth]. *)
Record Env : Type := mkEnv {
  numRowsInput_value : option Z;
  numBallsInput_value : option Z;
  binCapacityInput_value : option Z;
  innerWidth : num
}.

Record Sim : Type := mkSim {
  NUM_ROWS : option Z;
  layout : Layout;
  canvas_width : num;
  canvas_height : num;
  pegs : list Peg;
  balls : list Ball;
  bins : list Bin;
  animationFrameId : handle;
  ballsBeingDropped : Z;
  ballsToDropTotal : option Z;
  dropIntervalId : handle;
  controls : Controls;
  host : Host
}.

(** Field updates. *)
Definition set_NUM_ROWS v (s : Sim) : Sim :=
  mkSim v (layout s) (canvas_width s) (canvas_height s) (pegs s) (balls s)
        (bins s) (animationFrameId s) (ballsBeingDropped s)
        (ballsToDropTotal s) (dropIntervalId s) (controls s) (host s).
Definition set_layout v (s : Sim) : Sim :=
  mkSim (NUM_ROWS s) v (canvas_width s) (canvas_height s) (pegs s) (balls s)
        (bins s) (animationFrameId s) (ballsBeingDropped s)
        (ballsToDropTotal s) (dropIntervalId s) (controls s) (host s).
Definition set_canvas w h (s : Sim) : Sim :=
  mkSim (NUM_ROWS s) (layout s) w h (pegs s) (balls s)
        (bins s) (animationFrameId s) (ballsBeingDropped s)
        (ballsToDropTotal s) (dropIntervalId s) (controls s) (host s).
Definition set_pegs v (s : Sim) : Sim :=
  mkSim (NUM_ROWS s) (layout s) (canvas_width s) (canvas_height s) v (balls s)
        (bins s) (animationFrameId s) (ballsBeingDropped s)
        (ballsToDropTotal s) (dropIntervalId s) (controls s) (host s).
Definition set_balls v (s : Sim) : Sim :=
  mkSim (NUM_ROWS s) (layout s) (canvas_width s) (canvas_height s) (pegs s) v
        (bins s) (animationFrameId s) (ballsBeingDropped s)
        (ballsToDropTotal s) (dropIntervalId s) (controls s) (host s).
Definition set_bins v (s : Sim) : Sim :=
  mkSim (NUM_ROWS s) (layout s) (canvas_width s) (canvas_height s) (pegs s)
        (balls s) v (animationFrameId s) (ballsBeingDropped s)
        (ballsToDropTotal s) (dropIntervalId s) (controls s) (host s).
Definition set_animationFrameId v (s : Sim) : Sim :=
  mkSim (NUM_ROWS s) (layout s) (canvas_width s) (canvas_height s) (pegs s)
        (balls s) (bins s) v (ballsBeingDropped s)
        (ballsToDropTotal s) (dropIntervalId s) (controls s) (host s).
Definition set_ballsBeingDropped v (s : Sim) : Sim :=
  mkSim (NUM_ROWS s) (layout s) (canvas_width s) (canvas_height s) (pegs s)
        (balls s) (bins s) (animationFrameId s) v
        (ballsToDropTotal s) (dropIntervalId s) (controls s) (host s).
Definition set_ballsToDropTotal v (s : Sim) : Sim :=
  mkSim (NUM_ROWS s) (layout s) (canvas_width s) (canvas_height s) (pegs s)
        (balls s) (bins s) (animationFrameId s) (ballsBeingDropped s)
        v (dropIntervalId s) (controls s) (host s).
Definition set_dropIntervalId v (s : Sim) : Sim :=
  mkSim (NUM_ROWS s) (layout s) (canvas_width s) (canvas_height s) (pegs s)
        (balls s) (bins s) (animationFrameId s) (ballsBeingDropped s)
        (ballsToDropTotal s) v (controls s) (host s).
Definition set_controls v (s : Sim) : Sim :=
  mkSim (NUM_ROWS s) (layout s) (canvas_width s) (canvas_height s) (pegs s)
        (balls s) (bins s) (animationFrameId s) (ballsBeingDropped s)
        (ballsToDropTotal s) (dropIntervalId s) v (host s).
Definition set_host v (s : Sim) : Sim :=
  mkSim (NUM_ROWS s) (layout s) (canvas_width s) (canvas_height s) (pegs s)
        (balls s) (bins s) (animationFrameId s) (ballsBeingDropped s)
        (ballsToDropTotal s) (dropIntervalId s) (controls s) v.

(* ------------------------------------------------------------------------- *)
(** ** Constants *)

Definition BASE_PEG_RADIUS : num := lit 6.
Definition BASE_BALL_RADIUS : num := lit 5.
Definition BASE_PEG_SPACING_X : num := lit 40.
Definition BASE_PEG_SPACING_Y : num := lit 30.
Definition BASE_START_Y_OFFSET : num := lit 30.
Definition BASE_DRAWN_BIN_HEIGHT : num := lit 60.
Definition BASE_SPACE_BELOW_PEGS : num := BASE_PEG_SPACING_Y.
Definition BASE_BOTTOM_PADDING : num := lit 40.

Definition BALL_COLOR : string := "#2980b9".
Definition GRAVITY : num := lit (15 # 100).
Definition BOUNCE_FACTOR : num := lit (1 # 10).
Definition HORIZONTAL_BUMP : num := lit (15 # 10).

Definition CANVAS_MARGIN_LEFT : num := lit 10.
Definition CANVAS_MARGIN_RIGHT : num := lit 10.

(* ------------------------------------------------------------------------- *)
(** ** Host primitives *)

Definition remove_handle (h : handle) (l : list positive) : list positive :=
  match h with
  | h_id n => filter (fun m => negb (Pos.eqb m n)) l
  | _ => l
  end.

Definition remove_interval (h : handle) (l : list (positive * Z))
  : list (positive * Z) :=
  match h with
  | h_id n => filter (fun e => negb (Pos.eqb (fst e) n)) l
  | _ => l
  end.

(** [Math.random()]. *)
Definition Math_random (s : Sim) : num * Sim :=
  let hs := host s in
  (Some (randoms hs (randIdx hs)),
   set_host (mkHost (frames hs) (intervals hs) (nextHandle hs) (randoms hs)
                    (S (randIdx hs))) s).

(** [requestAnimationFrame(gameLoop)]: a fresh handle, recorded as pending. *)
Definition requestAnimationFrame (s : Sim) : positive * Sim :=
  let hs := host s in
  let n := nextHandle hs in
  (n, set_host (mkHost (n :: frames hs) (intervals hs) (Pos.succ n)
                       (randoms hs) (randIdx hs)) s).

(** [cancelAnimationFrame(h)]: no effect when [h] is no pending handle. *)
Definition cancelAnimationFrame (h : handle) (s : Sim) : Sim :=
  let hs := host s in
  set_host (mkHost (remove_handle h (frames hs)) (intervals hs)
                   (nextHandle hs) (randoms hs) (randIdx hs)) s.

(** [setInterval(tryDropBall, dropDelay)]: a fresh handle; the activation's
    [ballsDroppedThisSession] starts at [0]. *)
Definition setInterval (s : Sim) : positive * Sim :=
  let hs := host s in
  let n := nextHandle hs in
  (n, set_host (mkHost (frames hs) ((n, 0) :: intervals hs) (Pos.succ n)
                       (randoms hs) (randIdx hs)) s).

Definition clearInterval (h : handle) (s : Sim) : Sim :=
  let hs := host s in
  set_host (mkHost (frames hs) (remove_interval h (intervals hs))
                   (nextHandle hs) (randoms hs) (randIdx hs)) s.

(* ------------------------------------------------------------------------- *)
(** ** Geometry Layout: [resizeCanvas] *)

Definition resizeCanvas (env : Env) (s : Sim) : Sim :=
  let s := set_NUM_ROWS (numRowsInput_value env) s in
  let rows := of_int (NUM_ROWS s) in
  let viewportWidth := innerWidth env in
  let availableWidthForCanvasElement :=
    (viewportWidth - CANVAS_MARGIN_LEFT - CANVAS_MARGIN_RIGHT)%num in
  let idealContentWidthUnscaled :=
    ((rows + lit (35 # 10)) * BASE_PEG_SPACING_X)%num in
  let finalCanvasWidth :=
    if (idealContentWidthUnscaled >? availableWidthForCanvasElement)%num
    then availableWidthForCanvasElement
    else idealContentWidthUnscaled in
  let spacingX := (finalCanvasWidth / (rows + lit (35 # 10)))%num in
  let minPegSpacingX := (BASE_PEG_RADIUS * lit 3)%num in
  let '(spacingX, finalCanvasWidth) :=
    if (spacingX <? minPegSpacingX)%num
    then (minPegSpacingX, ((rows + lit (35 # 10)) * minPegSpacingX)%num)
    else (spacingX, finalCanvasWidth) in
  let sf := (spacingX / BASE_PEG_SPACING_X)%num in
  let lay := mkLayout spacingX
                      (BASE_PEG_SPACING_Y * sf)%num
                      (BASE_START_Y_OFFSET * sf)%num
                      (BASE_PEG_RADIUS * sf)%num
                      (BASE_BALL_RADIUS * sf)%num
                      (BASE_DRAWN_BIN_HEIGHT * sf)%num
                      (BASE_SPACE_BELOW_PEGS * sf)%num
                      (BASE_BOTTOM_PADDING * sf)%num
                      sf in
  let s := set_layout lay s in
  set_canvas finalCanvasWidth
             (currentStartYOffset lay
              + (rows - lit 1) * currentPegSpacingY lay
              + currentPegRadius lay
              + currentSpaceBelowPegs lay
              + currentDrawnBinHeight lay
              + currentBottomPadding lay)%num
             s.

(* ------------------------------------------------------------------------- *)
(** ** Board Builder: [initPegs], [initBins] *)

(** Number of iterations of [for (let i = 0; i < n; i++)] for an integer or
    NaN bound. *)
Definition loop_count (n : option Z) : nat :=
  match n with
  | Some z => Z.to_nat z
  | None => O
  end.

(** The pegs pushed by the inner loop for one value of [row]. *)
Definition pegRow (s : Sim) (row : nat) : list Peg :=
  let lay := layout s in
  let firstPegRowCenterY := currentStartYOffset lay in
  let numPegsInRow := S row in
  let rowWidth := ((of_nat numPegsInRow - lit 1) * currentPegSpacingX lay)%num in
  let startX := ((canvas_width s - rowWidth) / lit 2)%num in
  map (fun col =>
         mkPeg (startX + of_nat col * currentPegSpacingX lay)%num
               (firstPegRowCenterY + of_nat row * currentPegSpacingY lay)%num
               (currentPegRadius lay))
      (seq 0 numPegsInRow).

Definition initPegs (s : Sim) : Sim :=
  set_pegs (flat_map (pegRow s) (seq 0 (loop_count (NUM_ROWS s)))) s.

(** [parseInt(binCapacityInput.value) || 100]. *)
Definition capacity_or_default (v : option Z) : Z :=
  match v with
  | Some c => if c =? 0 then 100 else c
  | None => 100
  end.

Definition initBins (env : Env) (s : Sim) : Sim :=
  let lay := layout s in
  let rows := of_int (NUM_ROWS s) in
  let numBins := option_map (fun r => r + 1) (NUM_ROWS s) in
  let binWidth := currentPegSpacingX lay in
  let lastPegRowCenterY :=
    (currentStartYOffset lay + (rows - lit 1) * currentPegSpacingY lay)%num in
  let binsTopY :=
    (lastPegRowCenterY + currentPegRadius lay + currentSpaceBelowPegs lay)%num in
  let totalBinsWidth := (of_int numBins * binWidth)%num in
  let firstBinX := ((canvas_width s - totalBinsWidth) / lit 2)%num in
  set_bins
    (map (fun i =>
            mkBin (firstBinX + of_nat i * binWidth)%num
                  binsTopY
                  binWidth
                  (currentDrawnBinHeight lay)
                  0
                  (capacity_or_default (binCapacityInput_value env)))
         (seq 0 (loop_count numBins)))
    s.

(* ------------------------------------------------------------------------- *)
(** ** Ball Entity Factory: [createBall] *)

Definition createBall (s : Sim) : Ball * Sim :=
  let firstPegX :=
    match pegs s with
    | p :: _ => peg_x p
    | [] => (canvas_width s / lit 2)%num
    end in
  let '(r, s') := Math_random s in
  (mkBall firstPegX
          (currentStartYOffset (layout s) - currentPegSpacingY (layout s))%num
          (currentBallRadius (layout s))
          BALL_COLOR
          ((r - lit (1 # 2)) * lit (1 # 2))%num
          (lit 0)
          false
          false,
   s').

(* ------------------------------------------------------------------------- *)
(** ** Physics & Collision Engine *)

Definition set_x v (b : Ball) : Ball :=
  mkBall v (y b) (radius b) (color b) (vx b) (vy b) (landed b) (isSettling b).
Definition set_y v (b : Ball) : Ball :=
  mkBall (x b) v (radius b) (color b) (vx b) (vy b) (landed b) (isSettling b).
Definition set_vx v (b : Ball) : Ball :=
  mkBall (x b) (y b) (radius b) (color b) v (vy b) (landed b) (isSettling b).
Definition set_vy v (b : Ball) : Ball :=
  mkBall (x b) (y b) (radius b) (color b) (vx b) v (landed b) (isSettling b).
Definition set_landed v (b : Ball) : Ball :=
  mkBall (x b) (y b) (radius b) (color b) (vx b) (vy b) v (isSettling b).
Definition set_isSettling v (b : Ball) : Ball :=
  mkBall (x b) (y b) (radius b) (color b) (vx b) (vy b) (landed b) v.

Definition set_count v (b : Bin) : Bin :=
  mkBin (bin_x b) (bin_y b) (width b) (height b) v (maxCapacity b).

Definition applyBallPhysics (ball : Ball) (s : Sim) : Ball :=
  let ball := set_vy (vy ball + GRAVITY * scaleFactor (layout s))%num ball in
  let ball := set_x (x ball + vx ball)%num ball in
  set_y (y ball + vy ball)%num ball.

Definition handleBallWallCollisions (ball : Ball) (s : Sim) : Ball * Sim :=
  let r := currentBallRadius (layout s) in
  let ball :=
    if (x ball - r <? lit 0)%num || (x ball + r >? canvas_width s)%num
    then
      let ball := set_vx (vx ball * lit (- (1 # 2)))%num ball in
      let ball := if (x ball - r <? lit 0)%num then set_x r ball else ball in
      if (x ball + r >? canvas_width s)%num
      then set_x (canvas_width s - r)%num ball
      else ball
    else ball in
  let '(ball, s) :=
    if (y ball - r >? canvas_height s)%num
       && negb (isSettling ball) && negb (landed ball)
    then (set_landed true ball,
          set_ballsBeingDropped (ballsBeingDropped s - 1) s)
    else (ball, s) in
  let ball :=
    if (y ball - r <? lit 0)%num
    then set_y r (set_vy (vy ball * neg BOUNCE_FACTOR)%num ball)
    else ball in
  (ball, s).

(** The collision test of [handleBallPegCollisions] for one peg. *)
Definition pegHit (ball : Ball) (peg : Peg) (s : Sim) : bool :=
  let dx := (x ball - peg_x peg)%num in
  let dy := (y ball - peg_y peg)%num in
  sqrt_lt (dx * dx + dy * dy)%num
          (currentBallRadius (layout s) + currentPegRadius (layout s))%num.

(** The body of the [pegs.forEach] callback. *)
Definition pegCollision (peg : Peg) (ball : Ball) (s : Sim) : Ball * Sim :=
  let dy := (y ball - peg_y peg)%num in
  if pegHit ball peg s then
    let ball :=
      set_y (peg_y peg
             - (currentBallRadius (layout s) + currentPegRadius (layout s))
               * sign dy * lit (51 # 100))%num ball in
    let ball := set_vy (vy ball * neg BOUNCE_FACTOR)%num ball in
    let bump := (HORIZONTAL_BUMP * scaleFactor (layout s))%num in
    let '(rnd, s) := Math_random s in
    let ball :=
      if (x ball <? peg_x peg)%num
      then set_vx (neg bump * rnd)%num ball
      else set_vx (bump * rnd)%num ball in
    let ball :=
      if (abs (vx ball) <? lit (1 # 2) * scaleFactor (layout s))%num
      then set_vx ((if (x ball <? peg_x peg)%num then lit (-1) else lit 1)
                   * lit (1 # 2) * scaleFactor (layout s))%num ball
      else ball in
    (ball, s)
  else (ball, s).

Fixpoint forEachPeg (ps : list Peg) (ball : Ball) (s : Sim) : Ball * Sim :=
  match ps with
  | [] => (ball, s)
  | peg :: rest =>
      let '(ball, s) := pegCollision peg ball s in
      forEachPeg rest ball s
  end.

Definition handleBallPegCollisions (ball : Ball) (s : Sim) : Ball * Sim :=
  forEachPeg (pegs s) ball s.

(** What happens to a ball and the bin it has reached (the body of the inner
    [if] of [handleBallBinInteractions]). *)
Definition binArrival (bin : Bin) (ball : Ball) (s : Sim)
  : Bin * Ball * Sim :=
  let r := currentBallRadius (layout s) in
  if count bin <? maxCapacity bin then
    let bin := set_count (count bin + 1) bin in
    let s := set_ballsBeingDropped (ballsBeingDropped s - 1) s in
    let ball := set_isSettling true ball in
    let ball := set_vx (lit 0) ball in
    let ball := set_vy (lit 0) ball in
    let ball := set_x (bin_x bin + width bin / lit 2)%num ball in
    let ball := set_y (bin_y bin + height bin - r - lit 1)%num ball in
    (bin, ball, s)
  else
    let ball :=
      set_vy (vy ball * (neg BOUNCE_FACTOR * lit (1 # 2)))%num ball in
    let ball := set_y (bin_y bin - r - lit (1 # 10))%num ball in
    if (abs (vx ball) <? lit (1 # 10) * scaleFactor (layout s))%num then
      let '(rnd, s) := Math_random s in
      let ball :=
        set_vx ((if (rnd <? lit (1 # 2))%num then lit (-1) else lit 1)
                * lit (2 # 10) * scaleFactor (layout s))%num ball in
      (bin, ball, s)
    else (bin, ball, s).

(** The [for] loop over the bins, left to right; [None] when the loop ends
    without the ball having interacted with a bin. *)
Fixpoint binLoop (bs : list Bin) (ball : Ball) (s : Sim)
  : option (list Bin * Ball * Sim) :=
  match bs with
  | [] => None
  | bin :: rest =>
      let r := currentBallRadius (layout s) in
      let ballOverlapsBinHorizontally :=
        (x ball + r >? bin_x bin)%num
        && (x ball - r <? bin_x bin + width bin)%num in
      if ballOverlapsBinHorizontally && (y ball + r >=? bin_y bin)%num then
        let '(bin, ball, s) := binArrival bin ball s in
        Some (bin :: rest, ball, s)
      else
        match binLoop rest ball s with
        | Some (rest, ball, s) => Some (bin :: rest, ball, s)
        | None => None
        end
  end.

Definition handleBallBinInteractions (ball : Ball) (s : Sim) : Ball * Sim :=
  match bins s with
  | [] => (ball, s)
  | bin0 :: _ =>
      if isSettling ball || landed ball then (ball, s)
      else
        let r := currentBallRadius (layout s) in
        let bottomOfBall := (y ball + r)%num in
        let topOfBins := bin_y bin0 in
        if (bottomOfBall >=? topOfBins)%num
           && (y ball - r <? topOfBins + currentDrawnBinHeight (layout s))%num
        then
          match binLoop (bins s) ball s with
          | Some (bs, ball, s) => (ball, set_bins bs s)
          | None => (ball, s)
          end
        else (ball, s)
  end.

(* ------------------------------------------------------------------------- *)
(** ** Simulation Driver *)

(** The body of the [balls.forEach] callback of [updateBalls]. *)
Definition updateBall (ball : Ball) (s : Sim) : Ball * Sim :=
  if landed ball then (ball, s)
  else if isSettling ball then (set_landed true ball, s)
  else
    let ball := applyBallPhysics ball s in
    let '(ball, s) := handleBallWallCollisions ball s in
    if landed ball then (ball, s)
    else
      let '(ball, s) := handleBallPegCollisions ball s in
      handleBallBinInteractions ball s.

Fixpoint forEachBall (bs : list Ball) (s : Sim) : list Ball * Sim :=
  match bs with
  | [] => ([], s)
  | ball :: rest =>
      let '(ball, s) := updateBall ball s in
      let '(rest, s) := forEachBall rest s in
      (ball :: rest, s)
  end.

Definition updateBalls (s : Sim) : Sim :=
  let '(bs, s') := forEachBall (balls s) s in
  set_balls bs s'.

Definition enable_inputs (c : Controls) : Controls :=
  mkControls false false false false (resetButton_disabled c).

Definition stopSimulation (s : Sim) : Sim :=
  let s := cancelAnimationFrame (animationFrameId s) s in
  let s := set_animationFrameId h_null s in
  let s :=
    if truthy (dropIntervalId s)
    then set_dropIntervalId h_null (clearInterval (dropIntervalId s) s)
    else s in
  set_controls (enable_inputs (controls s)) s.

Definition gameLoop (s : Sim) : Sim :=
  let s := updateBalls s in
  if (0 <? ballsBeingDropped s) || existsb (fun ball => negb (landed ball)) (balls s)
  then
    let '(n, s) := requestAnimationFrame s in
    set_animationFrameId (h_id n) s
  else stopSimulation s.

(* ------------------------------------------------------------------------- *)
(** ** Session Controller *)

Definition out_of_range (v : option Z) (lo hi : Z) : bool :=
  match v with
  | None => true
  | Some n => (n <? lo) || (hi <? n)
  end.

(** [validateInputs]: the returned flag and the text passed to [alert]. *)
Definition validateInputs (numRows numBalls binCapacity : option Z)
  : bool * option string :=
  if out_of_range numRows 1 30
  then (false, Some "Number of rows must be between 1 and 30."%string)
  else if out_of_range numBalls 1 5000
  then (false, Some "Number of balls must be between 1 and 5000."%string)
  else if out_of_range binCapacity 1 1000
  then (false, Some "Bin capacity must be between 1 and 1000."%string)
  else (true, None).

Definition lookup_counter (n : positive) (l : list (positive * Z)) : option Z :=
  option_map snd (find (fun e => Pos.eqb (fst e) n) l).

Definition store_counter (n : positive) (c : Z) (l : list (positive * Z))
  : list (positive * Z) :=
  map (fun e => if Pos.eqb (fst e) n then (n, c) else e) l.

Definition set_intervals (l : list (positive * Z)) (s : Sim) : Sim :=
  let hs := host s in
  set_host (mkHost (frames hs) l (nextHandle hs) (randoms hs) (randIdx hs)) s.

(** [tryDropBall], the callback of interval [n]; [ballsDroppedThisSession]
    is the counter stored with the interval. *)
Definition tryDropBall (n : positive) (s : Sim) : Sim :=
  match lookup_counter n (intervals (host s)) with
  | None => s
  | Some ballsDroppedThisSession =>
      if int_lt ballsDroppedThisSession (ballsToDropTotal s) then
        let '(newBall, s) := createBall s in
        let s := set_balls (balls s ++ [newBall]) s in
        let s := set_ballsBeingDropped (ballsBeingDropped s + 1) s in
        set_intervals
          (store_counter n (ballsDroppedThisSession + 1) (intervals (host s))) s
      else
        set_dropIntervalId h_null (clearInterval (dropIntervalId s) s)
  end.

(** [startSimulation]; the first component is the [alert] text, if any.  The
    spawn delay [Math.max(10, Math.min(100, 50000 / ballsToDropTotal))] only
    sets the real-time cadence of the interval and is not recorded. *)
Definition startSimulation (env : Env) (s : Sim) : option string * Sim :=
  if truthy (animationFrameId s) then (None, s)
  else
    let s := set_NUM_ROWS (numRowsInput_value env) s in
    let s := set_ballsToDropTotal (numBallsInput_value env) s in
    let binCapacityVal := binCapacityInput_value env in
    let '(ok, msg) :=
      validateInputs (NUM_ROWS s) (ballsToDropTotal s) binCapacityVal in
    if negb ok then (msg, s)
    else
      let s := resizeCanvas env s in
      let s := initPegs s in
      let s := initBins env s in
      let s := set_balls [] s in
      let s := set_ballsBeingDropped 0 s in
      let s := set_controls (mkControls true true true true false) s in
      let '(n, s) := setInterval s in
      let s := set_dropIntervalId (h_id n) s in
      let s := tryDropBall n s in
      (msg, gameLoop s).

Definition resetSimulation (env : Env) (s : Sim) : Sim :=
  let s := stopSimulation s in
  let s := set_balls [] s in
  let s := set_ballsBeingDropped 0 s in
  let s := set_ballsToDropTotal (Some 0) s in
  let s := resizeCanvas env s in
  let s := initPegs s in
  let s := initBins env s in
  set_controls (mkControls false false false false true) s.

(* ------------------------------------------------------------------------- *)
(** ** The event system *)

Inductive event : Type :=
| ev_click_start (env : Env)
| ev_click_reset (env : Env)
| ev_change_numRows (env : Env)
| ev_change_binCapacity (env : Env)
| ev_resize (env : Env)
| ev_frame (n : positive)
| ev_interval (n : positive).

Definition pending (n : positive) (l : list positive) : bool :=
  existsb (Pos.eqb n) l.

Definition step (ev : event) (s : Sim) : Sim :=
  match ev with
  | ev_click_start env => snd (startSimulation env s)
  | ev_click_reset env => resetSimulation env s
  | ev_change_numRows env =>
      let s := set_NUM_ROWS (numRowsInput_value env) s in
      if negb (truthy (animationFrameId s)) then resetSimulation env s else s
  | ev_change_binCapacity env
  | ev_resize env =>
      if negb (truthy (animationFrameId s)) then resetSimulation env s else s
  | ev_frame n =>
      if pending n (frames (host s))
      then gameLoop (cancelAnimationFrame (h_id n) s)
      else s
  | ev_interval n => tryDropBall n s
  end.

Definition run (evs : list event) (s : Sim) : Sim :=
  fold_left (fun s ev => step ev s) evs s.

(** State of the closure when the page has loaded: the declarations at the
    top of the script followed by the initial call of [resetSimulation].  The
    controls and the canvas size are whatever the page markup gave them. *)
Definition pageLoad (env : Env) (ctl : Controls) (cw ch : num)
           (rnd : nat -> Q) : Sim :=
  resetSimulation env
    (mkSim (numRowsInput_value env)
           (mkLayout BASE_PEG_SPACING_X BASE_PEG_SPACING_Y BASE_START_Y_OFFSET
                     BASE_PEG_RADIUS BASE_BALL_RADIUS BASE_DRAWN_BIN_HEIGHT
                     BASE_SPACE_BELOW_PEGS BASE_BOTTOM_PADDING (lit 1))
           cw ch [] [] [] h_undefined 0 (Some 0) h_undefined ctl
           (mkHost [] [] 1%positive rnd O)).

(* ------------------------------------------------------------------------- *)
(** ** Lifecycle tags and accounting *)

Inductive tag : Type := falling | settling | landed_tag.

Definition tag_of (b : Ball) : tag :=
  if landed b then landed_tag
  else if isSettling b then settling
  else falling.

Definition is_falling (b : Ball) : bool :=
  negb (isSettling b) && negb (landed b).

(** A ball that a bin has captured keeps [isSettling] for good. *)
Definition is_captured (b : Ball) : bool := isSettling b.

(** Marked landed without having been captured. *)
Definition fell_off (b : Ball) : bool := landed b && negb (isSettling b).

Definition count_where (p : Ball -> bool) (bs : list Ball) : Z :=
  Z.of_nat (length (filter p bs)).

Definition total_count (bs : list Bin) : Z :=
  fold_right (fun b acc => count b + acc) 0 bs.

(** One-step transitions of the lifecycle tag. *)
Inductive tag_step : tag -> tag -> Prop :=
| ts_stay : forall t, tag_step t t
| ts_capture : tag_step falling settling
| ts_lost : tag_step falling landed_tag
| ts_finalize : tag_step settling landed_tag.

(** The order [falling <= settling <= landed]. *)
Definition tag_rank (t : tag) : nat :=
  match t with
  | falling => 0%nat
  | settling => 1%nat
  | landed_tag => 2%nat
  end.

Definition tag_le (t t' : tag) : Prop := (tag_rank t <= tag_rank t')%nat.

(** How one bin may change while balls are processed: the capacity is kept,
    the count never decreases, stays within a capacity it was within, and
    does not move once it has reached the capacity. *)
Definition bin_step (b b' : Bin) : Prop :=
  maxCapacity b' = maxCapacity b
  /\ count b <= count b'
  /\ (count b <= maxCapacity b -> count b' <= maxCapacity b)
  /\ (maxCapacity b <= count b -> count b' = count b).

Definition left_falling (b b' : Ball) : Z :=
  if is_falling b && negb (is_falling b') then 1 else 0.

Definition newly_captured (b b' : Ball) : Z :=
  if negb (isSettling b) && isSettling b' then 1 else 0.

(** The part of the state a ball update may write: the bins, the active-ball
    counter and the position in the stream of random draws. *)
Definition with_randIdx (k : nat) (s : Sim) : Sim :=
  let hs := host s in
  set_host (mkHost (frames hs) (intervals hs) (nextHandle hs) (randoms hs) k) s.

Definition upd (bs : list Bin) (d : Z) (k : nat) (s : Sim) : Sim :=
  set_bins bs (set_ballsBeingDropped d (with_randIdx k s)).

(** The list of balls before and after one tick: the old balls in place,
    each having made at most one lifecycle transition, followed by the balls
    spawned by the tick, all falling. *)
Definition tick_lifecycle (bs bs' : list Ball) : Prop :=
  exists old new,
    bs' = old ++ new
    /\ Forall2 (fun b b' => tag_step (tag_of b) (tag_of b')) bs old
    /\ Forall (fun b => tag_of b = falling) new.

(** The list of balls before and after any number of ticks: the old balls in
    place, none of them further back in its lifecycle, followed by the balls
    spawned meanwhile. *)
Definition advanced (bs bs' : list Ball) : Prop :=
  exists old new,
    bs' = old ++ new
    /\ Forall2 (fun b b' => tag_le (tag_of b) (tag_of b')) bs old.

(** Ticks as a type of their own. *)
Inductive tick : Type :=
| tick_frame (n : positive)
| tick_interval (n : positive).

Definition event_of_tick (t : tick) : event :=
  match t with
  | tick_frame n => ev_frame n
  | tick_interval n => ev_interval n
  end.

Definition run_ticks (ts : list tick) (s : Sim) : Sim :=
  run (map event_of_tick ts) s.

(* ------------------------------------------------------------------------- *)
(** ** Invariants and proof-level abbreviations *)

(** 0/1 value of a test. *)
Definition ind (c : bool) : Z := if c then 1 else 0.

(** Summary of what processing one ball may do. *)
Definition ball_effect (b b' : Ball) (s s' : Sim) : Prop :=
  (exists k, s' = upd (bins s') (ballsBeingDropped s') k s)
  /\ tag_step (tag_of b) (tag_of b')
  /\ (isSettling b = true -> isSettling b' = true)
  /\ ballsBeingDropped s' = ballsBeingDropped s - left_falling b b'
  /\ total_count (bins s') = total_count (bins s) + newly_captured b b'
  /\ Forall2 bin_step (bins s) (bins s').

(** The sequence [resizeCanvas(); initPegs(); initBins();] shared by
    [startSimulation] and [resetSimulation]. *)
Definition rebuild (env : Env) (s : Sim) : Sim :=
  initBins env (initPegs (resizeCanvas env s)).

(** The state [startSimulation] has built when it first calls
    [tryDropBall]. *)
Definition start_setup (env : Env) (s : Sim) : Sim :=
  let r := rebuild env s in
  let n := nextHandle (host s) in
  mkSim (numRowsInput_value env) (layout r) (canvas_width r)
        (canvas_height r) (pegs r) [] (bins r) (animationFrameId s) 0
        (numBallsInput_value env) (h_id n)
        (mkControls true true true true false)
        (mkHost (frames (host s)) ((n, 0) :: intervals (host s))
                (Pos.succ n) (randoms (host s)) (randIdx (host s))).

(** Holds at every point of the script. *)
Definition Core (s : Sim) : Prop :=
  ballsBeingDropped s = count_where is_falling (balls s)
  /\ total_count (bins s) = count_where is_captured (balls s)
  /\ (forall n c, In (n, c) (intervals (host s)) ->
        dropIntervalId s = h_id n /\ c = Z.of_nat (length (balls s))).

(** Holds between events. *)
Definition Inv (s : Sim) : Prop :=
  Core s
  /\ (forall n, In n (frames (host s)) -> animationFrameId s = h_id n)
  /\ (intervals (host s) <> [] -> truthy (animationFrameId s) = true).

(** Between events, when no run is active, both handles are cleared and the
    four inputs are enabled. *)
Definition Idle (s : Sim) : Prop :=
  truthy (animationFrameId s) = false ->
  animationFrameId s = h_null
  /\ truthy (dropIntervalId s) = false
  /\ controls s = enable_inputs (controls s).

(* ------------------------------------------------------------------------- *)
(** ** Concrete boards and balls *)

(** A one-row board on a wide page, one ball requested, capacity 50. *)
Definition demo_env : Env := mkEnv (Some 1) (Some 1) (Some 50) (lit 1000).

Definition demo_page : Sim :=
  pageLoad demo_env (mkControls false false false false true)
           (lit 300) (lit 150) (fun _ => 1 # 2).

(** The one-row board of [demo_env] just after [start]: the canvas is 166
    high and the ball radius is 5. *)
Definition demo_run : Sim := snd (startSimulation demo_env demo_page).

(** Zero rows requested, 500 balls, capacity 100. *)
Definition zero_rows_env : Env := mkEnv (Some 0) (Some 500) (Some 100) (lit 1000).

Definition zero_rows_page : Sim :=
  pageLoad zero_rows_env (mkControls false false false false true)
           (lit 300) (lit 150) (fun _ => 1 # 2).

(** A one-row board on a page 100 wide: the available width 80 gives a pitch
    below 18, so the floor binds. *)
Definition narrow_env : Env := mkEnv (Some 1) (Some 1) (Some 50) (lit 100).

(** A peg where the one-row board of [demo_run] has its peg, and a falling
    ball straight above it, 8 away from its centre (the contact distance
    is 11). *)
Definition demo_peg : Peg := mkPeg (lit 90) (lit 30) (lit 6).

Definition high_ball : Ball :=
  mkBall (lit 90) (lit 22) (lit 5) BALL_COLOR (lit 0) (lit 1) false false.

(** A falling ball beside the bins whose centre is at height 165. *)
Definition low_ball : Ball :=
  mkBall (lit 150) (lit 165) (lit 5) BALL_COLOR (lit 0) (lit 1) false false.

(** A bin whose count has reached its capacity. *)
Definition full_bin : Bin := mkBin (lit 50) (lit 66) (lit 40) (lit 60) 50 50.

(** The test of the inner [if]s of [handleBallBinInteractions]: the ball
    overlaps the bin horizontally and its bottom is at or below the bin's
    top. *)
Definition binReached (ball : Ball) (s : Sim) (bin : Bin) : bool :=
  let r := currentBallRadius (layout s) in
  (x ball + r >? bin_x bin)%num
  && (x ball - r <? bin_x bin + width bin)%num
  && (y ball + r >=? bin_y bin)%num.

(** Two records of the same bin: everything but the count agrees. *)
Definition same_bin (b b' : Bin) : Prop :=
  bin_x b' = bin_x b /\ bin_y b' = bin_y b /\ width b' = width b
  /\ height b' = height b /\ maxCapacity b' = maxCapacity b.

(** A ball beyond the right wall of [demo_run]. *)
Definition stray_ball : Ball := set_x (lit 200) low_ball.

(** A falling ball that has entered the left bin of [demo_run]. *)
Definition arriving_ball : Ball :=
  mkBall (lit 70) (lit 70) (lit 5) BALL_COLOR (lit 0) (lit 1) false false.

(** The timer handles mirror the host's tables: the pending frame requests
    are the one kept in [animationFrameId], if any, and the active intervals
    the one kept in [dropIntervalId], if any, whose activation has counted as
    many drops as there are balls. *)
Definition mirror_intervals (s : Sim) : Prop :=
  intervals (host s)
  = match dropIntervalId s with
    | h_id n => [(n, Z.of_nat (length (balls s)))]
    | _ => []
    end.

Definition mirror_frames (s : Sim) : Prop :=
  frames (host s)
  = match animationFrameId s with
    | h_id n => [n]
    | _ => []
    end.

(** The board of [demo_run] with two balls at rest, one that fell off and
    one that a bin captured. *)
Definition demo_done : Sim :=
  set_balls [set_landed true low_ball;
             set_landed true (set_isSettling true arriving_ball)] demo_run.

(** While the spawn timer is alive, the requested total is a valid number
    and the balls spawned so far are at least one and at most that total. *)
Definition spawn_bounded (s : Sim) : Prop :=
  truthy (dropIntervalId s) = true ->
  exists total,
    ballsToDropTotal s = Some total
    /\ 1 <= Z.of_nat (length (balls s)) <= total /\ total <= 5000.

(** The controls follow the run: the start button and the three inputs are
    disabled exactly while a frame request is kept in [animationFrameId], and
    while the reset button is disabled the board is fresh. *)
Definition ui_locked (s : Sim) : Prop :=
  let running := truthy (animationFrameId s) in
  startButton_disabled (controls s) = running
  /\ numRowsInput_disabled (controls s) = running
  /\ numBallsInput_disabled (controls s) = running
  /\ binCapacityInput_disabled (controls s) = running
  /\ (resetButton_disabled (controls s) = true ->
      running = false /\ balls s = []
      /\ Forall (fun b => count b = 0) (bins s)).

(** The part of the state that makes up the board: layout, canvas size,
    pegs, and the bins up to their counts. *)
Definition same_board (s s' : Sim) : Prop :=
  layout s' = layout s
  /\ canvas_width s' = canvas_width s /\ canvas_height s' = canvas_height s
  /\ pegs s' = pegs s
  /\ Forall2 same_bin (bins s) (bins s').

(* ------------------------------------------------------------------------- *)
(** ** Spawn cadence and Renderer *)

(** [Math.max] and [Math.min]: NaN when an argument is NaN. *)
Definition Math_max (a b : num) : num := lift2 Qmax a b.
Definition Math_min (a b : num) : num := lift2 Qmin a b.

(** The delay [startSimulation] passes to [setInterval]:
    [Math.max(10, Math.min(100, 50000 / ballsToDropTotal))]. *)
Definition dropDelay (ballsToDropTotal : option Z) : num :=
  Math_max (lit 10) (Math_min (lit 100) (lit 50000 / of_int ballsToDropTotal)%num).

(** A filled circle ([ctx.arc] followed by [ctx.fill]) and a rectangle. *)
Record Disc : Type := mkDisc {
  disc_x : num;
  disc_y : num;
  disc_radius : num;
  disc_color : string
}.

Record Rect : Type := mkRect {
  rect_x : num;
  rect_y : num;
  rect_w : num;
  rect_h : num
}.

Definition PEG_COLOR : string := "#34495e".

(** [drawPegs]: one disc per peg. *)
Definition drawPegs (s : Sim) : list Disc :=
  map (fun peg => mkDisc (peg_x peg) (peg_y peg) (peg_radius peg) PEG_COLOR)
      (pegs s).

(** [drawBalls]: one disc per ball that is neither landed nor settling. *)
Definition drawBalls (s : Sim) : list Disc :=
  flat_map (fun ball =>
              if landed ball || isSettling ball then []
              else [mkDisc (x ball) (y ball) (radius ball) (color ball)])
           (balls s).

(** What [drawBins] paints for one bin: the outline, the fill bar if any,
    and the count label with its position and font size. *)
Record BinDrawing : Type := mkBinDrawing {
  outline : Rect;
  fillBar : option Rect;
  label : Z;
  label_x : num;
  label_y : num;
  label_px : num
}.

Definition drawBin (s : Sim) (bin : Bin) : BinDrawing :=
  let bar :=
    if (0 <? count bin) && (0 <? maxCapacity bin) then
      let barFillHeight :=
        (of_int (Some (count bin)) / of_int (Some (maxCapacity bin))
         * height bin)%num in
      Some (mkRect (bin_x bin + lit 1)%num
                   (bin_y bin + height bin
                    - Math_min barFillHeight (height bin - lit 1))%num
                   (width bin - lit 2)%num
                   (Math_min barFillHeight (height bin - lit 1)%num))
    else None in
  mkBinDrawing (mkRect (bin_x bin) (bin_y bin) (width bin) (height bin))
               bar
               (count bin)
               (bin_x bin + width bin / lit 2)%num
               (bin_y bin - lit 5 * scaleFactor (layout s))%num
               (lit 10 * scaleFactor (layout s))%num.

Definition drawBins (s : Sim) : list BinDrawing := map (drawBin s) (bins s).

(* ------------------------------------------------------------------------- *)
(** ** The first closure *)

(** The script's first [DOMContentLoaded] closure is an earlier variant of
    the same program over variables of its own.  Its [resizeCanvas],
    [initPegs], [initBins], [createBall], [tryDropBall], [stopSimulation],
    [drawPegs] and [drawBins] have the same text as those of the second
    closure (but for the [isSettling] field of a new ball) and are embedded
    by the same definitions.  Its ball objects have no [isSettling] field;
    they are represented with the field at [false], which this closure never
    reads or writes.  What differs is embedded here: the physics
    ([updateBalls], all in one function), [gameLoop] (the same text, over
    this [updateBalls]), the unvalidated [startSimulation] with its own spawn
    delay, [resetSimulation], the listeners and [drawBalls]. *)
Module Legacy.

(** The body of the [pegs.forEach] callback of [updateBalls]; the contact
    distance is taken from the ball's and the peg's own radii. *)
Definition pegCollision (peg : Peg) (ball : Ball) (s : Sim) : Ball * Sim :=
  let dx := (x ball - peg_x peg)%num in
  let dy := (y ball - peg_y peg)%num in
  if sqrt_lt (dx * dx + dy * dy)%num (radius ball + peg_radius peg)%num then
    let ball :=
      set_y (peg_y peg
             - (radius ball + peg_radius peg) * sign dy * lit (51 # 100))%num
            ball in
    let ball := set_vy (vy ball * neg BOUNCE_FACTOR)%num ball in
    let bump := (HORIZONTAL_BUMP * scaleFactor (layout s))%num in
    let '(rnd, s) := Math_random s in
    let ball :=
      if (x ball <? peg_x peg)%num
      then set_vx (neg bump * rnd)%num ball
      else set_vx (bump * rnd)%num ball in
    let ball :=
      if (abs (vx ball) <? lit (1 # 2) * scaleFactor (layout s))%num
      then set_vx ((if (x ball <? peg_x peg)%num then lit (-1) else lit 1)
                   * lit (1 # 2) * scaleFactor (layout s))%num ball
      else ball in
    (ball, s)
  else (ball, s).

Fixpoint forEachPeg (ps : list Peg) (ball : Ball) (s : Sim) : Ball * Sim :=
  match ps with
  | [] => (ball, s)
  | peg :: rest =>
      let '(ball, s) := pegCollision peg ball s in
      forEachPeg rest ball s
  end.

(** The test of the [if] inside the [for] loop over the bins: the ball's
    centre is strictly between the bin's sides and its bottom is below the
    bin's top. *)
Definition binEntered (ball : Ball) (bin : Bin) : bool :=
  (x ball >? bin_x bin)%num && (x ball <? bin_x bin + width bin)%num
  && (y ball + radius ball >? bin_y bin)%num.

(** The body of that [if], up to the [break]. *)
Definition binArrival (bin : Bin) (ball : Ball) (s : Sim)
  : Bin * Ball * Sim :=
  if negb (landed ball) then
    if count bin <? maxCapacity bin then
      (set_count (count bin + 1) bin,
       set_landed true ball,
       set_ballsBeingDropped (ballsBeingDropped s - 1) s)
    else
      let ball :=
        set_vy (vy ball * (neg BOUNCE_FACTOR * lit (1 # 2)))%num ball in
      (bin, set_y (bin_y bin - radius ball)%num ball, s)
  else (bin, ball, s).

(** The [for] loop over the bins; [None] when it ends without a [break]. *)
Fixpoint binLoop (bs : list Bin) (ball : Ball) (s : Sim)
  : option (list Bin * Ball * Sim) :=
  match bs with
  | [] => None
  | bin :: rest =>
      if binEntered ball bin then
        let '(bin, ball, s) := binArrival bin ball s in
        Some (bin :: rest, ball, s)
      else
        match binLoop rest ball s with
        | Some (rest, ball, s) => Some (bin :: rest, ball, s)
        | None => None
        end
  end.

(** The bin part of [updateBalls]: the loop, then the fall past the canvas
    bottom, both only once the ball's bottom is below the top of the first
    bin. *)
Definition binStep (ball : Ball) (s : Sim) : Ball * Sim :=
  match bins s with
  | [] => (ball, s)
  | bin0 :: _ =>
      if (y ball + radius ball >? bin_y bin0)%num then
        let '(ball, s) :=
          match binLoop (bins s) ball s with
          | Some (bs, ball, s) => (ball, set_bins bs s)
          | None => (ball, s)
          end in
        if negb (landed ball) && (y ball + radius ball >? canvas_height s)%num
        then (set_landed true ball,
              set_ballsBeingDropped (ballsBeingDropped s - 1) s)
        else (ball, s)
      else (ball, s)
  end.

(** The side-wall part of [updateBalls], with the ball's own radius. *)
Definition wallStep (ball : Ball) (s : Sim) : Ball :=
  if (x ball - radius ball <? lit 0)%num
     || (x ball + radius ball >? canvas_width s)%num
  then
    let ball := set_vx (vx ball * lit (- (1 # 2)))%num ball in
    let ball :=
      if (x ball - radius ball <? lit 0)%num
      then set_x (radius ball) ball else ball in
    if (x ball + radius ball >? canvas_width s)%num
    then set_x (canvas_width s - radius ball)%num ball
    else ball
  else ball.

(** The body of the [balls.forEach] callback of [updateBalls]. *)
Definition updateBall (ball : Ball) (s : Sim) : Ball * Sim :=
  if landed ball then (ball, s)
  else
    let sf := scaleFactor (layout s) in
    let ball := set_vy (vy ball + GRAVITY * sf)%num ball in
    let ball := set_x (x ball + vx ball * sf)%num ball in
    let ball := set_y (y ball + vy ball * sf)%num ball in
    let '(ball, s) := forEachPeg (pegs s) ball s in
    let '(ball, s) := binStep ball s in
    (wallStep ball s, s).

Fixpoint forEachBall (bs : list Ball) (s : Sim) : list Ball * Sim :=
  match bs with
  | [] => ([], s)
  | ball :: rest =>
      let '(ball, s) := updateBall ball s in
      let '(rest, s) := forEachBall rest s in
      (ball :: rest, s)
  end.

Definition updateBalls (s : Sim) : Sim :=
  let '(bs, s') := forEachBall (balls s) s in
  set_balls bs s'.

Definition gameLoop (s : Sim) : Sim :=
  let s := updateBalls s in
  if (0 <? ballsBeingDropped s) || existsb (fun ball => negb (landed ball)) (balls s)
  then
    let '(n, s) := requestAnimationFrame s in
    set_animationFrameId (h_id n) s
  else stopSimulation s.

(** [Math.max(50, 200 - ballsToDropTotal * 0.1)]. *)
Definition dropDelay (ballsToDropTotal : option Z) : num :=
  Math_max (lit 50) (lit 200 - of_int ballsToDropTotal * lit (1 # 10))%num.

(** [startSimulation]: the inputs are used as parsed, without validation. *)
Definition startSimulation (env : Env) (s : Sim) : Sim :=
  if truthy (animationFrameId s) then s
  else
    let s := set_NUM_ROWS (numRowsInput_value env) s in
    let s := set_ballsToDropTotal (numBallsInput_value env) s in
    let s := resizeCanvas env s in
    let s := initPegs s in
    let s := initBins env s in
    let s := set_balls [] s in
    let s := set_ballsBeingDropped 0 s in
    let s := set_controls (mkControls true true true true false) s in
    let '(n, s) := setInterval s in
    let s := set_dropIntervalId (h_id n) s in
    let s := tryDropBall n s in
    gameLoop s.

Definition resetSimulation (env : Env) (s : Sim) : Sim :=
  let s := stopSimulation s in
  let s := set_balls [] s in
  let s := set_ballsBeingDropped 0 s in
  let s := set_ballsToDropTotal (Some 0) s in
  let s := set_NUM_ROWS (numRowsInput_value env) s in
  let s := resizeCanvas env s in
  let s := initPegs s in
  let s := initBins env s in
  set_controls (mkControls false false false false true) s.

(** The listeners of this closure; a change of the row count only resets. *)
Definition step (ev : event) (s : Sim) : Sim :=
  match ev with
  | ev_click_start env => startSimulation env s
  | ev_click_reset env => resetSimulation env s
  | ev_change_numRows env
  | ev_change_binCapacity env
  | ev_resize env =>
      if negb (truthy (animationFrameId s)) then resetSimulation env s else s
  | ev_frame n =>
      if pending n (frames (host s))
      then gameLoop (cancelAnimationFrame (h_id n) s)
      else s
  | ev_interval n => tryDropBall n s
  end.

Definition run (evs : list event) (s : Sim) : Sim :=
  fold_left (fun s ev => step ev s) evs s.

(** State of the closure when the page has loaded. *)
Definition pageLoad (env : Env) (ctl : Controls) (cw ch : num)
           (rnd : nat -> Q) : Sim :=
  resetSimulation env
    (mkSim (numRowsInput_value env)
           (mkLayout BASE_PEG_SPACING_X BASE_PEG_SPACING_Y BASE_START_Y_OFFSET
                     BASE_PEG_RADIUS BASE_BALL_RADIUS BASE_DRAWN_BIN_HEIGHT
                     BASE_SPACE_BELOW_PEGS BASE_BOTTOM_PADDING (lit 1))
           cw ch [] [] [] h_undefined 0 (Some 0) h_undefined ctl
           (mkHost [] [] 1%positive rnd O)).

(** [drawBalls]: one disc per ball that has not landed. *)
Definition drawBalls (s : Sim) : list Disc :=
  flat_map (fun ball =>
              if landed ball then []
              else [mkDisc (x ball) (y ball) (radius ball) (color ball)])
           (balls s).

End Legacy.

(** ** Invariants of the first closure *)

(** What processing one ball of the first closure may do to the state and to
    the ball's [landed] flag. *)
Definition legacy_ball_effect (b b' : Ball) (s s' : Sim) : Prop :=
  (exists k, s' = upd (bins s') (ballsBeingDropped s') k s)
  /\ isSettling b' = isSettling b
  /\ (landed b = true -> landed b' = true)
  /\ ballsBeingDropped s'
     = ballsBeingDropped s - ind (negb (landed b) && landed b')
  /\ total_count (bins s) <= total_count (bins s')
  /\ total_count (bins s')
     <= total_count (bins s) + ind (negb (landed b) && landed b')
  /\ Forall2 same_bin (bins s) (bins s').

(** The counter is the number of balls not landed, and the bins hold no more
    balls than have landed. *)
Definition legacy_counts (s : Sim) : Prop :=
  ballsBeingDropped s = count_where (fun b => negb (landed b)) (balls s)
  /\ total_count (bins s) <= count_where landed (balls s).

(** Holds between the events of the first closure. *)
Definition legacy_Inv (s : Sim) : Prop :=
  legacy_counts s
  /\ mirror_frames s /\ mirror_intervals s
  /\ (truthy (dropIntervalId s) = true ->
      truthy (animationFrameId s) = true).

(** No bin of the first closure holds more balls than its capacity allows
    (none when the capacity is not positive). *)
Definition legacy_bins_ok (s : Sim) : Prop :=
  Forall (fun b => 0 <= count b <= Z.max 0 (maxCapacity b)) (bins s).

(* ------------------------------------------------------------------------- *)
(** * Proofs *)

Ltac qcbn :=
  cbn -[Qplus Qmult Qminus Qdiv Qeq_bool Qltb Qle_bool Qinv Qopp Qabs inject_Z].

Ltac break_if :=
  match goal with
  | |- context [if ?c then _ else _] => destruct c eqn:?
  end.

Ltac break_if_in H :=
  match type of H with
  | context [if ?c then _ else _] => destruct c eqn:?
  end.

(** ** The written part of the state *)

Lemma upd_id (s : Sim) :
  upd (bins s) (ballsBeingDropped s) (randIdx (host s)) s = s.
Proof. destruct s as [? ? ? ? ? ? ? ? ? ? ? ? []]; reflexivity. Qed.

Lemma bin_step_refl (b : Bin) : bin_step b b.
Proof. unfold bin_step; lia. Qed.

Lemma bin_step_trans (a b c : Bin) : bin_step a b -> bin_step b c -> bin_step a c.
Proof. unfold bin_step; intros (?&?&?&?) (?&?&?&?); lia. Qed.

Lemma bins_step_refl (bs : list Bin) : Forall2 bin_step bs bs.
Proof. induction bs; constructor; auto using bin_step_refl. Qed.

Lemma bins_step_trans (a b c : list Bin) :
  Forall2 bin_step a b -> Forall2 bin_step b c -> Forall2 bin_step a c.
Proof.
  intros H; revert c; induction H; intros c Hc; inversion Hc; subst;
    constructor; eauto using bin_step_trans.
Qed.

Create HintDb galton.
#[local] Hint Resolve bin_step_refl bins_step_refl : galton.
#[local] Hint Constructors tag_step : galton.

(** ** Effect of the per-ball functions on flags, counter and bins *)

Lemma applyBallPhysics_flags b s :
  landed (applyBallPhysics b s) = landed b
  /\ isSettling (applyBallPhysics b s) = isSettling b.
Proof. split; reflexivity. Qed.

Lemma wall_spec b s b' s' :
  handleBallWallCollisions b s = (b', s') ->
  isSettling b' = isSettling b
  /\ ((landed b' = landed b /\ s' = s)
      \/ (is_falling b = true /\ landed b' = true
          /\ s' = set_ballsBeingDropped (ballsBeingDropped s - 1) s)).
Proof.
  unfold handleBallWallCollisions, is_falling.
  repeat break_if; intros H; inversion H; subst; clear H; simpl in *;
    split; try reflexivity; auto;
    repeat match goal with
           | H : _ && _ = true |- _ => apply andb_prop in H; destruct H
           end; simpl in *; auto;
    (right; split; [apply andb_true_intro; split; assumption | auto]).
Qed.

Lemma pegCollision_spec peg b s b' s' :
  pegCollision peg b s = (b', s') ->
  landed b' = landed b /\ isSettling b' = isSettling b
  /\ exists k, s' = upd (bins s) (ballsBeingDropped s) k s.
Proof.
  unfold pegCollision.
  destruct (pegHit b peg s).
  - cbn -[upd]. repeat break_if; intros H; inversion H; subst; clear H;
      simpl; (split; [reflexivity | split; [reflexivity | eexists; reflexivity]]).
  - intros H; inversion H; subst. repeat split; auto.
    eexists. symmetry. apply upd_id.
Qed.

Lemma forEachPeg_spec ps : forall b s b' s',
  forEachPeg ps b s = (b', s') ->
  landed b' = landed b /\ isSettling b' = isSettling b
  /\ exists k, s' = upd (bins s) (ballsBeingDropped s) k s.
Proof.
  induction ps as [|peg rest IH]; simpl; intros b s b' s' H.
  - inversion H; subst. repeat split; auto. eexists. symmetry. apply upd_id.
  - destruct (pegCollision peg b s) as [b1 s1] eqn:E.
    apply pegCollision_spec in E. destruct E as (E1 & E2 & k1 & E3).
    apply IH in H. destruct H as (H1 & H2 & k2 & H3).
    subst s1. simpl in H3.
    repeat split; try congruence. exists k2. exact H3.
Qed.

Lemma set_ballsBeingDropped_upd d s :
  set_ballsBeingDropped d s = upd (bins s) d (randIdx (host s)) s.
Proof. destruct s as [? ? ? ? ? ? ? ? ? ? ? ? []]; reflexivity. Qed.

Lemma binArrival_spec bin ball s bin' ball' s' :
  binArrival bin ball s = (bin', ball', s') ->
  landed ball' = landed ball
  /\ bin_step bin bin'
  /\ ((count bin < maxCapacity bin /\ isSettling ball' = true
       /\ count bin' = count bin + 1
       /\ s' = upd (bins s) (ballsBeingDropped s - 1) (randIdx (host s)) s)
      \/ (maxCapacity bin <= count bin /\ isSettling ball' = isSettling ball
          /\ bin' = bin
          /\ exists k, s' = upd (bins s) (ballsBeingDropped s) k s)).
Proof.
  unfold binArrival.
  destruct (count bin <? maxCapacity bin) eqn:Hc.
  - apply Z.ltb_lt in Hc. intros H; inversion H; subst; clear H; simpl.
    split; [reflexivity|]. split; [unfold bin_step; simpl; lia|].
    left. repeat split; auto. apply set_ballsBeingDropped_upd.
  - apply Z.ltb_ge in Hc.
    break_if; cbn -[upd]; intros H; inversion H; subst; clear H; simpl;
      (split; [reflexivity|]); (split; [apply bin_step_refl|]);
      right; repeat split; auto.
    + eexists; reflexivity.
    + eexists; symmetry; apply upd_id.
Qed.

Lemma binLoop_spec bs : forall ball s bs' ball' s',
  binLoop bs ball s = Some (bs', ball', s') ->
  landed ball' = landed ball
  /\ Forall2 bin_step bs bs'
  /\ ((isSettling ball' = true
       /\ total_count bs' = total_count bs + 1
       /\ s' = upd (bins s) (ballsBeingDropped s - 1) (randIdx (host s)) s)
      \/ (isSettling ball' = isSettling ball
          /\ total_count bs' = total_count bs
          /\ exists k, s' = upd (bins s) (ballsBeingDropped s) k s)).
Proof.
  induction bs as [|bin rest IH]; simpl; intros ball s bs' ball' s' H.
  - discriminate.
  - break_if_in H.
    + destruct (binArrival bin ball s) as [[bin1 ball1] s1] eqn:E.
      inversion H; subst; clear H.
      apply binArrival_spec in E.
      destruct E as (E1 & E2 & [(E3 & E4 & E5 & E6) | (E3 & E4 & E5 & E6)]).
      * split; [exact E1|]. split; [constructor; auto with galton|].
        left. simpl. repeat split; auto. lia.
      * split; [exact E1|]. split; [constructor; auto with galton|].
        right. subst bin1. repeat split; auto.
    + destruct (binLoop rest ball s) as [[[rest1 ball1] s1]|] eqn:E;
        [|discriminate].
      inversion H; subst; clear H.
      specialize (IH _ _ _ _ _ E).
      destruct IH as (I1 & I2 & [(I3 & I4 & I5) | (I3 & I4 & I5)]).
      * split; [exact I1|]. split; [constructor; auto with galton|].
        left. simpl. repeat split; auto. lia.
      * split; [exact I1|]. split; [constructor; auto with galton|].
        right. simpl. repeat split; auto. lia.
Qed.

Lemma ball_effect_id b s : ball_effect b b s s.
Proof.
  unfold ball_effect, left_falling, newly_captured.
  split; [eexists; symmetry; apply upd_id|].
  split; [constructor|]. split; [auto|].
  destruct (is_falling b), (isSettling b); simpl;
    repeat split; auto with galton; lia.
Qed.

Lemma handleBallBinInteractions_spec b s b' s' :
  is_falling b = true ->
  handleBallBinInteractions b s = (b', s') ->
  ball_effect b b' s s'.
Proof.
  unfold handleBallBinInteractions, is_falling. intros Hf H.
  apply andb_prop in Hf. destruct Hf as [Hs Hl].
  apply negb_true_iff in Hs. apply negb_true_iff in Hl.
  destruct (bins s) as [|bin0 rest] eqn:Hb.
  { inversion H; subst. apply ball_effect_id. }
  rewrite Hs, Hl in H. cbn [orb] in H.
  break_if_in H.
  2:{ inversion H; subst. apply ball_effect_id. }
  destruct (binLoop (bin0 :: rest) b s) as [[[bs1 b1] s1]|] eqn:E.
  2:{ inversion H; subst. apply ball_effect_id. }
  inversion H; subst; clear H.
  apply binLoop_spec in E.
  destruct E as (E1 & E2 & [(E3 & E4 & E5) | (E3 & E4 & k & E5)]);
    subst s1; unfold ball_effect, left_falling, newly_captured, is_falling,
      tag_of; rewrite ?E1, ?E3, ?Hs, ?Hl, ?Hb; cbn -[total_count upd].
  - split; [eexists; reflexivity|]. split; [constructor|].
    repeat split; auto.
  - split; [eexists; reflexivity|]. split; [constructor|].
    repeat split; auto; cbn -[total_count]; lia.
Qed.

Lemma updateBall_spec b s b' s' :
  updateBall b s = (b', s') -> ball_effect b b' s s'.
Proof.
  unfold updateBall. intros H.
  destruct (landed b) eqn:Hl.
  { inversion H; subst. apply ball_effect_id. }
  destruct (isSettling b) eqn:Hs.
  { inversion H; subst; clear H.
    unfold ball_effect, left_falling, newly_captured, is_falling, tag_of.
    simpl. rewrite Hl, Hs. simpl.
    split; [eexists; symmetry; apply upd_id|].
    repeat split; auto with galton; try lia. }
  destruct (handleBallWallCollisions (applyBallPhysics b s) s) as [b1 s1] eqn:Ew.
  apply wall_spec in Ew. cbn [applyBallPhysics] in Ew.
  destruct Ew as (W1 & [(W2 & W3) | (W2 & W3 & W4)]).
  - simpl in W1, W2. rewrite W2, Hl in H. subst s1.
    destruct (handleBallPegCollisions b1 s) as [b2 s2] eqn:Ep.
    apply forEachPeg_spec in Ep. destruct Ep as (P1 & P2 & k & P3).
    assert (Hf : is_falling b2 = true).
    { unfold is_falling. rewrite P1, P2, W1, W2. simpl. rewrite Hs, Hl.
      reflexivity. }
    pose proof (handleBallBinInteractions_spec _ _ _ _ Hf H) as E.
    unfold ball_effect in *.
    destruct E as ((k' & E0) & E1 & E2 & E3 & E4 & E5).
    subst s2. simpl in *.
    assert (Hfb : is_falling b = true)
      by (unfold is_falling; rewrite Hs, Hl; reflexivity).
    assert (Ht : tag_of b2 = tag_of b).
    { unfold tag_of. rewrite P1, P2, W1, W2. reflexivity. }
    split; [exists k'; rewrite E0 at 1; reflexivity|].
    rewrite <- Ht. split; [exact E1|]. split; [intros; congruence|].
    unfold left_falling, newly_captured in *.
    rewrite Hf in E3. rewrite Hfb. rewrite P2, W1 in E4. simpl in E4.
    repeat split; auto.
  - rewrite W3 in H. inversion H; subst; clear H.
    unfold ball_effect, left_falling, newly_captured, is_falling, tag_of.
    rewrite W3, W1. simpl. rewrite Hl, Hs. simpl.
    split; [eexists; apply set_ballsBeingDropped_upd|].
    repeat split; auto with galton; try lia; try discriminate.
Qed.

(** ** Accounting over the list of balls *)

Lemma count_where_cons p b bs :
  count_where p (b :: bs) = ind (p b) + count_where p bs.
Proof.
  unfold count_where, ind. simpl. destruct (p b); simpl length; lia.
Qed.

Lemma count_where_nil p : count_where p [] = 0.
Proof. reflexivity. Qed.

Lemma count_where_app p bs cs :
  count_where p (bs ++ cs) = count_where p bs + count_where p cs.
Proof.
  unfold count_where. rewrite filter_app, length_app. lia.
Qed.

Lemma count_where_nonneg p bs : 0 <= count_where p bs.
Proof. unfold count_where. lia. Qed.

Lemma is_falling_tag b : is_falling b = true <-> tag_of b = falling.
Proof.
  unfold is_falling, tag_of. destruct (landed b), (isSettling b); simpl;
    split; congruence.
Qed.

Lemma tag_step_falling t t' : tag_step t t' -> t' = falling -> t = falling.
Proof. destruct 1; congruence. Qed.

Lemma tag_step_le t t' : tag_step t t' -> tag_le t t'.
Proof. destruct 1; unfold tag_le; simpl; lia. Qed.

Lemma ball_effect_counts b b' s s' :
  ball_effect b b' s s' ->
  ballsBeingDropped s' - ind (is_falling b')
  = ballsBeingDropped s - ind (is_falling b)
  /\ total_count (bins s') - ind (is_captured b')
     = total_count (bins s) - ind (is_captured b).
Proof.
  intros (_ & Ht & Hs & Hd & Hc & _).
  unfold left_falling, newly_captured, is_captured in *.
  assert (Hback : is_falling b' = true -> is_falling b = true).
  { rewrite !is_falling_tag. eauto using tag_step_falling. }
  destruct (is_falling b), (is_falling b'), (isSettling b), (isSettling b');
    simpl in *; unfold ind; split; try lia;
    solve [ discriminate (Hback eq_refl) | discriminate (Hs eq_refl) ].
Qed.

Lemma forEachBall_spec bs : forall s bs' s',
  forEachBall bs s = (bs', s') ->
  (exists k, s' = upd (bins s') (ballsBeingDropped s') k s)
  /\ Forall2 (fun b b' => tag_step (tag_of b) (tag_of b')) bs bs'
  /\ ballsBeingDropped s' - count_where is_falling bs'
     = ballsBeingDropped s - count_where is_falling bs
  /\ total_count (bins s') - count_where is_captured bs'
     = total_count (bins s) - count_where is_captured bs
  /\ Forall2 bin_step (bins s) (bins s').
Proof.
  induction bs as [|b rest IH]; simpl; intros s bs' s' H.
  - inversion H; subst.
    split; [eexists; symmetry; apply upd_id|].
    repeat split; auto with galton.
  - destruct (updateBall b s) as [b1 s1] eqn:Eb.
    destruct (forEachBall rest s1) as [rest1 s2] eqn:Er.
    inversion H; subst; clear H.
    apply updateBall_spec in Eb.
    pose proof (ball_effect_counts _ _ _ _ Eb) as (C1 & C2).
    destruct Eb as ((k1 & B0) & Bt & _ & _ & _ & Bb).
    apply IH in Er. destruct Er as ((k2 & R0) & Rt & R1 & R2 & Rb).
    split.
    { exists k2. rewrite R0 at 1. rewrite B0. reflexivity. }
    split; [constructor; assumption|].
    rewrite !count_where_cons.
    repeat split; try lia. eapply bins_step_trans; eassumption.
Qed.

Lemma updateBalls_spec s :
  (exists k, updateBalls s
             = set_balls (balls (updateBalls s))
                 (upd (bins (updateBalls s))
                      (ballsBeingDropped (updateBalls s)) k s))
  /\ Forall2 (fun b b' => tag_step (tag_of b) (tag_of b'))
             (balls s) (balls (updateBalls s))
  /\ ballsBeingDropped (updateBalls s)
     - count_where is_falling (balls (updateBalls s))
     = ballsBeingDropped s - count_where is_falling (balls s)
  /\ total_count (bins (updateBalls s))
     - count_where is_captured (balls (updateBalls s))
     = total_count (bins s) - count_where is_captured (balls s)
  /\ Forall2 bin_step (bins s) (bins (updateBalls s)).
Proof.
  unfold updateBalls.
  destruct (forEachBall (balls s) s) as [bs' s'] eqn:E.
  apply forEachBall_spec in E.
  destruct E as ((k & E0) & Et & E1 & E2 & Eb).
  simpl. split; [|repeat split; assumption].
  exists k. rewrite E0 at 1. reflexivity.
Qed.

(** ** Rebuilding the board *)

Lemma resizeCanvas_shape env s :
  resizeCanvas env s
  = set_canvas (canvas_width (resizeCanvas env s))
               (canvas_height (resizeCanvas env s))
      (set_layout (layout (resizeCanvas env s))
         (set_NUM_ROWS (numRowsInput_value env) s)).
Proof.
  unfold resizeCanvas. cbn [NUM_ROWS set_NUM_ROWS].
  repeat break_if; reflexivity.
Qed.

Lemma resizeCanvas_indep env s t :
  layout (resizeCanvas env s) = layout (resizeCanvas env t)
  /\ canvas_width (resizeCanvas env s) = canvas_width (resizeCanvas env t)
  /\ canvas_height (resizeCanvas env s) = canvas_height (resizeCanvas env t).
Proof.
  unfold resizeCanvas. cbn [NUM_ROWS set_NUM_ROWS].
  repeat break_if; repeat split; reflexivity.
Qed.

Lemma rebuild_shape env s :
  rebuild env s
  = mkSim (numRowsInput_value env)
          (layout (rebuild env s))
          (canvas_width (rebuild env s))
          (canvas_height (rebuild env s))
          (pegs (rebuild env s))
          (balls s)
          (bins (rebuild env s))
          (animationFrameId s) (ballsBeingDropped s) (ballsToDropTotal s)
          (dropIntervalId s) (controls s) (host s).
Proof.
  unfold rebuild. rewrite (resizeCanvas_shape env s). reflexivity.
Qed.

Lemma rebuild_indep env s t :
  layout (rebuild env s) = layout (rebuild env t)
  /\ canvas_width (rebuild env s) = canvas_width (rebuild env t)
  /\ canvas_height (rebuild env s) = canvas_height (rebuild env t)
  /\ pegs (rebuild env s) = pegs (rebuild env t)
  /\ bins (rebuild env s) = bins (rebuild env t).
Proof.
  destruct (resizeCanvas_indep env s t) as (L & W & H).
  unfold rebuild.
  rewrite (resizeCanvas_shape env s), (resizeCanvas_shape env t).
  rewrite L, W, H.
  repeat split; reflexivity.
Qed.

Lemma total_count_fresh (f : nat -> Bin) (l : list nat) :
  (forall i, count (f i) = 0) -> total_count (map f l) = 0.
Proof.
  intros Hf. induction l as [|i l IH]; simpl; [reflexivity|].
  rewrite Hf, IH. reflexivity.
Qed.

Lemma rebuild_total env s : total_count (bins (rebuild env s)) = 0.
Proof.
  unfold rebuild, initBins. cbn [bins set_bins].
  apply total_count_fresh. reflexivity.
Qed.

Lemma rebuild_bins_fresh env s :
  Forall (fun b => count b = 0
                   /\ maxCapacity b
                      = capacity_or_default (binCapacityInput_value env))
         (bins (rebuild env s)).
Proof.
  unfold rebuild, initBins. cbn [bins set_bins].
  apply Forall_forall. intros b Hb. apply in_map_iff in Hb.
  destruct Hb as (i & <- & _). split; reflexivity.
Qed.

(** ** The system invariant *)

Lemma stopSimulation_shape s :
  stopSimulation s
  = mkSim (NUM_ROWS s) (layout s) (canvas_width s) (canvas_height s)
          (pegs s) (balls s) (bins s) h_null (ballsBeingDropped s)
          (ballsToDropTotal s)
          (if truthy (dropIntervalId s) then h_null else dropIntervalId s)
          (enable_inputs (controls s))
          (mkHost (remove_handle (animationFrameId s) (frames (host s)))
                  (remove_interval (dropIntervalId s) (intervals (host s)))
                  (nextHandle (host s)) (randoms (host s))
                  (randIdx (host s))).
Proof.
  destruct s as [? ? ? ? ? ? ? ? ? ? did ? ?].
  destruct did; reflexivity.
Qed.

Lemma remove_interval_all n l :
  (forall m c, In (m, c) l -> m = n) -> remove_interval (h_id n) l = [].
Proof.
  intros H. induction l as [|[m c] l IH]; simpl; [reflexivity|].
  rewrite (H m c (or_introl eq_refl)), Pos.eqb_refl. simpl.
  apply IH. intros m' c' Hin. eapply H. right. exact Hin.
Qed.

Lemma remove_handle_all n l :
  (forall m, In m l -> m = n) -> remove_handle (h_id n) l = [].
Proof.
  intros H. induction l as [|m l IH]; simpl; [reflexivity|].
  rewrite (H m (or_introl eq_refl)), Pos.eqb_refl. simpl.
  apply IH. intros m' Hin. apply H. right. exact Hin.
Qed.

Lemma Core_intervals_cleared s :
  Core s -> remove_interval (dropIntervalId s) (intervals (host s)) = [].
Proof.
  intros (_ & _ & Hi).
  destruct (intervals (host s)) as [|[m c] l] eqn:E.
  { destruct (dropIntervalId s); reflexivity. }
  destruct (Hi m c (or_introl eq_refl)) as [Hd _]. rewrite Hd.
  apply remove_interval_all. intros m' c' Hin.
  destruct (Hi m' c' Hin) as [Hd' _]. congruence.
Qed.

Lemma Inv_frames_cleared s :
  Inv s -> remove_handle (animationFrameId s) (frames (host s)) = [].
Proof.
  intros (_ & Hf & _).
  destruct (frames (host s)) as [|m l] eqn:E.
  { destruct (animationFrameId s); reflexivity. }
  rewrite (Hf m (or_introl eq_refl)).
  apply remove_handle_all. intros m' Hin.
  pose proof (Hf m (or_introl eq_refl)). pose proof (Hf m' Hin). congruence.
Qed.

Lemma Inv_idle_quiet s :
  Inv s -> truthy (animationFrameId s) = false ->
  frames (host s) = [] /\ intervals (host s) = [].
Proof.
  intros (_ & Hf & Hi) Hidle. split.
  - destruct (frames (host s)) as [|m l]; [reflexivity|].
    rewrite (Hf m (or_introl eq_refl)) in Hidle. discriminate.
  - destruct (intervals (host s)) as [|e l]; [reflexivity|].
    rewrite Hi in Hidle; [discriminate | discriminate].
Qed.

(** After [stopSimulation] nothing is scheduled any more. *)
Lemma stopSimulation_quiet s :
  Core s ->
  remove_handle (animationFrameId s) (frames (host s)) = [] ->
  Inv (stopSimulation s)
  /\ frames (host (stopSimulation s)) = []
  /\ intervals (host (stopSimulation s)) = []
  /\ animationFrameId (stopSimulation s) = h_null
  /\ truthy (dropIntervalId (stopSimulation s)) = false.
Proof.
  intros HC Hfr. pose proof (Core_intervals_cleared s HC) as Hiv.
  destruct HC as (C1 & C2 & C3).
  rewrite stopSimulation_shape. cbn. rewrite Hfr, Hiv.
  repeat split; auto; try contradiction.
  destruct (dropIntervalId s); reflexivity.
Qed.

Lemma gameLoop_Inv s :
  Core s -> frames (host s) = [] -> Inv (gameLoop s).
Proof.
  intros (C1 & C2 & C3) Hfr. unfold gameLoop.
  destruct (updateBalls_spec s) as ((k & U0) & Ut & U1 & U2 & _).
  set (s1 := updateBalls s) in *.
  assert (Hlen : length (balls s1) = length (balls s))
    by (symmetry; eapply Forall2_length; eassumption).
  assert (HC1 : Core s1).
  { repeat split; try lia.
    - rewrite U0 in H |- *. simpl in *. apply C3 in H. tauto.
    - rewrite Hlen. rewrite U0 in H. simpl in H. apply C3 in H. tauto. }
  assert (Hfr1 : frames (host s1) = []) by (rewrite U0; exact Hfr).
  break_if.
  - destruct HC1 as (D1 & D2 & D3).
    unfold requestAnimationFrame. cbn. rewrite Hfr1.
    repeat split; auto.
    + apply D3 in H. tauto.
    + apply D3 in H. tauto.
    + intros n [<- | []]. reflexivity.
  - apply stopSimulation_quiet; [exact HC1|].
    rewrite Hfr1. destruct (animationFrameId s1); reflexivity.
Qed.

Lemma createBall_spec s :
  is_falling (fst (createBall s)) = true
  /\ snd (createBall s)
     = upd (bins s) (ballsBeingDropped s) (S (randIdx (host s))) s.
Proof. unfold createBall. simpl. split; reflexivity. Qed.

Lemma lookup_counter_In n l c :
  lookup_counter n l = Some c -> In (n, c) l.
Proof.
  unfold lookup_counter.
  destruct (find _ l) as [[m c']|] eqn:E; simpl; [|discriminate].
  intros H; inversion H; subst.
  apply find_some in E. destruct E as [Hin Heq].
  simpl in Heq. apply Pos.eqb_eq in Heq. subst. exact Hin.
Qed.

Lemma In_store_counter n c l m c' :
  In (m, c') (store_counter n c l) ->
  (m = n /\ c' = c) \/ (m <> n /\ In (m, c') l).
Proof.
  unfold store_counter. intros H. apply in_map_iff in H.
  destruct H as ([m0 c0] & Heq & Hin). simpl in Heq.
  destruct (Pos.eqb m0 n) eqn:E.
  - inversion Heq; subst. left. split; reflexivity.
  - inversion Heq; subst. right. apply Pos.eqb_neq in E. split; assumption.
Qed.

(** What a call of [tryDropBall] does: at most one new ball, falling, counted
    once in the active-ball counter. *)
Lemma tryDropBall_spec n s :
  Core s ->
  Core (tryDropBall n s)
  /\ frames (host (tryDropBall n s)) = frames (host s)
  /\ animationFrameId (tryDropBall n s) = animationFrameId s
  /\ (intervals (host (tryDropBall n s)) <> [] -> intervals (host s) <> []).
Proof.
  intros HC. pose proof (Core_intervals_cleared s HC) as Hclr.
  destruct HC as (C1 & C2 & C3).
  unfold tryDropBall.
  destruct (lookup_counter n (intervals (host s))) as [c|] eqn:El.
  2:{ repeat split; auto;
      match goal with H : In _ _ |- _ => apply C3 in H; tauto end. }
  apply lookup_counter_In in El.
  destruct (C3 n c El) as [Hd Hc].
  break_if.
  - destruct (createBall s) as [newBall s1] eqn:Ec.
    pose proof (createBall_spec s) as [Hf Hs1]. rewrite Ec in Hf, Hs1.
    simpl in Hf, Hs1. subst s1. unfold Core.
    cbn -[count_where total_count store_counter].
    rewrite !count_where_app, !count_where_cons, !count_where_nil.
    assert (Hcap : is_captured newBall = false).
    { unfold is_falling in Hf. apply andb_prop in Hf.
      destruct Hf as [Hf1 _]. apply negb_true_iff in Hf1. exact Hf1. }
    rewrite Hf, Hcap. simpl ind.
    repeat split; try lia.
    + apply In_store_counter in H. destruct H as [[-> ->] | [Hne Hin]].
      * exact Hd.
      * apply C3 in Hin. destruct Hin as [Hd' _]. congruence.
    + apply In_store_counter in H. destruct H as [[-> ->] | [Hne Hin]].
      * rewrite length_app. simpl length. lia.
      * apply C3 in Hin. destruct Hin as [Hd' _]. congruence.
    + intros Hne Hnil. rewrite Hnil in Hne. apply Hne. reflexivity.
  - unfold Core. cbn -[count_where total_count]. rewrite Hclr.
    repeat split; auto; try contradiction.
Qed.

Lemma validateInputs_cases a b c :
  (validateInputs a b c = (true, None)
   /\ out_of_range a 1 30 = false
   /\ out_of_range b 1 5000 = false
   /\ out_of_range c 1 1000 = false)
  \/ (exists msg, validateInputs a b c = (false, Some msg)
      /\ (out_of_range a 1 30 = true
          \/ out_of_range b 1 5000 = true
          \/ out_of_range c 1 1000 = true)
      /\ (msg = "Number of rows must be between 1 and 30."%string
          \/ msg = "Number of balls must be between 1 and 5000."%string
          \/ msg = "Bin capacity must be between 1 and 1000."%string)).
Proof.
  unfold validateInputs.
  destruct (out_of_range a 1 30); [right; eexists; solve [eauto 8]|].
  destruct (out_of_range b 1 5000); [right; eexists; solve [eauto 8]|].
  destruct (out_of_range c 1 1000); [right; eexists; solve [eauto 8]|].
  left. auto.
Qed.

Lemma startSimulation_accepted env s :
  truthy (animationFrameId s) = false ->
  validateInputs (numRowsInput_value env) (numBallsInput_value env)
                 (binCapacityInput_value env) = (true, None) ->
  startSimulation env s
  = (None, gameLoop (tryDropBall (nextHandle (host s)) (start_setup env s))).
Proof.
  intros Hidle Hv. unfold startSimulation. rewrite Hidle.
  cbn [NUM_ROWS ballsToDropTotal set_NUM_ROWS set_ballsToDropTotal].
  rewrite Hv. cbn [negb].
  match goal with
  | |- context [initBins env (initPegs (resizeCanvas env ?t))] =>
      change (initBins env (initPegs (resizeCanvas env t))) with (rebuild env t);
      rewrite (rebuild_shape env t);
      destruct (rebuild_indep env t s) as (-> & -> & -> & -> & ->)
  end.
  reflexivity.
Qed.

Lemma startSimulation_rejected env s msg :
  truthy (animationFrameId s) = false ->
  validateInputs (numRowsInput_value env) (numBallsInput_value env)
                 (binCapacityInput_value env) = (false, Some msg) ->
  startSimulation env s
  = (Some msg,
     set_ballsToDropTotal (numBallsInput_value env)
       (set_NUM_ROWS (numRowsInput_value env) s)).
Proof.
  intros Hidle Hv. unfold startSimulation. rewrite Hidle.
  cbn [NUM_ROWS ballsToDropTotal set_NUM_ROWS set_ballsToDropTotal].
  rewrite Hv. reflexivity.
Qed.

Lemma resetSimulation_shape env s :
  resetSimulation env s
  = mkSim (numRowsInput_value env)
          (layout (rebuild env s)) (canvas_width (rebuild env s))
          (canvas_height (rebuild env s)) (pegs (rebuild env s)) []
          (bins (rebuild env s)) h_null 0 (Some 0)
          (dropIntervalId (stopSimulation s))
          (mkControls false false false false true)
          (host (stopSimulation s)).
Proof.
  unfold resetSimulation.
  match goal with
  | |- context [initBins env (initPegs (resizeCanvas env ?t))] =>
      change (initBins env (initPegs (resizeCanvas env t))) with (rebuild env t);
      rewrite (rebuild_shape env t);
      destruct (rebuild_indep env t s) as (-> & -> & -> & -> & ->)
  end.
  rewrite stopSimulation_shape. reflexivity.
Qed.

Lemma resetSimulation_Inv env s : Inv s -> Inv (resetSimulation env s).
Proof.
  intros HI.
  destruct (stopSimulation_quiet s (proj1 HI) (Inv_frames_cleared s HI))
    as (_ & Hf & Hi & _ & _).
  rewrite resetSimulation_shape. unfold Inv, Core.
  cbn -[count_where total_count rebuild stopSimulation].
  rewrite Hf, Hi, rebuild_total.
  repeat split; auto; try contradiction.
Qed.

Lemma startSimulation_Inv env s : Inv s -> Inv (snd (startSimulation env s)).
Proof.
  intros HI.
  destruct (truthy (animationFrameId s)) eqn:Hrun.
  { unfold startSimulation. rewrite Hrun. exact HI. }
  destruct (validateInputs_cases (numRowsInput_value env)
              (numBallsInput_value env) (binCapacityInput_value env))
    as [(Hv & _) | (msg & Hv & _)].
  - rewrite (startSimulation_accepted env s Hrun Hv). cbn [snd].
    destruct (Inv_idle_quiet s HI Hrun) as [Hf Hi].
    assert (HC : Core (start_setup env s)).
    { unfold Core, start_setup.
      cbn -[count_where total_count rebuild]. rewrite Hi, rebuild_total.
      repeat split; auto;
        match goal with
        | H : _ \/ _ |- _ =>
            destruct H as [H | []]; inversion H; subst; reflexivity
        end. }
    destruct (tryDropBall_spec (nextHandle (host s)) _ HC) as (HC' & Hf' & _).
    apply gameLoop_Inv; [exact HC'|].
    rewrite Hf'. exact Hf.
  - rewrite (startSimulation_rejected env s msg Hrun Hv). cbn [snd].
    exact HI.
Qed.

Lemma take_frame_Inv n s :
  Inv s -> pending n (frames (host s)) = true ->
  Inv (gameLoop (cancelAnimationFrame (h_id n) s)).
Proof.
  intros HI Hp. unfold pending in Hp. apply existsb_exists in Hp.
  destruct Hp as (m & Hin & Heq). apply Pos.eqb_eq in Heq. subst m.
  destruct HI as (HC & Hf & _).
  apply gameLoop_Inv.
  - exact HC.
  - cbn. apply remove_handle_all. intros m Hm.
    pose proof (Hf n Hin). pose proof (Hf m Hm). congruence.
Qed.

Lemma tryDropBall_Inv n s : Inv s -> Inv (tryDropBall n s).
Proof.
  intros (HC & Hf & Hi).
  destruct (tryDropBall_spec n s HC) as (HC' & Hf' & Ha' & Hi').
  unfold Inv. rewrite Hf', Ha'. auto.
Qed.

Lemma step_Inv ev s : Inv s -> Inv (step ev s).
Proof.
  intros HI. destruct ev as [env|env|env|env|env|n|n]; cbn [step].
  - apply startSimulation_Inv; exact HI.
  - apply resetSimulation_Inv; exact HI.
  - cbn [animationFrameId set_NUM_ROWS]. break_if.
    + apply resetSimulation_Inv. exact HI.
    + exact HI.
  - break_if; [apply resetSimulation_Inv|]; exact HI.
  - break_if; [apply resetSimulation_Inv|]; exact HI.
  - break_if; [apply take_frame_Inv; assumption | exact HI].
  - apply tryDropBall_Inv; exact HI.
Qed.

Lemma run_app evs evs' s : run (evs ++ evs') s = run evs' (run evs s).
Proof. unfold run. apply fold_left_app. Qed.

Lemma run_Inv evs : forall s, Inv s -> Inv (run evs s).
Proof.
  induction evs as [|ev evs IH]; intros s HI; [exact HI|].
  apply IH, step_Inv, HI.
Qed.

Lemma pageLoad_Inv env ctl cw ch rnd : Inv (pageLoad env ctl cw ch rnd).
Proof.
  unfold pageLoad. apply resetSimulation_Inv.
  unfold Inv, Core. cbn. repeat split; auto; contradiction.
Qed.

Lemma reachable_Inv env ctl cw ch rnd evs :
  Inv (run evs (pageLoad env ctl cw ch rnd)).
Proof. apply run_Inv, pageLoad_Inv. Qed.

(** ** Bins and lifecycle along ticks *)

Lemma tryDropBall_shape n s :
  tryDropBall n s = s
  \/ (exists newBall k l,
        is_falling newBall = true
        /\ tryDropBall n s
           = set_intervals l
               (set_ballsBeingDropped (ballsBeingDropped s + 1)
                  (set_balls (balls s ++ [newBall])
                     (upd (bins s) (ballsBeingDropped s) k s))))
  \/ tryDropBall n s
     = set_dropIntervalId h_null (clearInterval (dropIntervalId s) s).
Proof.
  unfold tryDropBall.
  destruct (lookup_counter n (intervals (host s))) as [c|]; [|left; reflexivity].
  break_if; [|right; right; reflexivity].
  right; left.
  destruct (createBall s) as [newBall s1] eqn:Ec.
  pose proof (createBall_spec s) as [Hf Hs1]. rewrite Ec in Hf, Hs1.
  simpl in Hf, Hs1. subst s1.
  exists newBall. eexists. eexists. split; [exact Hf|]. reflexivity.
Qed.

Lemma tryDropBall_bins n s : bins (tryDropBall n s) = bins s.
Proof.
  destruct (tryDropBall_shape n s) as [-> | [(b & k & l & _ & ->) | ->]];
    reflexivity.
Qed.

Lemma tryDropBall_counter n s :
  ballsBeingDropped (tryDropBall n s) - ballsBeingDropped s
  = Z.of_nat (length (balls (tryDropBall n s))) - Z.of_nat (length (balls s)).
Proof.
  destruct (tryDropBall_shape n s) as [-> | [(b & k & l & _ & ->) | ->]].
  - lia.
  - cbn. rewrite length_app. simpl length. lia.
  - cbn. lia.
Qed.

Lemma stopSimulation_keeps s :
  bins (stopSimulation s) = bins s /\ balls (stopSimulation s) = balls s
  /\ ballsBeingDropped (stopSimulation s) = ballsBeingDropped s.
Proof. rewrite stopSimulation_shape. repeat split; reflexivity. Qed.

Lemma gameLoop_keeps s :
  bins (gameLoop s) = bins (updateBalls s)
  /\ balls (gameLoop s) = balls (updateBalls s)
  /\ ballsBeingDropped (gameLoop s) = ballsBeingDropped (updateBalls s).
Proof.
  unfold gameLoop. break_if.
  - repeat split; reflexivity.
  - apply stopSimulation_keeps.
Qed.

Lemma gameLoop_bins s : Forall2 bin_step (bins s) (bins (gameLoop s)).
Proof.
  destruct (gameLoop_keeps s) as (-> & _ & _).
  apply updateBalls_spec.
Qed.

Lemma tick_bins t s :
  Forall2 bin_step (bins s) (bins (step (event_of_tick t) s)).
Proof.
  destruct t as [n|n]; cbn [event_of_tick step].
  - break_if; [|apply bins_step_refl].
    apply (gameLoop_bins (cancelAnimationFrame (h_id n) s)).
  - rewrite tryDropBall_bins. apply bins_step_refl.
Qed.

Lemma run_ticks_cons t ts s :
  run_ticks (t :: ts) s = run_ticks ts (step (event_of_tick t) s).
Proof. reflexivity. Qed.

Lemma run_ticks_snoc ts t s :
  run_ticks (ts ++ [t]) s = step (event_of_tick t) (run_ticks ts s).
Proof. unfold run_ticks. rewrite map_app, run_app. reflexivity. Qed.

Lemma run_ticks_bins ts : forall s,
  Forall2 bin_step (bins s) (bins (run_ticks ts s)).
Proof.
  induction ts as [|t ts IH]; intros s; [apply bins_step_refl|].
  rewrite run_ticks_cons.
  eapply bins_step_trans; [apply tick_bins | apply IH].
Qed.

Lemma bins_step_within bs bs' :
  Forall2 bin_step bs bs' ->
  Forall (fun b => 0 <= count b <= maxCapacity b) bs ->
  Forall (fun b => 0 <= count b <= maxCapacity b) bs'.
Proof.
  induction 1 as [|b b' l l' Hb _ IH]; intros Hall; [constructor|].
  inversion Hall; subst. constructor; [|apply IH; assumption].
  destruct Hb as (Hm & Hle & Hin & _). lia.
Qed.

Lemma tick_balls t s :
  exists old new,
    balls (step (event_of_tick t) s) = old ++ new
    /\ Forall2 (fun b b' => tag_step (tag_of b) (tag_of b')) (balls s) old
    /\ Forall (fun b => tag_of b = falling) new.
Proof.
  assert (Hrefl : forall bs : list Ball,
             Forall2 (fun b b' => tag_step (tag_of b) (tag_of b')) bs bs).
  { induction bs; constructor; auto with galton. }
  destruct t as [n|n]; cbn [event_of_tick step].
  - break_if.
    + destruct (gameLoop_keeps (cancelAnimationFrame (h_id n) s))
        as (_ & -> & _).
      exists (balls (updateBalls (cancelAnimationFrame (h_id n) s))), [].
      rewrite app_nil_r. split; [reflexivity|]. split; [|constructor].
      apply (updateBalls_spec (cancelAnimationFrame (h_id n) s)).
    + exists (balls s), []. rewrite app_nil_r. auto.
  - destruct (tryDropBall_shape n s) as [-> | [(b & k & l & Hf & ->) | ->]].
    + exists (balls s), []. rewrite app_nil_r. auto.
    + exists (balls s), [b]. cbn. split; [reflexivity|]. split; [auto|].
      constructor; [|constructor]. apply is_falling_tag. exact Hf.
    + exists (balls s), []. cbn. rewrite app_nil_r. auto.
Qed.

Lemma run_ticks_balls ts : forall s,
  exists old new,
    balls (run_ticks ts s) = old ++ new
    /\ Forall2 (fun b b' => tag_le (tag_of b) (tag_of b')) (balls s) old.
Proof.
  induction ts as [|t ts IH] using rev_ind; intros s.
  - exists (balls s), []. rewrite app_nil_r. split; [reflexivity|].
    induction (balls s); constructor; auto. unfold tag_le. lia.
  - rewrite run_ticks_snoc.
    destruct (IH s) as (old & new & E & Hold).
    destruct (tick_balls t (run_ticks ts s)) as (old' & new' & E' & Hold' & _).
    rewrite E in Hold'. apply Forall2_app_inv_l in Hold'.
    destruct Hold' as (o1 & o2 & H1 & H2 & ->).
    exists o1, (o2 ++ new'). rewrite E', app_assoc. split; [reflexivity|].
    clear - Hold H1. revert o1 H1.
    induction Hold as [|a b la lb Hab _ IHl]; intros o1 H1;
      inversion H1; subst; constructor.
    + apply tag_step_le in H2. unfold tag_le in *. lia.
    + apply IHl. assumption.
Qed.

(** ** Idempotence of stop and reset *)

Lemma stopSimulation_Idle s : Idle (stopSimulation s).
Proof.
  rewrite stopSimulation_shape. intros _. cbn.
  repeat split. destruct (dropIntervalId s); reflexivity.
Qed.

Lemma gameLoop_Idle s : Idle (gameLoop s).
Proof.
  unfold gameLoop. break_if.
  - intros H. discriminate H.
  - apply stopSimulation_Idle.
Qed.

Lemma resetSimulation_Idle env s : Idle (resetSimulation env s).
Proof.
  rewrite resetSimulation_shape. intros _. cbn -[stopSimulation rebuild].
  repeat split. rewrite stopSimulation_shape. cbn.
  destruct (dropIntervalId s); reflexivity.
Qed.

Lemma tryDropBall_Idle n s : Idle s -> Idle (tryDropBall n s).
Proof.
  intros HI.
  destruct (tryDropBall_shape n s) as [-> | [(b & k & l & _ & ->) | ->]].
  - exact HI.
  - exact HI.
  - intros H. destruct (HI H) as (H1 & _ & H3). repeat split; assumption.
Qed.

Lemma startSimulation_Idle env s :
  Idle s -> Idle (snd (startSimulation env s)).
Proof.
  intros HI.
  destruct (truthy (animationFrameId s)) eqn:Hrun.
  { unfold startSimulation. rewrite Hrun. exact HI. }
  destruct (validateInputs_cases (numRowsInput_value env)
              (numBallsInput_value env) (binCapacityInput_value env))
    as [(Hv & _) | (msg & Hv & _)].
  - rewrite (startSimulation_accepted env s Hrun Hv). apply gameLoop_Idle.
  - rewrite (startSimulation_rejected env s msg Hrun Hv). exact HI.
Qed.

Lemma step_Idle ev s : Idle s -> Idle (step ev s).
Proof.
  intros HI. destruct ev as [env|env|env|env|env|n|n]; cbn [step].
  - apply startSimulation_Idle; exact HI.
  - apply resetSimulation_Idle.
  - cbn [animationFrameId set_NUM_ROWS]. break_if.
    + apply resetSimulation_Idle.
    + exact HI.
  - break_if; [apply resetSimulation_Idle | exact HI].
  - break_if; [apply resetSimulation_Idle | exact HI].
  - break_if; [apply gameLoop_Idle | exact HI].
  - apply tryDropBall_Idle; exact HI.
Qed.

Lemma reachable_Idle env ctl cw ch rnd evs :
  Idle (run evs (pageLoad env ctl cw ch rnd)).
Proof.
  assert (H : forall l s, Idle s -> Idle (run l s)).
  { induction l as [|ev l IH]; intros s HI; [exact HI|].
    apply IH, step_Idle, HI. }
  apply H. unfold pageLoad. apply resetSimulation_Idle.
Qed.

(** Stopping when nothing runs changes nothing. *)
Lemma stopSimulation_idle_noop s :
  Inv s -> Idle s -> truthy (animationFrameId s) = false ->
  stopSimulation s = s.
Proof.
  intros HI Hid Hidle.
  destruct (Inv_idle_quiet s HI Hidle) as [Hf Hi].
  destruct (Hid Hidle) as (Ha & Hd & Hc).
  rewrite stopSimulation_shape. rewrite Ha, Hd, Hf, Hi, <- Hc.
  destruct s as [? ? ? ? ? ? ? afid ? ? did ? hs]. destruct hs.
  simpl in *. subst. destruct did; reflexivity.
Qed.

Lemma stopSimulation_idem s :
  stopSimulation (stopSimulation s) = stopSimulation s.
Proof.
  rewrite (stopSimulation_shape (stopSimulation s)).
  rewrite (stopSimulation_shape s). cbn.
  destruct (dropIntervalId s); reflexivity.
Qed.

Lemma resetSimulation_idem env s :
  resetSimulation env (resetSimulation env s) = resetSimulation env s.
Proof.
  rewrite (resetSimulation_shape env (resetSimulation env s)).
  destruct (rebuild_indep env (resetSimulation env s) s)
    as (-> & -> & -> & -> & ->).
  rewrite (resetSimulation_shape env s).
  rewrite (stopSimulation_shape
             (mkSim _ _ _ _ _ _ _ _ _ _ _ _ _)).
  rewrite (stopSimulation_shape s). cbn.
  destruct (dropIntervalId s); reflexivity.
Qed.

Lemma partition_balls bs :
  count_where is_captured bs + count_where fell_off bs
  + count_where is_falling bs = Z.of_nat (length bs).
Proof.
  induction bs as [|b bs IH]; [reflexivity|].
  rewrite !count_where_cons. simpl length.
  assert (ind (is_captured b) + ind (fell_off b) + ind (is_falling b) = 1).
  { unfold is_captured, fell_off, is_falling, ind.
    destruct (isSettling b), (landed b); reflexivity. }
  lia.
Qed.

(* ------------------------------------------------------------------------- *)
(** * Accounting, capacity and lifecycle *)

(** C1, as stated, fails while a ball is in flight: after [start] and one
    further frame of a one-ball run, one ball has been spawned, no bin has
    counted it and it has not fallen off the board. *)
Lemma conservation_without_balls_in_flight_fails :
  let s := run [ev_click_start demo_env; ev_frame 2] demo_page in
  total_count (bins s) + count_where fell_off (balls s)
  <> Z.of_nat (length (balls s)).
Proof. vm_compute. discriminate. Qed.

(** C1 (amended): in every state the page can reach, the bin counts, the
    balls that fell off the board and the balls still falling add up to the
    number of balls spawned in the run (the length of [balls], which is also
    the value of [ballsDroppedThisSession] of the live spawn timer); the bin
    counts add up to the captured balls, and every ball is in exactly one of
    the three classes. *)
Theorem conservation_of_balls env ctl cw ch rnd evs :
  let s := run evs (pageLoad env ctl cw ch rnd) in
  total_count (bins s) + count_where fell_off (balls s)
  + count_where is_falling (balls s) = Z.of_nat (length (balls s))
  /\ total_count (bins s) = count_where is_captured (balls s)
  /\ (forall b, In b (balls s) ->
        ind (is_captured b) + ind (fell_off b) + ind (is_falling b) = 1)
  /\ (forall n c, In (n, c) (intervals (host s)) ->
        c = Z.of_nat (length (balls s))).
Proof.
  intros s.
  destruct (reachable_Inv env ctl cw ch rnd evs) as ((_ & C2 & C3) & _).
  fold s in C2, C3.
  split; [rewrite C2; apply partition_balls|].
  split; [exact C2|]. split.
  - intros b _. unfold is_captured, fell_off, is_falling, ind.
    destruct (isSettling b), (landed b); reflexivity.
  - intros n c Hin. apply C3 in Hin. tauto.
Qed.

(** C10: in every state the page can reach, [ballsBeingDropped] is the number
    of balls that are neither settling nor landed, hence not negative.
    Processing one ball lowers it by one exactly when the ball leaves the
    falling state (bin capture or fall past the bottom) and leaves it alone
    for a settling ball being finalized; a call of [tryDropBall] raises it by
    the number of balls it appends; and the continuation test of [gameLoop]
    then reduces to "some ball is not landed". *)
Theorem active_ball_counter env ctl cw ch rnd evs :
  let s := run evs (pageLoad env ctl cw ch rnd) in
  ballsBeingDropped s = count_where is_falling (balls s)
  /\ 0 <= ballsBeingDropped s
  /\ (forall b st,
        ballsBeingDropped (snd (updateBall b st))
        = ballsBeingDropped st - left_falling b (fst (updateBall b st)))
  /\ (forall b st, is_falling b = false ->
        ballsBeingDropped (snd (updateBall b st)) = ballsBeingDropped st)
  /\ (forall n st,
        ballsBeingDropped (tryDropBall n st) - ballsBeingDropped st
        = Z.of_nat (length (balls (tryDropBall n st)))
          - Z.of_nat (length (balls st)))
  /\ (0 <? ballsBeingDropped s)
     || existsb (fun ball => negb (landed ball)) (balls s)
     = existsb (fun ball => negb (landed ball)) (balls s).
Proof.
  intros s.
  destruct (reachable_Inv env ctl cw ch rnd evs) as ((C1 & _) & _).
  fold s in C1.
  assert (Hupd : forall b st,
             ballsBeingDropped (snd (updateBall b st))
             = ballsBeingDropped st - left_falling b (fst (updateBall b st))).
  { intros b st. destruct (updateBall b st) as [b' st'] eqn:E.
    apply updateBall_spec in E. simpl. apply E. }
  split; [exact C1|]. split; [rewrite C1; apply count_where_nonneg|].
  split; [exact Hupd|]. split.
  { intros b st Hnf. rewrite Hupd. unfold left_falling. rewrite Hnf.
    simpl. lia. }
  split; [apply tryDropBall_counter|].
  destruct (0 <? ballsBeingDropped s) eqn:Hpos; [|reflexivity].
  apply Z.ltb_lt in Hpos. rewrite C1 in Hpos. simpl. symmetry.
  clear C1. induction (balls s) as [|b bs IH]; [discriminate|].
  rewrite count_where_cons in Hpos. simpl.
  destruct (landed b) eqn:Hl; simpl; [|reflexivity].
  assert (Hz : ind (is_falling b) = 0)
    by (unfold is_falling; rewrite Hl, andb_false_r; reflexivity).
  apply IH. lia.
Qed.

(** C2: in a run begun by an accepted [start], after any ticks every bin has
    [0 <= count <= maxCapacity]; over any further ticks each bin keeps its
    capacity, its count does not decrease and, once equal to the capacity,
    does not change.  A ball arriving at a bin whose count has reached the
    capacity leaves the bin as it is, is not marked settling, and is sent
    back up from just above the bin. *)
Theorem bin_count_within_capacity env s ts1 ts2 :
  truthy (animationFrameId s) = false ->
  fst (validateInputs (numRowsInput_value env) (numBallsInput_value env)
                      (binCapacityInput_value env)) = true ->
  let s1 := run_ticks ts1 (snd (startSimulation env s)) in
  let s2 := run_ticks ts2 s1 in
  Forall (fun b => 0 <= count b <= maxCapacity b) (bins s1)
  /\ Forall2 bin_step (bins s1) (bins s2)
  /\ (forall bin ball st,
        maxCapacity bin <= count bin ->
        fst (fst (binArrival bin ball st)) = bin
        /\ isSettling (snd (fst (binArrival bin ball st))) = isSettling ball
        /\ landed (snd (fst (binArrival bin ball st))) = landed ball
        /\ vy (snd (fst (binArrival bin ball st)))
           = (vy ball * (neg BOUNCE_FACTOR * lit (1 # 2)))%num
        /\ y (snd (fst (binArrival bin ball st)))
           = (bin_y bin - currentBallRadius (layout st) - lit (1 # 10))%num
        /\ ballsBeingDropped (snd (binArrival bin ball st))
           = ballsBeingDropped st).
Proof.
  intros Hidle Hok s1 s2.
  split; [|split; [apply run_ticks_bins|]].
  - subst s1. eapply bins_step_within; [apply run_ticks_bins|].
    destruct (validateInputs_cases (numRowsInput_value env)
                (numBallsInput_value env) (binCapacityInput_value env))
      as [(Hv & _ & _ & Hcap) | (msg & Hv & _)];
      [|rewrite Hv in Hok; discriminate].
    rewrite (startSimulation_accepted env s Hidle Hv). cbn [snd].
    eapply bins_step_within; [apply gameLoop_bins|].
    rewrite tryDropBall_bins. unfold start_setup. cbn [bins].
    eapply Forall_impl; [|apply rebuild_bins_fresh].
    intros b [Hc Hm]. rewrite Hc, Hm.
    unfold out_of_range in Hcap.
    destruct (binCapacityInput_value env) as [c|]; [|discriminate].
    apply orb_false_elim in Hcap. destruct Hcap as [H1 H2].
    apply Z.ltb_ge in H1. apply Z.ltb_ge in H2. simpl.
    destruct (c =? 0) eqn:E; [apply Z.eqb_eq in E|]; lia.
  - intros bin ball st Hfull. unfold binArrival.
    destruct (count bin <? maxCapacity bin) eqn:Hc;
      [apply Z.ltb_lt in Hc; lia|].
    break_if; cbn; repeat split; reflexivity.
Qed.

Lemma bin_count_within_capacity_witness :
  let s1 :=
    run_ticks [tick_frame 2; tick_interval 1]
              (snd (startSimulation demo_env demo_page)) in
  let s2 := run_ticks [tick_frame 3; tick_frame 4] s1 in
  Forall (fun b => 0 <= count b <= maxCapacity b) (bins s1)
  /\ Forall2 bin_step (bins s1) (bins s2)
  /\ fst (fst (binArrival full_bin low_ball s1)) = full_bin.
Proof.
  pose proof (bin_count_within_capacity demo_env demo_page
                [tick_frame 2; tick_interval 1] [tick_frame 3; tick_frame 4]
                eq_refl eq_refl) as (H1 & H2 & H3).
  split; [exact H1|]. split; [exact H2|].
  apply (H3 full_bin low_ball _ (Z.le_refl 50)).
Defined.

(** C3: over one tick every ball already present makes at most one of the
    transitions falling -> settling, falling -> landed, settling -> landed,
    and the balls the tick adds are falling; over any sequence of ticks no
    ball is further back in the order falling, settling, landed than it
    was. *)
Theorem lifecycle_is_monotone s ts t :
  tick_lifecycle (balls (run_ticks ts s))
                 (balls (step (event_of_tick t) (run_ticks ts s)))
  /\ advanced (balls s) (balls (run_ticks ts s)).
Proof.
  split.
  - apply tick_balls.
  - apply run_ticks_balls.
Qed.

(** C9: in every state the page can reach, [stopSimulation] and
    [resetSimulation] leave no frame request pending and no interval active,
    with [animationFrameId] null and [dropIntervalId] cleared; when no run
    is active [stopSimulation] returns the state it was given; stopping
    twice is the same as stopping once, and so is resetting twice. *)
Theorem stop_and_reset_cancel_and_are_idempotent env ctl cw ch rnd evs e :
  let s := run evs (pageLoad env ctl cw ch rnd) in
  (frames (host (stopSimulation s)) = []
   /\ intervals (host (stopSimulation s)) = []
   /\ animationFrameId (stopSimulation s) = h_null
   /\ truthy (dropIntervalId (stopSimulation s)) = false)
  /\ (frames (host (resetSimulation e s)) = []
      /\ intervals (host (resetSimulation e s)) = []
      /\ animationFrameId (resetSimulation e s) = h_null
      /\ truthy (dropIntervalId (resetSimulation e s)) = false)
  /\ (truthy (animationFrameId s) = false -> stopSimulation s = s)
  /\ stopSimulation (stopSimulation s) = stopSimulation s
  /\ resetSimulation e (resetSimulation e s) = resetSimulation e s.
Proof.
  intros s.
  pose proof (reachable_Inv env ctl cw ch rnd evs) as HI. fold s in HI.
  pose proof (reachable_Idle env ctl cw ch rnd evs) as Hid. fold s in Hid.
  destruct (stopSimulation_quiet s (proj1 HI) (Inv_frames_cleared s HI))
    as (_ & Hf & Hi & Ha & Hd).
  split; [auto|]. split.
  - rewrite resetSimulation_shape. cbn -[stopSimulation rebuild]. auto.
  - split; [apply stopSimulation_idle_noop; assumption|].
    split; [apply stopSimulation_idem | apply resetSimulation_idem].
Qed.

(* ------------------------------------------------------------------------- *)
(** * Input validation *)

(** C4, as stated, fails: a rejected [start] with zero rows still overwrites
    [ballsToDropTotal] (0 after the reset at page load) with the parsed
    number of balls. *)
Lemma rejected_start_changes_a_variable :
  out_of_range (numRowsInput_value zero_rows_env) 1 30 = true
  /\ fst (startSimulation zero_rows_env zero_rows_page)
     = Some "Number of rows must be between 1 and 30."%string
  /\ ballsToDropTotal zero_rows_page = Some 0
  /\ ballsToDropTotal (snd (startSimulation zero_rows_env zero_rows_page))
     = Some 500
  /\ snd (startSimulation zero_rows_env zero_rows_page) <> zero_rows_page.
Proof.
  repeat split; try reflexivity.
  intros H. apply (f_equal ballsToDropTotal) in H. vm_compute in H.
  discriminate.
Qed.

(** C4 (amended): when no run is active and the row count, ball total or bin
    capacity is non-numeric or outside [1,30], [1,5000], [1,1000], [start]
    alerts one of the three validation messages and does not start a run:
    [NUM_ROWS] and [ballsToDropTotal] are overwritten with the parsed inputs
    and nothing else changes (pegs, bins, balls, layout, canvas, active-ball
    counter, both timer handles, control enablement, host tables). *)
Theorem invalid_start_is_rejected env s :
  truthy (animationFrameId s) = false ->
  out_of_range (numRowsInput_value env) 1 30 = true
  \/ out_of_range (numBallsInput_value env) 1 5000 = true
  \/ out_of_range (binCapacityInput_value env) 1 1000 = true ->
  let s' := snd (startSimulation env s) in
  (exists msg,
     fst (startSimulation env s) = Some msg
     /\ (msg = "Number of rows must be between 1 and 30."%string
         \/ msg = "Number of balls must be between 1 and 5000."%string
         \/ msg = "Bin capacity must be between 1 and 1000."%string))
  /\ s' = set_ballsToDropTotal (numBallsInput_value env)
            (set_NUM_ROWS (numRowsInput_value env) s)
  /\ pegs s' = pegs s /\ bins s' = bins s /\ balls s' = balls s
  /\ layout s' = layout s
  /\ canvas_width s' = canvas_width s /\ canvas_height s' = canvas_height s
  /\ ballsBeingDropped s' = ballsBeingDropped s
  /\ animationFrameId s' = animationFrameId s
  /\ dropIntervalId s' = dropIntervalId s
  /\ controls s' = controls s
  /\ host s' = host s.
Proof.
  intros Hidle Hbad s'.
  destruct (validateInputs_cases (numRowsInput_value env)
              (numBallsInput_value env) (binCapacityInput_value env))
    as [(_ & H1 & H2 & H3) | (msg & Hv & _ & Hmsg)].
  { rewrite H1, H2, H3 in Hbad. destruct Hbad as [|[|]]; discriminate. }
  subst s'. rewrite (startSimulation_rejected env s msg Hidle Hv). cbn.
  split; [exists msg; auto|]. repeat split; reflexivity.
Qed.

Lemma invalid_start_is_rejected_witness :
  fst (startSimulation zero_rows_env zero_rows_page)
  = Some "Number of rows must be between 1 and 30."%string
  /\ pegs (snd (startSimulation zero_rows_env zero_rows_page)) = []
  /\ controls (snd (startSimulation zero_rows_env zero_rows_page))
     = controls zero_rows_page.
Proof.
  pose proof (invalid_start_is_rejected zero_rows_env zero_rows_page
                eq_refl (or_introl eq_refl)) as (_ & _ & Hp & _).
  pose proof (invalid_start_is_rejected zero_rows_env zero_rows_page
                eq_refl (or_introl eq_refl))
    as (_ & _ & _ & _ & _ & _ & _ & _ & _ & _ & _ & Hc & _).
  split; [reflexivity|]. split; [rewrite Hp; reflexivity | exact Hc].
Defined.

(* ------------------------------------------------------------------------- *)
(** * Falling off the board *)

(** C5, as stated, fails: the bottom edge of [low_ball] (165 + 5) is past
    the canvas bottom (166), yet the wall-collision step leaves it falling;
    so does a whole tick for the ball that reaches this position by its
    integration step. *)
Lemma bottom_edge_past_bottom_not_landed :
  (y low_ball + currentBallRadius (layout demo_run) >? canvas_height demo_run)%num
  = true
  /\ landed (fst (handleBallWallCollisions low_ball demo_run)) = false
  /\ (let b := set_vy (lit 0) (set_y (lit (32970 # 200)) low_ball) in
      let b1 := applyBallPhysics b demo_run in
      (y b1 + currentBallRadius (layout demo_run) >? canvas_height demo_run)%num
      = true
      /\ landed (fst (updateBall b demo_run)) = false).
Proof. vm_compute. repeat split; reflexivity. Qed.

(** C5 (amended): if, after the integration step, the top edge of a falling
    ball (centre y minus the ball radius) is below the canvas bottom, the
    tick marks the ball landed, lowers the active-ball counter by one and
    ends for this ball with the wall-collision step: pegs and bins are not
    consulted, no bin changes and no random number is drawn. *)
Theorem falling_past_bottom_lands b s :
  landed b = false ->
  isSettling b = false ->
  (y (applyBallPhysics b s) - currentBallRadius (layout s) >? canvas_height s)%num
  = true ->
  updateBall b s = handleBallWallCollisions (applyBallPhysics b s) s
  /\ landed (fst (updateBall b s)) = true
  /\ isSettling (fst (updateBall b s)) = false
  /\ ballsBeingDropped (snd (updateBall b s)) = ballsBeingDropped s - 1
  /\ bins (snd (updateBall b s)) = bins s
  /\ host (snd (updateBall b s)) = host s.
Proof.
  intros Hl Hs Hy.
  assert (Hw : landed (fst (handleBallWallCollisions (applyBallPhysics b s) s))
               = true
               /\ isSettling
                    (fst (handleBallWallCollisions (applyBallPhysics b s) s))
                  = false
               /\ snd (handleBallWallCollisions (applyBallPhysics b s) s)
                  = set_ballsBeingDropped (ballsBeingDropped s - 1) s).
  { unfold handleBallWallCollisions.
    set (b1 := applyBallPhysics b s) in *.
    assert (Hl1 : landed b1 = false) by exact Hl.
    assert (Hs1 : isSettling b1 = false) by exact Hs.
    clearbody b1.
    repeat break_if; cbn [y set_x set_vx set_y set_vy landed isSettling] in *;
      rewrite ?Hy, ?Hl1, ?Hs1 in *; cbn [andb negb] in *; try discriminate;
      repeat split; simpl; auto. }
  destruct Hw as (W1 & W2 & W3).
  unfold updateBall. rewrite Hl, Hs.
  destruct (handleBallWallCollisions (applyBallPhysics b s) s) as [b2 s2] eqn:E.
  simpl in W1, W2, W3. rewrite W1. subst s2. simpl.
  repeat split; auto.
Qed.

Lemma falling_past_bottom_lands_witness :
  landed (fst (updateBall (set_y (lit 175) low_ball) demo_run)) = true
  /\ ballsBeingDropped (snd (updateBall (set_y (lit 175) low_ball) demo_run))
     = ballsBeingDropped demo_run - 1.
Proof.
  pose proof (falling_past_bottom_lands (set_y (lit 175) low_ball) demo_run
                eq_refl eq_refl eq_refl) as (_ & Hl & _ & Hd & _).
  split; [exact Hl | exact Hd].
Defined.

(* ------------------------------------------------------------------------- *)
(** * Board Builder *)

Lemma pegRow_length s row : length (pegRow s row) = S row.
Proof. unfold pegRow. rewrite length_map, length_seq. reflexivity. Qed.

Lemma triangle_length (f : nat -> list Peg) (n : nat) :
  (forall r, length (f r) = S r) ->
  (2 * length (flat_map f (seq 0 n)) = n * (n + 1))%nat.
Proof.
  intros Hf. induction n as [|n IH]; [reflexivity|].
  rewrite seq_S, flat_map_app, length_app. simpl flat_map.
  rewrite app_nil_r, Hf. lia.
Qed.

(** C7: for a row count [R] in [1,30], [resizeCanvas(); initPegs();
    initBins();] produces [R*(R+1)/2] pegs, laid out row after row with
    [r+1] pegs in row [r], and [R+1] bins, each with [count = 0] and a width
    equal to the horizontal peg pitch. *)
Theorem board_builder_counts env s R :
  numRowsInput_value env = Some R ->
  1 <= R <= 30 ->
  let s1 := resizeCanvas env s in
  let s3 := initBins env (initPegs s1) in
  Z.of_nat (length (pegs s3)) = R * (R + 1) / 2
  /\ pegs s3 = flat_map (pegRow s1) (seq 0 (Z.to_nat R))
  /\ (forall r, length (pegRow s1 r) = S r)
  /\ Z.of_nat (length (bins s3)) = R + 1
  /\ Forall (fun b => count b = 0
                      /\ width b = currentPegSpacingX (layout s3))
            (bins s3).
Proof.
  intros HR Hrange s1 s3.
  assert (Hrows : NUM_ROWS s1 = Some R).
  { subst s1. rewrite resizeCanvas_shape. exact HR. }
  assert (Hpegs : pegs s3 = flat_map (pegRow s1) (seq 0 (Z.to_nat R))).
  { subst s3. unfold initBins, initPegs. cbn [pegs set_bins set_pegs].
    rewrite Hrows. reflexivity. }
  split.
  { rewrite Hpegs.
    pose proof (triangle_length (pegRow s1) (Z.to_nat R) (pegRow_length s1)).
    apply Z.div_unique_exact; lia. }
  split; [exact Hpegs|]. split; [apply pegRow_length|].
  subst s3. unfold initBins, initPegs.
  cbn [bins set_bins set_pegs NUM_ROWS layout]. rewrite Hrows. split.
  - rewrite length_map, length_seq. simpl loop_count. lia.
  - apply Forall_forall. intros b Hb. apply in_map_iff in Hb.
    destruct Hb as (i & <- & _). split; reflexivity.
Qed.

Lemma board_builder_counts_witness :
  let s3 := initBins demo_env (initPegs (resizeCanvas demo_env demo_page)) in
  Z.of_nat (length (pegs s3)) = 1 /\ Z.of_nat (length (bins s3)) = 2.
Proof.
  pose proof (board_builder_counts demo_env demo_page 1 eq_refl
                (conj (Z.le_refl 1) (Zle_bool_imp_le 1 30 eq_refl)))
    as (Hp & _ & _ & Hb & _).
  split; [exact Hp | exact Hb].
Defined.

(* ------------------------------------------------------------------------- *)
(** * Geometry Layout *)

Lemma rows_offset_nonzero R : Qeq_bool (inject_Z R + (35 # 10)) 0 = false.
Proof.
  apply not_true_is_false. intros H. apply Qeq_bool_iff in H.
  unfold Qeq, Qplus, inject_Z in H. simpl in H. lia.
Qed.

Lemma Qltb_lt a b : Qltb a b = true <-> (a < b)%Q.
Proof.
  unfold Qltb. rewrite negb_true_iff. split.
  - intros H. apply Qnot_le_lt. intros Hle. apply Qle_bool_iff in Hle.
    congruence.
  - intros H. apply not_true_is_false. intros Hle. apply Qle_bool_iff in Hle.
    apply (Qlt_not_le _ _ H Hle).
Qed.

Lemma Qltb_ge a b : Qltb a b = false <-> (b <= a)%Q.
Proof. unfold Qltb. rewrite negb_false_iff. apply Qle_bool_iff. Qed.

(** C8: the layout and canvas size [resizeCanvas] computes depend on the
    inputs only, not on the previous state.  For a row count [R] and a
    viewport of width [vw], with available width [W = vw - 10 - 10], the
    final width is [min ((R + 3.5) * 40) W] and the pitch
    [finalWidth / (R + 3.5)]; when
    that pitch is below [6 * 3] the pitch is [6 * 3] and the final width
    [(R + 3.5) * pitch]; [scaleFactor] is the pitch over 40 and the seven
    other scaled quantities are their base values times [scaleFactor]. *)
Theorem layout_from_rows_and_width env s R vw :
  numRowsInput_value env = Some R ->
  innerWidth env = Some vw ->
  let s' := resizeCanvas env s in
  let W := (vw - 10 - 10)%Q in
  let k := (inject_Z R + (35 # 10))%Q in
  let fw0 := Qmin (k * 40) W in
  let p0 := (fw0 / k)%Q in
  (forall t, layout (resizeCanvas env t) = layout s'
             /\ canvas_width (resizeCanvas env t) = canvas_width s'
             /\ canvas_height (resizeCanvas env t) = canvas_height s')
  /\ exists fw p sf,
    canvas_width s' = Some fw
    /\ currentPegSpacingX (layout s') = Some p
    /\ scaleFactor (layout s') = Some sf
    /\ ((p0 < 6 * 3)%Q -> (p == 6 * 3)%Q /\ (fw == k * (6 * 3))%Q)
    /\ ((6 * 3 <= p0)%Q -> (p == p0)%Q /\ (fw == fw0)%Q)
    /\ (sf == p / 40)%Q
    /\ currentPegSpacingY (layout s') = Some (30 * sf)%Q
    /\ currentStartYOffset (layout s') = Some (30 * sf)%Q
    /\ currentPegRadius (layout s') = Some (6 * sf)%Q
    /\ currentBallRadius (layout s') = Some (5 * sf)%Q
    /\ currentDrawnBinHeight (layout s') = Some (60 * sf)%Q
    /\ currentSpaceBelowPegs (layout s') = Some (30 * sf)%Q
    /\ currentBottomPadding (layout s') = Some (40 * sf)%Q.
Proof.
  intros HR HW s' W k fw0 p0. subst s'.
  split; [intros t; apply resizeCanvas_indep|].
  unfold resizeCanvas.
  cbn [NUM_ROWS set_NUM_ROWS]. rewrite HR, HW.
  unfold CANVAS_MARGIN_LEFT, CANVAS_MARGIN_RIGHT, BASE_PEG_SPACING_X,
    BASE_PEG_RADIUS, lit.
  cbn [of_int option_map add sub mul div lift2 gt lt].
  fold W. fold k.
  assert (Hk : Qeq_bool k 0 = false) by apply rows_offset_nonzero.
  assert (Hfw0 : (fw0 == (if Qltb W (k * 40) then W else k * 40))%Q).
  { unfold fw0. destruct (Qltb W (k * 40)) eqn:E.
    - apply Qltb_lt in E. rewrite Q.min_r; [reflexivity | apply Qlt_le_weak, E].
    - apply Qltb_ge in E. rewrite Q.min_l; [reflexivity | exact E]. }
  assert (Hp0 : (p0 == (if Qltb W (k * 40) then W else k * 40) / k)%Q).
  { unfold p0. rewrite Hfw0. reflexivity. }
  clearbody p0 fw0.
  destruct (Qltb W (k * 40)) eqn:E1; qcbn; rewrite Hk; qcbn;
    match goal with
    | |- context [Qltb ?a ?b] => destruct (Qltb a b) eqn:E2
    end; qcbn;
    do 3 eexists;
    (split; [reflexivity|]); (split; [reflexivity|]); (split; [reflexivity|]);
    [ apply Qltb_lt in E2 | apply Qltb_ge in E2
    | apply Qltb_lt in E2 | apply Qltb_ge in E2 ];
    match type of E2 with
    | context [(?a / k)%Q] => set (q := (a / k)%Q) in *
    end;
    (split; [intros Hlt; split; try reflexivity; try lra|]);
    (split; [intros Hge; split; try (symmetry; assumption); try lra|]);
    (split; [reflexivity|]); repeat split; reflexivity.
Qed.

Lemma layout_from_rows_and_width_witness :
  exists fw p sf,
    canvas_width (resizeCanvas narrow_env demo_page) = Some fw
    /\ currentPegSpacingX (layout (resizeCanvas narrow_env demo_page)) = Some p
    /\ scaleFactor (layout (resizeCanvas narrow_env demo_page)) = Some sf
    /\ (p == 18)%Q /\ (fw == 81)%Q /\ (sf == 9 # 20)%Q.
Proof.
  destruct (layout_from_rows_and_width narrow_env demo_page 1 100
              eq_refl eq_refl)
    as (_ & fw & p & sf & Hw & Hp & Hs & Hfloor & _ & Hsf & _).
  exists fw, p, sf.
  destruct (Hfloor eq_refl) as [Ep Ef].
  split; [exact Hw|]. split; [exact Hp|]. split; [exact Hs|].
  split; [|split].
  - apply (Qeq_trans _ _ _ Ep). reflexivity.
  - apply (Qeq_trans _ _ _ Ef). reflexivity.
  - apply (Qeq_trans _ _ _ Hsf).
    apply (Qeq_trans _ ((6 * 3) / 40)%Q); [|reflexivity].
    apply Qmult_comp; [exact Ep | reflexivity].
Defined.

(* ------------------------------------------------------------------------- *)
(** * Peg collisions *)

(** C6: the code breaks the repositioning clause of the claim, and its own
    comment ("Nudge the ball slightly away from the peg to prevent
    sticking").  [high_ball], 8 above the centre of [demo_peg] (contact
    distance 11), hits the peg and is put at [y = 35.61], that is 5.61 below
    the peg centre: on the side opposite to its vertical offset, and still
    in collision with the peg.  A second collision puts it back above, at
    [y = 24.39], again inside the contact distance. *)
Lemma peg_reposition_not_outside_along_offset :
  let b' := fst (pegCollision demo_peg high_ball demo_run) in
  pegHit high_ball demo_peg demo_run = true
  /\ sign (y high_ball - peg_y demo_peg)%num = Some (-1)%Q
  /\ sign (y b' - peg_y demo_peg)%num = Some 1%Q
  /\ pegHit b' demo_peg demo_run = true
  /\ ~ (sign (y b' - peg_y demo_peg)%num
        = sign (y high_ball - peg_y demo_peg)%num
        /\ pegHit b' demo_peg demo_run = false)
  /\ (exists y1, y b' = Some y1 /\ (y1 == 3561 # 100)%Q)
  /\ (exists y2, y (fst (pegCollision demo_peg b'
                           (snd (pegCollision demo_peg high_ball demo_run))))
                 = Some y2 /\ (y2 == 2439 # 100)%Q).
Proof.
  vm_compute. repeat split; try reflexivity.
  - intros [H _]. discriminate H.
  - eexists. split; reflexivity.
  - eexists. split; reflexivity.
Qed.

(** What [pegCollision] computes for a ball that hits the peg, under a
    positive scale factor and a random draw [u] in [0,1). *)
Lemma pegCollision_on_hit peg ball s bx px sf :
  pegHit ball peg s = true ->
  x ball = Some bx ->
  peg_x peg = Some px ->
  scaleFactor (layout s) = Some sf ->
  (0 < sf)%Q ->
  (0 <= randoms (host s) (randIdx (host s)) < 1)%Q ->
  let u := randoms (host s) (randIdx (host s)) in
  let b' := fst (pegCollision peg ball s) in
  let s' := snd (pegCollision peg ball s) in
  y b' = (peg_y peg
          - (currentBallRadius (layout s) + currentPegRadius (layout s))
            * sign (y ball - peg_y peg) * lit (51 # 100))%num
  /\ vy b' = (vy ball * neg BOUNCE_FACTOR)%num
  /\ x b' = x ball
  /\ (exists v,
        vx b' = Some v
        /\ (Qabs v == Qmax ((15 # 10) * sf * u) ((1 # 2) * sf))%Q
        /\ ((1 # 2) * sf <= Qabs v)%Q /\ (Qabs v < (15 # 10) * sf)%Q
        /\ ((bx < px)%Q -> (v < 0)%Q)
        /\ ((px <= bx)%Q -> (0 < v)%Q))
  /\ randIdx (host s') = S (randIdx (host s))
  /\ landed b' = landed ball /\ isSettling b' = isSettling ball.
Proof.
  intros Hhit Hx Hpx Hsf Hpos Hu u b' s'. subst b' s'.
  unfold pegCollision. rewrite Hhit.
  unfold Math_random.
  cbn [fst snd set_y set_vy set_vx x y vx vy landed isSettling host set_host
       randIdx layout].
  rewrite Hx, Hpx, Hsf. fold u.
  unfold HORIZONTAL_BUMP, lit.
  cbn [lt mul lift2 abs neg option_map].
  set (m := ((15 # 10) * sf)%Q).
  assert (Hm : (0 < m)%Q) by (unfold m; lra).
  assert (Hu0 : (0 <= u)%Q) by apply Hu.
  assert (Hu1 : (u < 1)%Q) by apply Hu.
  assert (Ht0 : (0 <= m * u)%Q)
    by (apply Qmult_le_0_compat; [apply Qlt_le_weak, Hm | exact Hu0]).
  assert (Ht1 : (m * u < m)%Q).
  { setoid_replace m with (m * 1)%Q at 2 by ring.
    apply Qmult_lt_l; [exact Hm | exact Hu1]. }
  assert (Hhalf : ((1 # 2) * sf < m)%Q) by (unfold m; lra).
  assert (Habs1 : (Qabs (- m * u) == m * u)%Q).
  { setoid_replace (- m * u)%Q with (- (m * u))%Q by ring.
    rewrite Qabs_opp. apply Qabs_pos. exact Ht0. }
  assert (Habs2 : (Qabs (m * u) == m * u)%Q) by (apply Qabs_pos; exact Ht0).
  assert (Habs3 : (Qabs (-1 * (1 # 2) * sf) == (1 # 2) * sf)%Q).
  { setoid_replace (-1 * (1 # 2) * sf)%Q with (- ((1 # 2) * sf))%Q by ring.
    rewrite Qabs_opp. apply Qabs_pos. lra. }
  assert (Habs4 : (Qabs (1 * (1 # 2) * sf) == (1 # 2) * sf)%Q).
  { setoid_replace (1 * (1 # 2) * sf)%Q with ((1 # 2) * sf)%Q by ring.
    apply Qabs_pos. lra. }
  destruct (Qltb bx px) eqn:Edir; qcbn; rewrite ?Hx, ?Hpx, ?Hsf; qcbn;
    rewrite ?Edir;
    match goal with
    | |- context [Qltb ?a ?b] => destruct (Qltb a b) eqn:Efloor
    end; qcbn;
    [ apply Qltb_lt in Efloor; rewrite Habs1 in Efloor
    | apply Qltb_ge in Efloor; rewrite Habs1 in Efloor
    | apply Qltb_lt in Efloor; rewrite Habs2 in Efloor
    | apply Qltb_ge in Efloor; rewrite Habs2 in Efloor ];
    (split; [reflexivity|]); (split; [reflexivity|]); (split; [assumption|]);
    (split; [|repeat split; reflexivity]);
    eexists; (split; [reflexivity|]);
    rewrite ?Habs1, ?Habs2, ?Habs3, ?Habs4;
    [ apply Qltb_lt in Edir | apply Qltb_lt in Edir
    | apply Qltb_ge in Edir | apply Qltb_ge in Edir ];
    (split; [first [ rewrite Q.max_r by lra; reflexivity
                   | rewrite Q.max_l by lra; reflexivity ]|]);
    repeat split; intros; lra.
Qed.

(** X30: the velocity part of the peg response.  When a ball hits a peg,
    under a positive scale factor and a random draw [u] in [0,1), its
    vertical velocity is multiplied by [-BOUNCE_FACTOR], its [x] is kept, and
    its horizontal velocity points away from the peg centre (negative when
    the ball is left of it, positive otherwise) with magnitude
    [max (HORIZONTAL_BUMP * scaleFactor * u) (0.5 * scaleFactor)], hence
    between [0.5 * scaleFactor] and [1.5 * scaleFactor]; one random number is
    consumed and the lifecycle flags are kept. *)
Theorem peg_collision_velocities peg ball s bx px sf :
  pegHit ball peg s = true ->
  x ball = Some bx ->
  peg_x peg = Some px ->
  scaleFactor (layout s) = Some sf ->
  (0 < sf)%Q ->
  (0 <= randoms (host s) (randIdx (host s)) < 1)%Q ->
  let u := randoms (host s) (randIdx (host s)) in
  let b' := fst (pegCollision peg ball s) in
  let s' := snd (pegCollision peg ball s) in
  vy b' = (vy ball * neg BOUNCE_FACTOR)%num
  /\ x b' = x ball
  /\ (exists v,
        vx b' = Some v
        /\ (Qabs v == Qmax ((15 # 10) * sf * u) ((1 # 2) * sf))%Q
        /\ ((1 # 2) * sf <= Qabs v)%Q /\ (Qabs v <= (15 # 10) * sf)%Q
        /\ ((bx < px)%Q -> (v < 0)%Q)
        /\ ((px <= bx)%Q -> (0 < v)%Q))
  /\ randIdx (host s') = S (randIdx (host s))
  /\ landed b' = landed ball /\ isSettling b' = isSettling ball.
Proof.
  intros Hhit Hx Hpx Hsf Hpos Hu u b' s'.
  destruct (pegCollision_on_hit peg ball s bx px sf Hhit Hx Hpx Hsf Hpos Hu)
    as (_ & Hvy & Hxx & (v & Hv & Hmag & Hlo & Hhi & Hl & Hr) & Hrand & Hf).
  split; [exact Hvy|]. split; [exact Hxx|].
  split; [|split; [exact Hrand | exact Hf]].
  exists v. split; [exact Hv|]. split; [exact Hmag|].
  split; [exact Hlo|]. split; [apply Qlt_le_weak; exact Hhi|].
  split; assumption.
Qed.

Lemma peg_collision_velocities_witness :
  vy (fst (pegCollision demo_peg high_ball demo_run))
  = (vy high_ball * neg BOUNCE_FACTOR)%num
  /\ exists v,
       vx (fst (pegCollision demo_peg high_ball demo_run)) = Some v
       /\ (0 < v)%Q.
Proof.
  pose proof (peg_collision_velocities demo_peg high_ball demo_run 90 90
                (18000 # 18000)) as H.
  assert (H1 : pegHit high_ball demo_peg demo_run = true)
    by (vm_compute; reflexivity).
  assert (H2 : scaleFactor (layout demo_run) = Some (18000 # 18000))
    by (vm_compute; reflexivity).
  specialize (H H1 eq_refl eq_refl H2 eq_refl).
  match type of H with
  | ?P -> _ =>
      assert (HP : P)
        by (split; [vm_compute; discriminate | vm_compute; reflexivity]);
      specialize (H HP)
  end.
  destruct H as (Hvy & _ & (v & Hv & _ & _ & _ & _ & Hright) & _).
  split; [exact Hvy|].
  exists v. split; [exact Hv|]. apply Hright. apply Qle_refl.
Defined.

(* ------------------------------------------------------------------------- *)
(** * Further properties of the layout *)

Lemma rows_offset_pos R : -3 <= R -> (0 < inject_Z R + (35 # 10))%Q.
Proof.
  intros H. unfold Qlt, Qplus, inject_Z. simpl. lia.
Qed.

(** [resizeCanvas] on a numeric row count (at least -3) and viewport width,
    in closed form. *)
Lemma resizeCanvas_numeric env s R vw :
  numRowsInput_value env = Some R ->
  innerWidth env = Some vw ->
  -3 <= R ->
  exists p sf fw,
    layout (resizeCanvas env s)
    = mkLayout (Some p) (Some (30 * sf)%Q) (Some (30 * sf)%Q)
               (Some (6 * sf)%Q) (Some (5 * sf)%Q) (Some (60 * sf)%Q)
               (Some (30 * sf)%Q) (Some (40 * sf)%Q) (Some sf)
    /\ canvas_width (resizeCanvas env s) = Some fw
    /\ canvas_height (resizeCanvas env s)
       = Some (30 * sf + (inject_Z R - 1) * (30 * sf) + 6 * sf + 30 * sf
               + 60 * sf + 40 * sf)%Q
    /\ NUM_ROWS (resizeCanvas env s) = Some R
    /\ (18 <= p)%Q /\ (p <= 40)%Q
    /\ (sf == p / 40)%Q
    /\ (fw == (inject_Z R + (35 # 10)) * p)%Q.
Proof.
  intros HR HW Hrows.
  assert (Hn : NUM_ROWS (resizeCanvas env s) = Some R)
    by (rewrite resizeCanvas_shape; exact HR).
  revert Hn. unfold resizeCanvas.
  cbn [NUM_ROWS set_NUM_ROWS]. rewrite HR, HW.
  unfold CANVAS_MARGIN_LEFT, CANVAS_MARGIN_RIGHT, BASE_PEG_SPACING_X,
    BASE_PEG_RADIUS, lit.
  cbn [of_int option_map add sub mul div lift2 gt lt].
  set (W := (vw - 10 - 10)%Q). set (k := (inject_Z R + (35 # 10))%Q).
  assert (Hk : Qeq_bool k 0 = false) by apply rows_offset_nonzero.
  assert (Hkpos : (0 < k)%Q) by (apply rows_offset_pos; exact Hrows).
  assert (Hkk : (k * 40 / k == 40)%Q) by (field; lra).
  destruct (Qltb W (k * 40)) eqn:E1; qcbn; rewrite Hk; qcbn;
    match goal with
    | |- context [Qltb ?a ?b] => destruct (Qltb a b) eqn:E2
    end; qcbn; intros Hn;
    do 3 eexists;
    (split; [reflexivity|]); (split; [reflexivity|]); (split; [reflexivity|]);
    (split; [exact Hn|]);
    [ apply Qltb_lt in E1, E2 | apply Qltb_lt in E1; apply Qltb_ge in E2
    | apply Qltb_ge in E1; apply Qltb_lt in E2
    | apply Qltb_ge in E1; apply Qltb_ge in E2 ].
  - repeat split; try lra; reflexivity.
  - assert (W / k <= 40)%Q.
    { apply Qle_shift_div_r; [exact Hkpos|]. lra. }
    repeat split; try lra; try reflexivity. field. lra.
  - repeat split; try lra; reflexivity.
  - repeat split; try lra; try reflexivity. field. lra.
Qed.

(** The width [resizeCanvas] assigns, by cases on the available width
    [innerWidth - 20]: full size, fitted, or held at the minimum pitch. *)
Lemma resizeCanvas_width env s R vw :
  numRowsInput_value env = Some R ->
  innerWidth env = Some vw ->
  -3 <= R ->
  exists p sf fw,
    currentPegSpacingX (layout (resizeCanvas env s)) = Some p
    /\ scaleFactor (layout (resizeCanvas env s)) = Some sf
    /\ canvas_width (resizeCanvas env s) = Some fw
    /\ (sf == p / 40)%Q
    /\ ((inject_Z R + (35 # 10)) * 40 <= vw - 10 - 10
        /\ p == 40 /\ fw == (inject_Z R + (35 # 10)) * 40
        \/ (inject_Z R + (35 # 10)) * 18 <= vw - 10 - 10
           /\ vw - 10 - 10 < (inject_Z R + (35 # 10)) * 40
           /\ p == (vw - 10 - 10) / (inject_Z R + (35 # 10))
           /\ fw == vw - 10 - 10
        \/ vw - 10 - 10 < (inject_Z R + (35 # 10)) * 18
           /\ p == 18 /\ fw == (inject_Z R + (35 # 10)) * 18)%Q.
Proof.
  intros HR HW Hrows.
  unfold resizeCanvas.
  cbn [NUM_ROWS set_NUM_ROWS]. rewrite HR, HW.
  unfold CANVAS_MARGIN_LEFT, CANVAS_MARGIN_RIGHT, BASE_PEG_SPACING_X,
    BASE_PEG_RADIUS, lit.
  cbn [of_int option_map add sub mul div lift2 gt lt].
  set (W := (vw - 10 - 10)%Q). set (k := (inject_Z R + (35 # 10))%Q).
  assert (Hk : Qeq_bool k 0 = false) by apply rows_offset_nonzero.
  assert (Hkpos : (0 < k)%Q) by (apply rows_offset_pos; exact Hrows).
  assert (Hkk : (k * 40 / k == 40)%Q) by (field; lra).
  destruct (Qltb W (k * 40)) eqn:E1; qcbn; rewrite Hk; qcbn;
    match goal with
    | |- context [Qltb ?a ?b] => destruct (Qltb a b) eqn:E2
    end; qcbn;
    do 3 eexists;
    (split; [reflexivity|]); (split; [reflexivity|]); (split; [reflexivity|]);
    (split; [reflexivity|]);
    [ apply Qltb_lt in E1, E2 | apply Qltb_lt in E1; apply Qltb_ge in E2
    | apply Qltb_ge in E1; apply Qltb_lt in E2
    | apply Qltb_ge in E1; apply Qltb_ge in E2 ].
  - right; right.
    assert (W < k * 18)%Q.
    { setoid_replace W with (W / k * k)%Q by (field; lra). nra. }
    repeat split; try lra; reflexivity.
  - right; left.
    assert (k * 18 <= W)%Q.
    { setoid_replace W with (W / k * k)%Q by (field; lra). nra. }
    repeat split; try lra; reflexivity.
  - exfalso. lra.
  - left. repeat split; try lra; try reflexivity. 
Qed.

(** X1: for a numeric viewport width and a row count of at least -3 (so
    that [R + 3.5] is positive), [resizeCanvas] yields a pitch between 18 and
    40 and a scale factor between 9/20 and 1, and assigns the canvas a width
    between [(R + 3.5) * 18] and [(R + 3.5) * 40].  The width fits the
    available width [innerWidth - 20] whenever that is at least
    [(R + 3.5) * 18]; below that the floor binds (pitch 18, width
    [(R + 3.5) * 18], wider than the space available), and from
    [(R + 3.5) * 40] on the board has its full size (pitch 40). *)
Theorem layout_bounds env s R vw :
  numRowsInput_value env = Some R ->
  innerWidth env = Some vw ->
  -3 <= R ->
  let k := (inject_Z R + (35 # 10))%Q in
  let avail := (vw - 10 - 10)%Q in
  exists p sf fw,
    currentPegSpacingX (layout (resizeCanvas env s)) = Some p
    /\ scaleFactor (layout (resizeCanvas env s)) = Some sf
    /\ canvas_width (resizeCanvas env s) = Some fw
    /\ (18 <= p <= 40)%Q
    /\ (9 # 20 <= sf <= 1)%Q
    /\ (k * 18 <= fw <= k * 40)%Q
    /\ ((k * 18 <= avail)%Q -> (fw <= avail)%Q)
    /\ ((avail < k * 18)%Q -> (p == 18)%Q /\ (fw == k * 18)%Q)
    /\ ((k * 40 <= avail)%Q -> (p == 40)%Q /\ (fw == k * 40)%Q).
Proof.
  intros HR HW Hrows k avail.
  destruct (resizeCanvas_width env s R vw HR HW Hrows)
    as (p & sf & fw & Hp & Hs & Hw & Hsf & Hcases).
  fold k avail in Hcases.
  assert (Hkpos : (0 < k)%Q) by (apply rows_offset_pos; exact Hrows).
  exists p, sf, fw.
  split; [exact Hp|]. split; [exact Hs|]. split; [exact Hw|].
  assert (Hsf' : (sf * 40 == p)%Q) by (rewrite Hsf; field).
  destruct Hcases as [(C1 & C2 & C3) | [(C1 & C2 & C3 & C4) | (C1 & C2 & C3)]].
  - repeat split; intros; try lra.
  - assert (Hp18 : (18 <= p)%Q).
    { rewrite C3. apply Qle_shift_div_l; [exact Hkpos | lra]. }
    assert (Hp40 : (p <= 40)%Q).
    { rewrite C3. apply Qle_shift_div_r; [exact Hkpos | lra]. }
    repeat split; intros; try lra.
  - repeat split; intros; try lra.
Qed.

Lemma layout_bounds_witness :
  exists p sf fw,
    currentPegSpacingX (layout (resizeCanvas narrow_env demo_page)) = Some p
    /\ scaleFactor (layout (resizeCanvas narrow_env demo_page)) = Some sf
    /\ canvas_width (resizeCanvas narrow_env demo_page) = Some fw
    /\ (18 <= p <= 40)%Q
    /\ (9 # 20 <= sf <= 1)%Q
    /\ (fw == 81)%Q.
Proof.
  assert (Hrows : -3 <= 1) by lia.
  destruct (layout_bounds narrow_env demo_page 1 100 eq_refl eq_refl Hrows)
    as (p & sf & fw & Hp & Hs & Hw & Hpb & Hsb & _ & _ & Hfloor & _).
  exists p, sf, fw.
  split; [exact Hp|]. split; [exact Hs|]. split; [exact Hw|].
  split; [exact Hpb|]. split; [exact Hsb|].
  assert (Hlt : (100 - 10 - 10 < (inject_Z 1 + (35 # 10)) * 18)%Q)
    by (vm_compute; reflexivity).
  destruct (Hfloor Hlt) as [_ Hfw]. rewrite Hfw. vm_compute. reflexivity.
Defined.

(* ------------------------------------------------------------------------- *)
(** * Further properties of the board *)

Lemma pegRow_numeric s row p sf fw :
  layout s
  = mkLayout (Some p) (Some (30 * sf)%Q) (Some (30 * sf)%Q)
             (Some (6 * sf)%Q) (Some (5 * sf)%Q) (Some (60 * sf)%Q)
             (Some (30 * sf)%Q) (Some (40 * sf)%Q) (Some sf) ->
  canvas_width s = Some fw ->
  pegRow s row
  = map (fun col =>
           mkPeg (Some ((fw - (inject_Z (Z.of_nat (S row)) - 1) * p) / 2
                        + inject_Z (Z.of_nat col) * p)%Q)
                 (Some (30 * sf + inject_Z (Z.of_nat row) * (30 * sf))%Q)
                 (Some (6 * sf)%Q))
        (seq 0 (S row)).
Proof.
  intros Hl Hw. unfold pegRow. rewrite Hl, Hw. reflexivity.
Qed.

Lemma initBins_numeric env s R p sf fw :
  NUM_ROWS s = Some R ->
  layout s
  = mkLayout (Some p) (Some (30 * sf)%Q) (Some (30 * sf)%Q)
             (Some (6 * sf)%Q) (Some (5 * sf)%Q) (Some (60 * sf)%Q)
             (Some (30 * sf)%Q) (Some (40 * sf)%Q) (Some sf) ->
  canvas_width s = Some fw ->
  bins (initBins env s)
  = map (fun i =>
           mkBin (Some ((fw - inject_Z (R + 1) * p) / 2
                        + inject_Z (Z.of_nat i) * p)%Q)
                 (Some (30 * sf + (inject_Z R - 1) * (30 * sf) + 6 * sf
                        + 30 * sf)%Q)
                 (Some p) (Some (60 * sf)%Q) 0
                 (capacity_or_default (binCapacityInput_value env)))
        (seq 0 (Z.to_nat (R + 1))).
Proof.
  intros Hn Hl Hw. unfold initBins. rewrite Hn, Hl, Hw. reflexivity.
Qed.


Lemma inject_Z_nat_nonneg n : (0 <= inject_Z (Z.of_nat n))%Q.
Proof.
  change 0%Q with (inject_Z 0). rewrite <- Zle_Qle. lia.
Qed.



Lemma nth_error_map_seq {A} (f : nat -> A) n i b :
  nth_error (map f (seq 0 n)) i = Some b -> (i < n)%nat /\ b = f i.
Proof.
  rewrite nth_error_map, nth_error_seq.
  destruct (Nat.ltb i n) eqn:E; simpl; [|discriminate].
  apply Nat.ltb_lt in E. intros H; inversion H. auto.
Qed.



(** X4: on a board built for a numeric width and [R >= 1] rows, the peg in
    column [c] of the last row stands over the place where bins [c] and
    [c + 1] meet: the centre of bin [c] is left of the peg's centre and the
    centre of bin [c + 1] right of it, so a ball passing the peg on its left
    is over bin [c] and one passing on its right over bin [c + 1].  The bin
    tops lie below the lowest point of that peg by the space
    [30 * scaleFactor] the layout keeps under the pegs. *)
Theorem last_row_pegs_between_bin_centres env s R vw :
  numRowsInput_value env = Some R ->
  innerWidth env = Some vw ->
  1 <= R ->
  let s1 := resizeCanvas env s in
  let s3 := initBins env (initPegs s1) in
  forall c peg,
    nth_error (pegRow s1 (Z.to_nat (R - 1))) c = Some peg ->
    exists bl br xp yp rp xl xr w yr sf,
      nth_error (bins s3) c = Some bl
      /\ nth_error (bins s3) (S c) = Some br
      /\ peg_x peg = Some xp /\ peg_y peg = Some yp
      /\ peg_radius peg = Some rp
      /\ bin_x bl = Some xl /\ width bl = Some w
      /\ bin_x br = Some xr /\ width br = Some w
      /\ bin_y br = Some yr /\ bin_y bl = Some yr
      /\ scaleFactor (layout s3) = Some sf
      /\ (xl + w * (1 # 2) < xp)%Q /\ (xp < xr + w * (1 # 2))%Q
      /\ (xl < xp)%Q /\ (xp < xr + w)%Q
      /\ (yr == yp + rp + 30 * sf)%Q.
Proof.
  intros HR HW Hrows s1 s3 c peg Hpeg.
  destruct (resizeCanvas_numeric env s R vw HR HW ltac:(lia))
    as (p & sf & fw & Hl & Hw & _ & Hn & Hp1 & _ & _ & _).
  fold s1 in Hl, Hw, Hn.
  rewrite (pegRow_numeric s1 _ p sf fw Hl Hw) in Hpeg.
  apply nth_error_map_seq in Hpeg. destruct Hpeg as [Hc ->].
  assert (Hb : bins s3
               = map (fun i =>
                        mkBin (Some ((fw - inject_Z (R + 1) * p) / 2
                                     + inject_Z (Z.of_nat i) * p)%Q)
                              (Some (30 * sf + (inject_Z R - 1) * (30 * sf)
                                     + 6 * sf + 30 * sf)%Q)
                              (Some p) (Some (60 * sf)%Q) 0
                              (capacity_or_default
                                 (binCapacityInput_value env)))
                     (seq 0 (Z.to_nat (R + 1)))).
  { subst s3. apply initBins_numeric; assumption. }
  assert (Hlay : scaleFactor (layout s3) = Some sf).
  { subst s3. unfold initBins, initPegs. cbn [layout set_bins set_pegs].
    rewrite Hl. reflexivity. }
  rewrite Hb.
  assert (Hnth : forall i, (i < Z.to_nat (R + 1))%nat ->
            forall f : nat -> Bin,
              nth_error (map f (seq 0 (Z.to_nat (R + 1)))) i = Some (f i)).
  { intros i Hi f. rewrite nth_error_map, nth_error_seq.
    apply Nat.ltb_lt in Hi. rewrite Hi. reflexivity. }
  do 10 eexists.
  split; [apply Hnth; lia|]. split; [apply Hnth; lia|].
  cbn [peg_x peg_y peg_radius bin_x bin_y width].
  do 9 (split; [reflexivity|]). split; [exact Hlay|].
  assert (HS : (inject_Z (Z.of_nat (S (Z.to_nat (R - 1)))) == inject_Z R)%Q).
  { replace (Z.of_nat (S (Z.to_nat (R - 1)))) with R by lia. reflexivity. }
  assert (HR1 : (inject_Z (R + 1) == inject_Z R + 1)%Q)
    by (rewrite inject_Z_plus; reflexivity).
  assert (HR0 : (inject_Z (Z.of_nat (Z.to_nat (R - 1))) == inject_Z R - 1)%Q).
  { rewrite Z2Nat.id by lia. unfold Z.sub. rewrite inject_Z_plus.
    reflexivity. }
  assert (HSc : (inject_Z (Z.of_nat (S c)) == inject_Z (Z.of_nat c) + 1)%Q).
  { rewrite Nat2Z.inj_succ. unfold Z.succ. rewrite inject_Z_plus.
    reflexivity. }
  rewrite HS, HR1, HR0, HSc.
  set (q := inject_Z (Z.of_nat c)). set (r := inject_Z R).
  assert (Hxp : ((fw - (r - 1) * p) / 2 + q * p
                 == (fw - (r + 1) * p) / 2 + q * p + p)%Q) by field.
  assert (Hxr : ((fw - (r + 1) * p) / 2 + (q + 1) * p
                 == (fw - (r + 1) * p) / 2 + q * p + p)%Q) by field.
  split; [rewrite Hxp; lra|]. split; [rewrite Hxp, Hxr; lra|].
  split; [rewrite Hxp; lra|]. split; [rewrite Hxp, Hxr; lra|].
  ring.
Qed.

Lemma last_row_pegs_between_bin_centres_witness :
  let s1 := resizeCanvas demo_env demo_page in
  let s3 := initBins demo_env (initPegs s1) in
  exists peg bl br xp yp rp xl xr w yr sf,
    nth_error (pegRow s1 (Z.to_nat (1 - 1))) 0 = Some peg
    /\ nth_error (bins s3) 0 = Some bl
    /\ nth_error (bins s3) 1 = Some br
    /\ peg_x peg = Some xp /\ peg_y peg = Some yp
    /\ peg_radius peg = Some rp
    /\ bin_x bl = Some xl /\ width bl = Some w
    /\ bin_x br = Some xr /\ width br = Some w
    /\ bin_y br = Some yr /\ bin_y bl = Some yr
    /\ scaleFactor (layout s3) = Some sf
    /\ (xl + w * (1 # 2) < xp)%Q /\ (xp < xr + w * (1 # 2))%Q
    /\ (xl < xp)%Q /\ (xp < xr + w)%Q
    /\ (yr == yp + rp + 30 * sf)%Q.
Proof.
  intros s1 s3.
  assert (Hrows : 1 <= 1) by lia.
  assert (Hpeg : exists peg,
             nth_error (pegRow s1 (Z.to_nat (1 - 1))) 0 = Some peg)
    by (vm_compute; eexists; reflexivity).
  destruct Hpeg as [peg Hpeg].
  destruct (last_row_pegs_between_bin_centres demo_env demo_page 1 1000
              eq_refl eq_refl Hrows 0%nat peg Hpeg)
    as (bl & br & xp & yp & rp & xl & xr & w & yr & sf & H).
  exists peg, bl, br, xp, yp, rp, xl, xr, w, yr, sf.
  split; [exact Hpeg | exact H].
Defined.

(* ------------------------------------------------------------------------- *)
(** * Further properties of the ball factory and the physics *)

(** X5: on a board built for a numeric width and [R >= 0] rows, with a
    random draw [u] in [0,1), [createBall] makes a falling ball at the
    horizontal centre of the canvas (the first peg when there is one, the
    fallback [width / 2] otherwise: the same place), with its centre on the
    top edge ([y = 0]), radius [5 * scaleFactor], no vertical velocity and a
    horizontal velocity in [-1/4, 1/4); it consumes one random number and
    writes nothing else. *)
Theorem createBall_on_board env s R vw :
  numRowsInput_value env = Some R ->
  innerWidth env = Some vw ->
  0 <= R ->
  let s3 := initBins env (initPegs (resizeCanvas env s)) in
  (0 <= randoms (host s3) (randIdx (host s3)) < 1)%Q ->
  let ball := fst (createBall s3) in
  exists xq yq v fw sf,
    canvas_width s3 = Some fw /\ scaleFactor (layout s3) = Some sf
    /\ x ball = Some xq /\ (xq == fw / 2)%Q
    /\ y ball = Some yq /\ (yq == 0)%Q
    /\ vx ball = Some v /\ (- (1 # 4) <= v)%Q /\ (v < 1 # 4)%Q
    /\ vy ball = Some 0%Q
    /\ radius ball = Some (5 * sf)%Q
    /\ landed ball = false /\ isSettling ball = false
    /\ snd (createBall s3)
       = upd (bins s3) (ballsBeingDropped s3) (S (randIdx (host s3))) s3.
Proof.
  intros HR HW Hrows s3 Hu ball.
  destruct (resizeCanvas_numeric env s R vw HR HW ltac:(lia))
    as (p & sf & fw & Hl & Hw & _ & Hn & _ & _ & _ & _).
  assert (Hl3 : layout s3 = layout (resizeCanvas env s)) by reflexivity.
  assert (Hw3 : canvas_width s3 = canvas_width (resizeCanvas env s))
    by reflexivity.
  assert (Hh3 : host s3 = host (resizeCanvas env s)) by reflexivity.
  assert (Hp3 : pegs s3
                = flat_map (pegRow (resizeCanvas env s))
                           (seq 0 (Z.to_nat R))).
  { subst s3. unfold initBins, initPegs. cbn [pegs set_bins set_pegs].
    rewrite Hn. reflexivity. }
  assert (Hx : exists xq, x ball = Some xq /\ (xq == fw / 2)%Q).
  { subst ball. unfold createBall. cbn [fst Math_random x].
    rewrite Hp3, Hw3, Hw.
    destruct (Z.to_nat R) as [|n].
    - cbn. eexists. split; [reflexivity|]. reflexivity.
    - cbn [seq flat_map].
      rewrite (pegRow_numeric _ 0%nat p sf fw Hl Hw).
      cbn [map seq app peg_x]. eexists. split; [reflexivity|].
      change (inject_Z (Z.of_nat 1)) with 1%Q.
      change (inject_Z (Z.of_nat 0)) with 0%Q. field. }
  destruct Hx as (xq & Hxq & Hxc).
  exists xq. do 2 eexists. exists fw, sf.
  rewrite Hw3, Hl3, Hl, Hw. cbn [scaleFactor].
  split; [reflexivity|]. split; [reflexivity|].
  split; [exact Hxq|]. split; [exact Hxc|].
  subst ball. unfold createBall.
  cbn [fst snd Math_random y vx vy radius landed isSettling].
  rewrite Hl3, Hl. cbn [currentStartYOffset currentPegSpacingY
                          currentBallRadius].
  cbn [sub mul lift2 lit].
  split; [reflexivity|]. split; [ring|].
  split; [reflexivity|].
  split; [lra|]. split; [lra|].
  repeat split; reflexivity.
Qed.

Lemma createBall_on_board_witness :
  let s3 := initBins demo_env (initPegs (resizeCanvas demo_env demo_page)) in
  let ball := fst (createBall s3) in
  exists xq yq v fw sf,
    canvas_width s3 = Some fw /\ scaleFactor (layout s3) = Some sf
    /\ x ball = Some xq /\ (xq == fw / 2)%Q
    /\ y ball = Some yq /\ (yq == 0)%Q
    /\ vx ball = Some v /\ (- (1 # 4) <= v)%Q /\ (v < 1 # 4)%Q
    /\ vy ball = Some 0%Q
    /\ radius ball = Some (5 * sf)%Q
    /\ landed ball = false /\ isSettling ball = false
    /\ snd (createBall s3)
       = upd (bins s3) (ballsBeingDropped s3) (S (randIdx (host s3))) s3.
Proof.
  apply (createBall_on_board demo_env demo_page 1 1000 eq_refl eq_refl).
  - vm_compute. discriminate.
  - split; [vm_compute; discriminate | vm_compute; reflexivity].
Defined.

(** X6: when positions, ball radius [r] and canvas width [W] are numbers and
    the canvas is at least a ball wide ([2 r <= W]), the wall step leaves the
    ball's centre between [r] and [W - r] horizontally and at least [r] below
    the top edge.  A ball that was inside the side walls keeps its [x] and
    [vx]; one that was outside has its horizontal velocity reversed and
    halved. *)
Theorem wall_step_keeps_ball_inside ball s bx by_ v r W :
  x ball = Some bx -> y ball = Some by_ -> vx ball = Some v ->
  currentBallRadius (layout s) = Some r ->
  canvas_width s = Some W ->
  (2 * r <= W)%Q ->
  let b' := fst (handleBallWallCollisions ball s) in
  exists x' y',
    x b' = Some x' /\ y b' = Some y'
    /\ (r <= x')%Q /\ (x' <= W - r)%Q /\ (r <= y')%Q
    /\ ((r <= bx)%Q -> (bx <= W - r)%Q -> x' = bx /\ vx b' = Some v)
    /\ ((bx < r)%Q \/ (W - r < bx)%Q -> vx b' = Some (v * - (1 # 2))%Q)
    /\ ((r <= by_)%Q -> y' = by_ /\ vy b' = vy ball).
Proof.
  intros Hx Hy Hv Hr HW Hfit b'. subst b'.
  destruct ball as [x0 y0 r0 c0 vx0 vy0 l0 st0]. cbn in Hx, Hy, Hv. subst.
  unfold handleBallWallCollisions. rewrite Hr, HW. qcbn.
  repeat break_if;
    cbn -[Qplus Qmult Qminus Qdiv Qeq_bool Qltb Qle_bool Qinv Qopp Qabs
          inject_Z] in *;
    do 2 eexists; (split; [reflexivity|]); (split; [reflexivity|]);
    repeat match goal with
           | H : _ || _ = true |- _ => apply orb_prop in H
           | H : _ || _ = false |- _ => apply orb_false_elim in H; destruct H
           | H : Qltb _ _ = true |- _ => apply Qltb_lt in H
           | H : Qltb _ _ = false |- _ => apply Qltb_ge in H
           end;
    repeat split; intros;
    repeat match goal with
           | H : _ \/ _ |- _ => destruct H
           | H : Qltb _ _ = true |- _ => apply Qltb_lt in H
           | H : Qltb _ _ = false |- _ => apply Qltb_ge in H
           end;
    try lra; try reflexivity; exfalso; lra.
Qed.

Lemma wall_step_keeps_ball_inside_witness :
  let b' := fst (handleBallWallCollisions stray_ball demo_run) in
  exists x' y',
    x b' = Some x' /\ y b' = Some y'
    /\ (90000 # 18000 <= x')%Q /\ (x' <= (1800 # 10) - (90000 # 18000))%Q
    /\ vx b' = Some (0 * - (1 # 2))%Q.
Proof.
  assert (Hr : currentBallRadius (layout demo_run) = Some (90000 # 18000))
    by (vm_compute; reflexivity).
  assert (HW : canvas_width demo_run = Some (1800 # 10))
    by (vm_compute; reflexivity).
  assert (Hfit : (2 * (90000 # 18000) <= 1800 # 10)%Q)
    by (vm_compute; discriminate).
  destruct (wall_step_keeps_ball_inside stray_ball demo_run 200 165 0
              (90000 # 18000) (1800 # 10) eq_refl eq_refl eq_refl Hr HW Hfit)
    as (x' & y' & Hx & Hy & H1 & H2 & _ & _ & Hout & _).
  exists x', y'.
  split; [exact Hx|]. split; [exact Hy|]. split; [exact H1|].
  split; [exact H2|].
  apply Hout. right. vm_compute. reflexivity.
Defined.

Lemma forEachPeg_frame ps : forall b s,
  x (fst (forEachPeg ps b s)) = x b
  /\ radius (fst (forEachPeg ps b s)) = radius b
  /\ landed (fst (forEachPeg ps b s)) = landed b
  /\ isSettling (fst (forEachPeg ps b s)) = isSettling b
  /\ exists k,
       snd (forEachPeg ps b s) = upd (bins s) (ballsBeingDropped s) k s
       /\ (randIdx (host s) <= k <= randIdx (host s) + length ps)%nat.
Proof.
  induction ps as [|peg rest IH]; intros b s.
  - simpl. repeat split. exists (randIdx (host s)).
    split; [symmetry; apply upd_id | simpl; lia].
  - simpl.
    destruct (pegCollision peg b s) as [b1 s1] eqn:E.
    assert (H1 : x b1 = x b /\ radius b1 = radius b
                 /\ landed b1 = landed b /\ isSettling b1 = isSettling b
                 /\ exists k,
                      s1 = upd (bins s) (ballsBeingDropped s) k s
                      /\ (randIdx (host s) <= k <= S (randIdx (host s)))%nat).
    { revert E. unfold pegCollision. destruct (pegHit b peg s).
      - cbn -[upd]. repeat break_if; intros H; inversion H; subst; clear H;
          cbn -[upd]; repeat split;
          (eexists; split; [reflexivity | cbn; lia]).
      - intros H; inversion H; subst. repeat split.
        exists (randIdx (host s1)).
        split; [symmetry; apply upd_id | lia]. }
    destruct H1 as (A1 & A2 & A3 & A4 & k1 & A5 & A6).
    destruct (IH b1 s1) as (B1 & B2 & B3 & B4 & k2 & B5 & B6).
    subst s1. cbn in B5, B6.
    repeat split; try congruence.
    exists k2. split; [exact B5 | simpl; lia].
Qed.

(** X7: the peg step never moves a ball horizontally and never changes its
    radius or its lifecycle flags; of the state it only advances the stream
    of random draws, by at most one draw per peg, leaving bins and the
    active-ball counter alone. *)
Theorem pegs_only_deflect ball s :
  let b' := fst (handleBallPegCollisions ball s) in
  let s' := snd (handleBallPegCollisions ball s) in
  x b' = x ball /\ radius b' = radius ball
  /\ landed b' = landed ball /\ isSettling b' = isSettling ball
  /\ bins s' = bins s /\ ballsBeingDropped s' = ballsBeingDropped s
  /\ (randIdx (host s) <= randIdx (host s')
      <= randIdx (host s) + length (pegs s))%nat
  /\ s' = with_randIdx (randIdx (host s')) s.
Proof.
  intros b' s'. subst b' s'. unfold handleBallPegCollisions.
  destruct (forEachPeg_frame (pegs s) ball s)
    as (H1 & H2 & H3 & H4 & k & H5 & H6).
  rewrite H5.
  change (randIdx (host (upd (bins s) (ballsBeingDropped s) k s))) with k.
  change (bins (upd (bins s) (ballsBeingDropped s) k s)) with (bins s).
  change (ballsBeingDropped (upd (bins s) (ballsBeingDropped s) k s))
    with (ballsBeingDropped s).
  repeat split; try assumption; try lia.
Qed.

Lemma binLoop_first_match bs : forall ball s,
  match binLoop bs ball s with
  | None => Forall (fun b => binReached ball s b = false) bs
  | Some (bs', ball', s') =>
      exists pre bin post,
        bs = pre ++ bin :: post
        /\ Forall (fun b => binReached ball s b = false) pre
        /\ binReached ball s bin = true
        /\ bs' = pre ++ fst (fst (binArrival bin ball s)) :: post
        /\ ball' = snd (fst (binArrival bin ball s))
        /\ s' = snd (binArrival bin ball s)
  end.
Proof.
  induction bs as [|bin rest IH]; intros ball s; [constructor|].
  cbn [binLoop]. fold (binReached ball s bin).
  destruct (binReached ball s bin) eqn:E.
  - destruct (binArrival bin ball s) as [[bin1 ball1] s1] eqn:Ea.
    exists [], bin, rest. rewrite Ea. repeat split; auto.
  - specialize (IH ball s).
    destruct (binLoop rest ball s) as [[[rest1 ball1] s1]|].
    + destruct IH as (pre & b & post & -> & Hpre & Hb & -> & -> & ->).
      exists (bin :: pre), b, post. repeat split; auto.
    + constructor; assumption.
Qed.

(** X8: a falling ball that interacts with the bins interacts with exactly
    one, the leftmost bin it overlaps horizontally with its bottom at or below
    the bin's top.  If that bin has room, its count goes up by one, the
    active-ball counter down by one, and the ball is marked settling, stopped
    and put at the bin's horizontal centre, [radius + 1] above the bin floor.
    If the bin is full, no bin changes and the ball stays falling, is put
    just above the bin and has its vertical velocity multiplied by
    [-BOUNCE_FACTOR * 0.5]. *)
Theorem bin_step_hits_leftmost_bin ball s :
  is_falling ball = true ->
  let b' := fst (handleBallBinInteractions ball s) in
  let s' := snd (handleBallBinInteractions ball s) in
  let r := currentBallRadius (layout s) in
  (b' = ball /\ s' = s)
  \/ exists pre bin post,
       bins s = pre ++ bin :: post
       /\ Forall (fun b => binReached ball s b = false) pre
       /\ binReached ball s bin = true
       /\ ((count bin < maxCapacity bin
            /\ bins s' = pre ++ set_count (count bin + 1) bin :: post
            /\ ballsBeingDropped s' = ballsBeingDropped s - 1
            /\ isSettling b' = true /\ landed b' = false
            /\ x b' = (bin_x bin + width bin / lit 2)%num
            /\ y b' = (bin_y bin + height bin - r - lit 1)%num
            /\ vx b' = lit 0 /\ vy b' = lit 0)
           \/ (maxCapacity bin <= count bin
               /\ bins s' = bins s
               /\ ballsBeingDropped s' = ballsBeingDropped s
               /\ isSettling b' = false /\ landed b' = false
               /\ x b' = x ball
               /\ y b' = (bin_y bin - r - lit (1 # 10))%num
               /\ vy b' = (vy ball * (neg BOUNCE_FACTOR * lit (1 # 2)))%num)).
Proof.
  intros Hf b' s' r. subst b' s' r.
  unfold is_falling in Hf. apply andb_prop in Hf. destruct Hf as [Hs Hl].
  apply negb_true_iff in Hs. apply negb_true_iff in Hl.
  unfold handleBallBinInteractions.
  destruct (bins s) as [|bin0 rest] eqn:Hb; [left; auto|].
  rewrite Hs, Hl. cbn [orb].
  break_if; [|left; auto].
  pose proof (binLoop_first_match (bin0 :: rest) ball s) as Hm.
  destruct (binLoop (bin0 :: rest) ball s) as [[[bs1 b1] s1]|];
    [|left; auto].
  destruct Hm as (pre & bin & post & Hsplit & Hpre & Hreach & -> & -> & ->).
  right. exists pre, bin, post.
  split; [exact Hsplit|]. split; [exact Hpre|]. split; [exact Hreach|].
  unfold binArrival.
  destruct (count bin <? maxCapacity bin) eqn:Hc.
  - apply Z.ltb_lt in Hc. left. cbn. rewrite ?Hs, ?Hl.
    repeat split; auto.
  - apply Z.ltb_ge in Hc. right.
    break_if; cbn; rewrite ?Hs, ?Hl, ?Hb, ?Hsplit; repeat split; auto.
Qed.

Lemma bin_step_hits_leftmost_bin_witness :
  isSettling (fst (handleBallBinInteractions arriving_ball demo_run)) = true
  /\ map count (bins (snd (handleBallBinInteractions arriving_ball demo_run)))
     = [1; 0].
Proof.
  destruct (bin_step_hits_leftmost_bin arriving_ball demo_run eq_refl)
    as [[Hb _] | (pre & bin & post & _ & _ & _
                  & [(_ & _ & _ & Hs & _) | (_ & _ & _ & Hs & _)])].
  - apply (f_equal isSettling) in Hb. vm_compute in Hb. discriminate Hb.
  - split; [exact Hs | vm_compute; reflexivity].
  - vm_compute in Hs. discriminate Hs.
Defined.

(* ------------------------------------------------------------------------- *)
(** * Further properties of the driver *)

Lemma same_bin_refl b : same_bin b b.
Proof. unfold same_bin. auto. Qed.

Lemma same_bins_refl bs : Forall2 same_bin bs bs.
Proof. induction bs; constructor; auto using same_bin_refl. Qed.

Lemma same_bins_trans a b c :
  Forall2 same_bin a b -> Forall2 same_bin b c -> Forall2 same_bin a c.
Proof.
  intros H; revert c; induction H as [|x y l l' Hxy _ IH]; intros c Hc;
    inversion Hc; subst; constructor; [|apply IH; assumption].
  unfold same_bin in *. intuition congruence.
Qed.

Lemma binArrival_same_bin bin ball s :
  same_bin bin (fst (fst (binArrival bin ball s))).
Proof.
  unfold binArrival. repeat break_if; cbn; unfold same_bin; cbn; auto.
Qed.

Lemma handleBallBinInteractions_same_bins ball s :
  Forall2 same_bin (bins s) (bins (snd (handleBallBinInteractions ball s))).
Proof.
  unfold handleBallBinInteractions.
  destruct (bins s) as [|bin0 rest] eqn:Hb;
    [cbn; rewrite Hb; constructor|].
  repeat break_if; cbn [snd]; try (rewrite Hb; apply same_bins_refl).
  pose proof (binLoop_first_match (bin0 :: rest) ball s) as Hm.
  destruct (binLoop (bin0 :: rest) ball s) as [[[bs1 b1] s1]|];
    [|cbn; rewrite Hb; apply same_bins_refl].
  destruct Hm as (pre & bin & post & -> & _ & _ & -> & _ & _).
  cbn. apply Forall2_app; [apply same_bins_refl|].
  constructor; [apply binArrival_same_bin | apply same_bins_refl].
Qed.

Lemma updateBall_same_bins ball s :
  Forall2 same_bin (bins s) (bins (snd (updateBall ball s))).
Proof.
  unfold updateBall.
  destruct (landed ball); [apply same_bins_refl|].
  destruct (isSettling ball); [apply same_bins_refl|].
  destruct (handleBallWallCollisions (applyBallPhysics ball s) s)
    as [b1 s1] eqn:Ew.
  pose proof (wall_spec _ _ _ _ Ew) as (_ & Hw).
  assert (Hb1 : bins s1 = bins s)
    by (destruct Hw as [[_ ->] | (_ & _ & ->)]; reflexivity).
  destruct (landed b1); [cbn; rewrite Hb1; apply same_bins_refl|].
  destruct (handleBallPegCollisions b1 s1) as [b2 s2] eqn:Ep.
  pose proof (forEachPeg_spec _ _ _ _ _ Ep) as (_ & _ & k & Hp).
  assert (Hb2 : bins s2 = bins s) by (rewrite Hp; exact Hb1).
  rewrite <- Hb2. apply handleBallBinInteractions_same_bins.
Qed.

Lemma forEachBall_same_bins bs : forall s,
  Forall2 same_bin (bins s) (bins (snd (forEachBall bs s)))
  /\ length (fst (forEachBall bs s)) = length bs.
Proof.
  induction bs as [|b rest IH]; intros s; [split; [apply same_bins_refl|auto]|].
  simpl. pose proof (updateBall_same_bins b s) as Hb.
  destruct (updateBall b s) as [b1 s1].
  destruct (IH s1) as [Hr Hlen].
  destruct (forEachBall rest s1) as [rest1 s2]. cbn in *.
  split; [eapply same_bins_trans; eassumption | congruence].
Qed.

Lemma updateBalls_frame s :
  let s' := updateBalls s in
  NUM_ROWS s' = NUM_ROWS s /\ layout s' = layout s
  /\ canvas_width s' = canvas_width s /\ canvas_height s' = canvas_height s
  /\ pegs s' = pegs s
  /\ animationFrameId s' = animationFrameId s
  /\ dropIntervalId s' = dropIntervalId s
  /\ ballsToDropTotal s' = ballsToDropTotal s
  /\ controls s' = controls s
  /\ frames (host s') = frames (host s)
  /\ intervals (host s') = intervals (host s)
  /\ nextHandle (host s') = nextHandle (host s)
  /\ length (balls s') = length (balls s)
  /\ Forall2 same_bin (bins s) (bins s').
Proof.
  intros s'. subst s'.
  destruct (updateBalls_spec s) as ((k & U0) & _).
  assert (Hb : Forall2 same_bin (bins s) (bins (updateBalls s))
               /\ length (balls (updateBalls s)) = length (balls s)).
  { unfold updateBalls. pose proof (forEachBall_same_bins (balls s) s) as H.
    destruct (forEachBall (balls s) s) as [bs' s1]. exact H. }
  destruct Hb as [Hb Hlen].
  rewrite U0 at 1 2 3 4 5 6 7 8 9 10 11 12. cbn.
  repeat split; assumption.
Qed.

(** X9: the physics of one frame never touches the board or the schedule:
    [updateBalls] leaves the row count, layout, canvas size, pegs, both timer
    handles, the requested total, the controls and the host's frame and
    interval tables as they were, keeps the number of balls, and keeps every
    bin's position, size and capacity (only counts may change). *)
Theorem physics_keeps_board s :
  let s' := updateBalls s in
  NUM_ROWS s' = NUM_ROWS s /\ layout s' = layout s
  /\ canvas_width s' = canvas_width s /\ canvas_height s' = canvas_height s
  /\ pegs s' = pegs s
  /\ animationFrameId s' = animationFrameId s
  /\ dropIntervalId s' = dropIntervalId s
  /\ ballsToDropTotal s' = ballsToDropTotal s
  /\ controls s' = controls s
  /\ frames (host s') = frames (host s)
  /\ intervals (host s') = intervals (host s)
  /\ nextHandle (host s') = nextHandle (host s)
  /\ length (balls s') = length (balls s)
  /\ Forall2 same_bin (bins s) (bins s').
Proof. apply updateBalls_frame. Qed.

Lemma forEachBall_resting bs : forall s,
  Forall (fun b => is_falling b = false) bs ->
  forEachBall bs s
  = (map (fun b => if landed b then b else set_landed true b) bs, s).
Proof.
  induction bs as [|b rest IH]; intros s Hall; [reflexivity|].
  inversion Hall as [|? ? Hb Hrest]; subst.
  cbn [forEachBall map]. unfold updateBall.
  unfold is_falling in Hb.
  destruct (landed b) eqn:Hl.
  - rewrite (IH s Hrest). reflexivity.
  - destruct (isSettling b) eqn:Hs; [|discriminate Hb].
    rewrite (IH s Hrest). reflexivity.
Qed.

(** X10: balls that are no longer falling are inert.  When no ball is
    falling, a frame's physics only marks the settling balls landed, without
    moving any ball or touching bins, counter or random stream; when every
    ball has landed it changes nothing at all. *)
Theorem resting_balls_are_inert s :
  Forall (fun b => is_falling b = false) (balls s) ->
  updateBalls s
  = set_balls (map (fun b => if landed b then b else set_landed true b)
                   (balls s)) s
  /\ (Forall (fun b => landed b = true) (balls s) -> updateBalls s = s).
Proof.
  intros Hall. unfold updateBalls.
  rewrite (forEachBall_resting (balls s) s Hall). split; [reflexivity|].
  intros Hl.
  assert (Hmap : map (fun b => if landed b then b else set_landed true b)
                     (balls s) = balls s).
  { induction (balls s) as [|b l IH]; [reflexivity|].
    inversion Hl; subst. inversion Hall; subst. cbn [map].
    rewrite IH by assumption.
    match goal with H : landed b = true |- _ => rewrite H end. reflexivity. }
  rewrite Hmap. destruct s. reflexivity.
Qed.

Lemma resting_balls_are_inert_witness : updateBalls demo_done = demo_done.
Proof.
  assert (H : Forall (fun b => is_falling b = false) (balls demo_done)).
  { vm_compute. repeat constructor. }
  apply (resting_balls_are_inert demo_done H).
  vm_compute. repeat constructor.
Defined.

(** ** Handles and host tables *)

Lemma tryDropBall_mirror n s :
  mirror_intervals s ->
  mirror_intervals (tryDropBall n s)
  /\ frames (host (tryDropBall n s)) = frames (host s)
  /\ animationFrameId (tryDropBall n s) = animationFrameId s.
Proof.
  unfold mirror_intervals, tryDropBall, lookup_counter. intros Hm.
  destruct (dropIntervalId s) as [| |m] eqn:Hd; rewrite Hm; cbn [find];
    try (cbn; rewrite Hd; auto; fail).
  cbn [fst]. destruct (Pos.eqb m n) eqn:E.
  - apply Pos.eqb_eq in E. subst m. cbn [option_map snd].
    break_if.
    + unfold createBall, Math_random, set_intervals, store_counter.
      cbn. rewrite ?Hm, ?Hd. cbn. rewrite ?Pos.eqb_refl.
      rewrite length_app. cbn [length].
      repeat split. do 2 f_equal. lia.
    + cbn. rewrite ?Hm, ?Hd. cbn. rewrite ?Pos.eqb_refl. auto.
  - cbn. rewrite ?Hd. auto.
Qed.

Lemma stopSimulation_mirror s :
  mirror_frames s -> mirror_intervals s ->
  mirror_frames (stopSimulation s) /\ mirror_intervals (stopSimulation s)
  /\ frames (host (stopSimulation s)) = []
  /\ intervals (host (stopSimulation s)) = [].
Proof.
  unfold mirror_frames, mirror_intervals. intros Hf Hi.
  rewrite stopSimulation_shape. cbn. rewrite Hf, Hi.
  destruct (animationFrameId s) as [| |a], (dropIntervalId s) as [| |d];
    cbn; rewrite ?Pos.eqb_refl; cbn; auto.
Qed.

Lemma gameLoop_mirror s :
  frames (host s) = [] -> mirror_intervals s ->
  mirror_frames (gameLoop s) /\ mirror_intervals (gameLoop s).
Proof.
  intros Hf Hi.
  destruct (updateBalls_frame s)
    as (_ & _ & _ & _ & _ & Ha & Hd & _ & _ & Hfr & Hiv & _ & Hlen & _).
  assert (Hi1 : mirror_intervals (updateBalls s)).
  { unfold mirror_intervals in *. rewrite Hiv, Hd, Hlen. exact Hi. }
  assert (Hf1 : frames (host (updateBalls s)) = []) by congruence.
  unfold gameLoop. break_if.
  - unfold requestAnimationFrame, mirror_frames, mirror_intervals in *.
    cbn. rewrite Hf1. auto.
  - unfold mirror_frames, mirror_intervals in *.
    rewrite stopSimulation_shape. cbn. rewrite Hf1, Hi1.
    destruct (animationFrameId (updateBalls s)),
      (dropIntervalId (updateBalls s));
      cbn; rewrite ?Pos.eqb_refl; cbn; auto.
Qed.

Lemma resetSimulation_mirror env s :
  mirror_frames s -> mirror_intervals s ->
  mirror_frames (resetSimulation env s)
  /\ mirror_intervals (resetSimulation env s).
Proof.
  intros Hf Hi.
  destruct (stopSimulation_mirror s Hf Hi) as (_ & _ & Hf' & Hi').
  rewrite resetSimulation_shape. unfold mirror_frames, mirror_intervals.
  cbn -[stopSimulation rebuild]. rewrite Hf', Hi'.
  rewrite stopSimulation_shape. cbn.
  destruct (dropIntervalId s); auto.
Qed.

Lemma startSimulation_mirror env s :
  Inv s -> mirror_frames s -> mirror_intervals s ->
  mirror_frames (snd (startSimulation env s))
  /\ mirror_intervals (snd (startSimulation env s)).
Proof.
  intros HI Hf Hi.
  destruct (truthy (animationFrameId s)) eqn:Hrun.
  { unfold startSimulation. rewrite Hrun. auto. }
  destruct (validateInputs_cases (numRowsInput_value env)
              (numBallsInput_value env) (binCapacityInput_value env))
    as [(Hv & _) | (msg & Hv & _)].
  - rewrite (startSimulation_accepted env s Hrun Hv). cbn [snd].
    destruct (Inv_idle_quiet s HI Hrun) as [Hf0 Hi0].
    assert (Hm : mirror_intervals (start_setup env s)).
    { unfold mirror_intervals, start_setup. cbn. rewrite Hi0. reflexivity. }
    destruct (tryDropBall_mirror (nextHandle (host s)) _ Hm)
      as (Hm' & Hf' & _).
    apply gameLoop_mirror; [|exact Hm'].
    rewrite Hf'. exact Hf0.
  - rewrite (startSimulation_rejected env s msg Hrun Hv). cbn [snd].
    auto.
Qed.

Lemma step_mirror ev s :
  Inv s -> mirror_frames s -> mirror_intervals s ->
  mirror_frames (step ev s) /\ mirror_intervals (step ev s).
Proof.
  intros HI Hf Hi. destruct ev as [env|env|env|env|env|n|n]; cbn [step].
  - apply startSimulation_mirror; assumption.
  - apply resetSimulation_mirror; assumption.
  - cbn [animationFrameId set_NUM_ROWS]. break_if.
    + apply (resetSimulation_mirror env (set_NUM_ROWS _ s)); assumption.
    + auto.
  - break_if; [apply resetSimulation_mirror; assumption | auto].
  - break_if; [apply resetSimulation_mirror; assumption | auto].
  - break_if; [|auto].
    apply gameLoop_mirror; [|exact Hi].
    unfold pending in *. unfold mirror_frames in Hf. cbn.
    rewrite Hf in *. destruct (animationFrameId s) as [| |a];
      cbn in *; try discriminate.
    rewrite orb_false_r in Heqb. rewrite Pos.eqb_sym, Heqb. reflexivity.
  - destruct (tryDropBall_mirror n s Hi) as (Hi' & Hf' & Ha').
    split; [|exact Hi']. unfold mirror_frames. rewrite Hf', Ha'. exact Hf.
Qed.

Lemma reachable_mirror env ctl cw ch rnd evs :
  mirror_frames (run evs (pageLoad env ctl cw ch rnd))
  /\ mirror_intervals (run evs (pageLoad env ctl cw ch rnd)).
Proof.
  assert (H : forall l s, Inv s -> mirror_frames s -> mirror_intervals s ->
                          mirror_frames (run l s) /\ mirror_intervals (run l s)).
  { induction l as [|ev l IH]; intros s HI Hf Hi; [auto|].
    destruct (step_mirror ev s HI Hf Hi) as [Hf' Hi'].
    apply IH; [apply step_Inv; exact HI | exact Hf' | exact Hi']. }
  apply H; [apply pageLoad_Inv| |];
    unfold pageLoad; apply resetSimulation_mirror; reflexivity.
Qed.

(** X11: in every state the page can reach, the frame requests pending at
    the host are exactly the one whose handle is in [animationFrameId] (none
    when it is null or undefined), and the active intervals exactly the one
    whose handle is in [dropIntervalId], its [ballsDroppedThisSession] being
    the number of balls; a live spawn timer implies a live animation loop.
    So there is never more than one animation loop or spawn timer. *)
Theorem handles_mirror_host_tables env ctl cw ch rnd evs :
  let s := run evs (pageLoad env ctl cw ch rnd) in
  frames (host s)
  = match animationFrameId s with h_id n => [n] | _ => [] end
  /\ intervals (host s)
     = match dropIntervalId s with
       | h_id n => [(n, Z.of_nat (length (balls s)))]
       | _ => []
       end
  /\ (truthy (dropIntervalId s) = true ->
      truthy (animationFrameId s) = true)
  /\ (length (frames (host s)) <= 1)%nat
  /\ (length (intervals (host s)) <= 1)%nat.
Proof.
  intros s.
  destruct (reachable_mirror env ctl cw ch rnd evs) as [Hf Hi].
  destruct (reachable_Inv env ctl cw ch rnd evs) as (_ & _ & Hrun).
  fold s in Hf, Hi, Hrun. unfold mirror_frames, mirror_intervals in *.
  split; [exact Hf|]. split; [exact Hi|]. split.
  - intros Hd. apply Hrun. rewrite Hi.
    destruct (dropIntervalId s); discriminate.
  - rewrite Hf, Hi.
    destruct (animationFrameId s), (dropIntervalId s); cbn; lia.
Qed.

(** ** Outcome of a frame *)

Lemma updateBalls_Core s : Core s -> Core (updateBalls s).
Proof.
  intros (C1 & C2 & C3).
  destruct (updateBalls_spec s) as (_ & _ & U1 & U2 & _).
  destruct (updateBalls_frame s)
    as (_ & _ & _ & _ & _ & _ & Hd & _ & _ & _ & Hiv & _ & Hlen & _).
  unfold Core. rewrite Hiv, Hd, Hlen.
  split; [lia|]. split; [lia | exact C3].
Qed.

Lemma Core_test s :
  Core s ->
  (0 <? ballsBeingDropped s)
  || existsb (fun ball => negb (landed ball)) (balls s)
  = existsb (fun ball => negb (landed ball)) (balls s).
Proof.
  intros (C1 & _).
  destruct (0 <? ballsBeingDropped s) eqn:Hpos; [|reflexivity].
  apply Z.ltb_lt in Hpos. rewrite C1 in Hpos. simpl. symmetry.
  clear C1. induction (balls s) as [|b bs IH]; [discriminate|].
  rewrite count_where_cons in Hpos. simpl.
  destruct (landed b) eqn:Hl; simpl; [|reflexivity].
  assert (Hz : ind (is_falling b) = 0)
    by (unfold is_falling; rewrite Hl, andb_false_r; reflexivity).
  apply IH. lia.
Qed.

Lemma gameLoop_outcome s :
  Core s -> frames (host s) = [] ->
  (existsb (fun b => negb (landed b)) (balls (gameLoop s)) = true ->
   animationFrameId (gameLoop s) = h_id (nextHandle (host s))
   /\ frames (host (gameLoop s)) = [nextHandle (host s)]
   /\ intervals (host (gameLoop s)) = intervals (host s)
   /\ dropIntervalId (gameLoop s) = dropIntervalId s
   /\ controls (gameLoop s) = controls s)
  /\ (existsb (fun b => negb (landed b)) (balls (gameLoop s)) = false ->
      animationFrameId (gameLoop s) = h_null
      /\ frames (host (gameLoop s)) = []
      /\ intervals (host (gameLoop s)) = []
      /\ truthy (dropIntervalId (gameLoop s)) = false
      /\ controls (gameLoop s) = enable_inputs (controls s)).
Proof.
  intros HC Hfr.
  pose proof (updateBalls_Core s HC) as HC1.
  pose proof (Core_test _ HC1) as Ht.
  pose proof (Core_intervals_cleared _ HC1) as Hclr.
  destruct (gameLoop_keeps s) as (_ & Hb & _).
  destruct (updateBalls_frame s)
    as (_ & _ & _ & _ & _ & Ha & Hd & _ & Hc & Hf & Hiv & Hn & _ & _).
  rewrite Hb. unfold gameLoop. rewrite Ht.
  destruct (existsb _ (balls (updateBalls s))) eqn:E.
  - split; [intros _|discriminate].
    unfold requestAnimationFrame. cbn. rewrite Hn, Hf, Hfr, Hiv, Hd, Hc.
    auto.
  - split; [discriminate|intros _].
    rewrite stopSimulation_shape. cbn. rewrite Hclr, Hf, Hfr, Hc.
    repeat split.
    + destruct (animationFrameId (updateBalls s)); reflexivity.
    + destruct (dropIntervalId (updateBalls s)); reflexivity.
Qed.

(** X12: when a pending frame fires in a state the page can reach, the loop
    goes on exactly if some ball is still not landed after the physics: then
    one new frame request is pending, its handle kept in
    [animationFrameId], and the spawn timer and the controls are untouched.
    Otherwise the run ends at once: no frame request and no spawn timer
    remain (even if fewer balls than requested were spawned), both handles
    are cleared and the start button and the three inputs are enabled. *)
Theorem frame_continues_while_a_ball_is_in_play env ctl cw ch rnd evs n :
  let s := run evs (pageLoad env ctl cw ch rnd) in
  pending n (frames (host s)) = true ->
  let s' := step (ev_frame n) s in
  (existsb (fun b => negb (landed b)) (balls s') = true ->
   animationFrameId s' = h_id (nextHandle (host s))
   /\ frames (host s') = [nextHandle (host s)]
   /\ intervals (host s') = intervals (host s)
   /\ dropIntervalId s' = dropIntervalId s
   /\ controls s' = controls s)
  /\ (existsb (fun b => negb (landed b)) (balls s') = false ->
      animationFrameId s' = h_null
      /\ frames (host s') = []
      /\ intervals (host s') = []
      /\ truthy (dropIntervalId s') = false
      /\ controls s' = enable_inputs (controls s)).
Proof.
  intros s Hp s'. subst s'. cbn [step]. rewrite Hp.
  pose proof (reachable_Inv env ctl cw ch rnd evs) as HI. fold s in HI.
  destruct (reachable_mirror env ctl cw ch rnd evs) as [Hf _].
  fold s in Hf. unfold mirror_frames in Hf.
  assert (Hfr : frames (host (cancelAnimationFrame (h_id n) s)) = []).
  { cbn. unfold pending in Hp. rewrite Hf in *.
    destruct (animationFrameId s) as [| |a]; cbn in *; try discriminate.
    rewrite orb_false_r in Hp. rewrite Pos.eqb_sym, Hp. reflexivity. }
  apply (gameLoop_outcome (cancelAnimationFrame (h_id n) s));
    [exact (proj1 HI) | exact Hfr].
Qed.

Lemma frame_continues_while_a_ball_is_in_play_witness :
  let s := run [ev_click_start demo_env] demo_page in
  let s' := step (ev_frame 2) s in
  animationFrameId s' = h_id (nextHandle (host s))
  /\ frames (host s') = [nextHandle (host s)].
Proof.
  intros s s'.
  assert (Hp : pending 2 (frames (host s)) = true)
    by (vm_compute; reflexivity).
  assert (He : existsb (fun b => negb (landed b)) (balls s') = true)
    by (vm_compute; reflexivity).
  destruct (frame_continues_while_a_ball_is_in_play
              demo_env (mkControls false false false false true)
              (lit 300) (lit 150) (fun _ => 1 # 2)
              [ev_click_start demo_env] 2%positive Hp)
    as [Hgo _].
  destruct (Hgo He) as (Ha & Hf & _).
  split; [exact Ha | exact Hf].
Defined.

(** ** Spawning *)

Lemma gameLoop_spawn_fields s :
  ballsToDropTotal (gameLoop s) = ballsToDropTotal s
  /\ length (balls (gameLoop s)) = length (balls s)
  /\ (truthy (dropIntervalId (gameLoop s)) = true ->
      dropIntervalId (gameLoop s) = dropIntervalId s).
Proof.
  destruct (updateBalls_frame s)
    as (_ & _ & _ & _ & _ & _ & Hd & Ht & _ & _ & _ & _ & Hlen & _).
  unfold gameLoop. break_if.
  - cbn. auto.
  - rewrite stopSimulation_shape. cbn. rewrite Ht, Hlen, Hd.
    repeat split. destruct (dropIntervalId s); cbn; auto; discriminate.
Qed.

Lemma gameLoop_spawn_bounded s : spawn_bounded s -> spawn_bounded (gameLoop s).
Proof.
  intros HB Hd. destruct (gameLoop_spawn_fields s) as (Ht & Hlen & Hsame).
  rewrite Ht, Hlen. apply HB. rewrite <- (Hsame Hd). exact Hd.
Qed.

Lemma tryDropBall_spawn_bounded n s :
  mirror_intervals s -> spawn_bounded s -> spawn_bounded (tryDropBall n s).
Proof.
  unfold mirror_intervals, spawn_bounded, tryDropBall, lookup_counter.
  intros Hm HB.
  destruct (dropIntervalId s) as [| |m] eqn:Hd; rewrite Hm; cbn [find];
    try (cbn; rewrite ?Hd; intros; discriminate).
  cbn [fst]. destruct (Pos.eqb m n) eqn:E;
    [|cbn; rewrite Hd; intros _; apply HB; reflexivity].
  cbn [option_map snd].
  destruct (HB eq_refl) as (total & Ht & Hlen & H5).
  rewrite Ht. cbn [int_lt]. break_if.
  - apply Z.ltb_lt in Heqb. intros _. exists total.
    unfold createBall, Math_random, set_intervals. cbn.
    rewrite length_app. cbn [length]. split; [exact Ht|]. lia.
  - cbn. intros; discriminate.
Qed.

Lemma startSimulation_spawn_bounded env s :
  Inv s -> Idle s -> spawn_bounded s ->
  spawn_bounded (snd (startSimulation env s)).
Proof.
  intros HI Hid HB.
  destruct (truthy (animationFrameId s)) eqn:Hrun.
  { unfold startSimulation. rewrite Hrun. exact HB. }
  destruct (validateInputs_cases (numRowsInput_value env)
              (numBallsInput_value env) (binCapacityInput_value env))
    as [(Hv & _ & Hballs & _) | (msg & Hv & _)].
  - rewrite (startSimulation_accepted env s Hrun Hv). cbn [snd].
    apply gameLoop_spawn_bounded.
    destruct (Inv_idle_quiet s HI Hrun) as [_ Hi0].
    unfold spawn_bounded, tryDropBall, lookup_counter, start_setup.
    cbn -[rebuild]. rewrite Pos.eqb_refl. cbn -[rebuild].
    unfold out_of_range in Hballs.
    destruct (numBallsInput_value env) as [total|]; [|discriminate].
    apply orb_false_elim in Hballs. destruct Hballs as [H1 H2].
    apply Z.ltb_ge in H1. apply Z.ltb_ge in H2.
    cbn [int_lt]. assert (Hlt : (0 <? total) = true) by (apply Z.ltb_lt; lia).
    rewrite Hlt. cbn -[rebuild]. intros _. exists total.
    split; [reflexivity | lia].
  - rewrite (startSimulation_rejected env s msg Hrun Hv). cbn [snd].
    intros Hd. cbn in Hd. destruct (Hid Hrun) as (_ & Hfalse & _).
    rewrite Hfalse in Hd. discriminate.
Qed.

Lemma resetSimulation_spawn_bounded env s :
  spawn_bounded (resetSimulation env s).
Proof.
  intros Hd. pose proof (resetSimulation_Idle env s) as Hid.
  rewrite resetSimulation_shape in Hid, Hd.
  destruct (Hid eq_refl) as (_ & Hfalse & _). cbn in Hfalse, Hd.
  rewrite Hfalse in Hd. discriminate.
Qed.

Lemma reachable_spawn_bounded env ctl cw ch rnd evs :
  spawn_bounded (run evs (pageLoad env ctl cw ch rnd)).
Proof.
  assert (H : forall l s,
             Inv s -> Idle s -> mirror_frames s -> mirror_intervals s ->
             spawn_bounded s -> spawn_bounded (run l s)).
  { induction l as [|ev l IH]; intros s HI Hid Hf Hi HB; [exact HB|].
    destruct (step_mirror ev s HI Hf Hi) as [Hf' Hi'].
    apply IH; [apply step_Inv; exact HI | apply step_Idle; exact Hid
              | exact Hf' | exact Hi' |].
    destruct ev as [env'|env'|env'|env'|env'|n|n]; cbn [step].
    - apply startSimulation_spawn_bounded; assumption.
    - apply resetSimulation_spawn_bounded.
    - cbn [animationFrameId set_NUM_ROWS].
      break_if; [apply resetSimulation_spawn_bounded | exact HB].
    - break_if; [apply resetSimulation_spawn_bounded | exact HB].
    - break_if; [apply resetSimulation_spawn_bounded | exact HB].
    - break_if; [|exact HB].
      apply gameLoop_spawn_bounded. exact HB.
    - apply tryDropBall_spawn_bounded; assumption. }
  apply H.
  - apply pageLoad_Inv.
  - unfold pageLoad. apply resetSimulation_Idle.
  - unfold pageLoad. apply resetSimulation_mirror; reflexivity.
  - unfold pageLoad. apply resetSimulation_mirror; reflexivity.
  - unfold pageLoad. apply resetSimulation_spawn_bounded.
Qed.

(** X13: in every state the page can reach in which the spawn timer is
    alive, the requested total is a number between 1 and 5000 and the number
    of balls spawned in the run is at least 1 and at most that total: the
    timer never drops more balls than were asked for. *)
Theorem never_more_balls_than_requested env ctl cw ch rnd evs :
  let s := run evs (pageLoad env ctl cw ch rnd) in
  truthy (dropIntervalId s) = true ->
  exists total,
    ballsToDropTotal s = Some total
    /\ 1 <= Z.of_nat (length (balls s)) <= total /\ total <= 5000.
Proof. apply reachable_spawn_bounded. Qed.

Lemma never_more_balls_than_requested_witness :
  exists total,
    ballsToDropTotal (run [ev_click_start demo_env] demo_page) = Some total
    /\ 1 <= Z.of_nat (length (balls (run [ev_click_start demo_env] demo_page)))
       <= total
    /\ total <= 5000.
Proof.
  apply (never_more_balls_than_requested
           demo_env (mkControls false false false false true)
           (lit 300) (lit 150) (fun _ => 1 # 2) [ev_click_start demo_env]).
  vm_compute. reflexivity.
Defined.

(** X14: in every state the page can reach, a tick of the live spawn timer
    either appends exactly one new falling ball and raises the active-ball
    counter by one (when fewer balls than requested have been spawned), or
    spawns nothing and cancels the timer, clearing [dropIntervalId]; a tick
    of any other interval does nothing.  In no case does it touch the balls
    already there, the bins, the pegs or the animation loop. *)
Theorem spawn_tick env ctl cw ch rnd evs n :
  let s := run evs (pageLoad env ctl cw ch rnd) in
  let s' := step (ev_interval n) s in
  bins s' = bins s /\ pegs s' = pegs s
  /\ animationFrameId s' = animationFrameId s
  /\ frames (host s') = frames (host s)
  /\ (dropIntervalId s <> h_id n -> s' = s)
  /\ (dropIntervalId s = h_id n ->
      int_lt (Z.of_nat (length (balls s))) (ballsToDropTotal s) = true ->
      balls s' = balls s ++ [fst (createBall s)]
      /\ is_falling (fst (createBall s)) = true
      /\ ballsBeingDropped s' = ballsBeingDropped s + 1
      /\ dropIntervalId s' = h_id n
      /\ intervals (host s') = [(n, Z.of_nat (length (balls s)) + 1)])
  /\ (dropIntervalId s = h_id n ->
      int_lt (Z.of_nat (length (balls s))) (ballsToDropTotal s) = false ->
      balls s' = balls s
      /\ ballsBeingDropped s' = ballsBeingDropped s
      /\ dropIntervalId s' = h_null
      /\ intervals (host s') = []).
Proof.
  intros s s'. subst s'. cbn [step].
  destruct (reachable_mirror env ctl cw ch rnd evs) as [_ Hm].
  fold s in Hm. unfold mirror_intervals in Hm.
  assert (Hkeep : bins (tryDropBall n s) = bins s
                  /\ pegs (tryDropBall n s) = pegs s
                  /\ animationFrameId (tryDropBall n s) = animationFrameId s
                  /\ frames (host (tryDropBall n s)) = frames (host s)).
  { destruct (tryDropBall_shape n s) as [E | [(b & k & l & _ & E) | E]];
      rewrite E; repeat split; reflexivity. }
  destruct Hkeep as (K1 & K2 & K3 & K4).
  split; [exact K1|]. split; [exact K2|]. split; [exact K3|].
  split; [exact K4|]. clear K1 K2 K3 K4.
  unfold tryDropBall, lookup_counter. rewrite Hm.
  destruct (dropIntervalId s) as [| |m] eqn:Hd; cbn [find fst].
  - split; [reflexivity|]. split; intros; discriminate.
  - split; [reflexivity|]. split; intros; discriminate.
  - destruct (Pos.eqb m n) eqn:E.
    + apply Pos.eqb_eq in E. subst m. cbn [option_map snd].
      split; [intros H; congruence|].
      split; intros _ Hlt; rewrite Hlt.
      * unfold createBall, Math_random, set_intervals, store_counter.
        cbn. rewrite Hm. cbn. rewrite Pos.eqb_refl.
        repeat split; assumption.
      * cbn. rewrite ?Hm. cbn. rewrite ?Pos.eqb_refl.
        repeat split; assumption.
    + apply Pos.eqb_neq in E. cbn [option_map].
      split; [reflexivity|].
      split; intros H; inversion H; congruence.
Qed.

(* ------------------------------------------------------------------------- *)
(** * Further properties of the session controller *)

Lemma out_of_range_false v lo hi :
  out_of_range v lo hi = false <-> exists n, v = Some n /\ lo <= n <= hi.
Proof.
  unfold out_of_range. destruct v as [n|].
  - rewrite orb_false_iff, !Z.ltb_ge. split.
    + intros [H1 H2]. exists n. split; [reflexivity | lia].
    + intros (m & Hm & H). inversion Hm; subst. lia.
  - split; [discriminate | intros (n & Hn & _); discriminate].
Qed.

(** X15: [validateInputs] accepts exactly when the three values are numbers
    with rows in [1,30], balls in [1,5000] and capacity in [1,1000], and then
    alerts nothing.  Otherwise it alerts one message, that of the first
    failing check in the order rows, balls, capacity. *)
Theorem validateInputs_accepts_exactly numRows numBalls binCapacity :
  (fst (validateInputs numRows numBalls binCapacity) = true
   <-> exists R N C,
         numRows = Some R /\ numBalls = Some N /\ binCapacity = Some C
         /\ 1 <= R <= 30 /\ 1 <= N <= 5000 /\ 1 <= C <= 1000)
  /\ (fst (validateInputs numRows numBalls binCapacity) = true <->
      snd (validateInputs numRows numBalls binCapacity) = None)
  /\ (out_of_range numRows 1 30 = true ->
      snd (validateInputs numRows numBalls binCapacity)
      = Some "Number of rows must be between 1 and 30."%string)
  /\ (out_of_range numRows 1 30 = false ->
      out_of_range numBalls 1 5000 = true ->
      snd (validateInputs numRows numBalls binCapacity)
      = Some "Number of balls must be between 1 and 5000."%string)
  /\ (out_of_range numRows 1 30 = false ->
      out_of_range numBalls 1 5000 = false ->
      out_of_range binCapacity 1 1000 = true ->
      snd (validateInputs numRows numBalls binCapacity)
      = Some "Bin capacity must be between 1 and 1000."%string).
Proof.
  unfold validateInputs.
  pose proof (out_of_range_false numRows 1 30) as H1.
  pose proof (out_of_range_false numBalls 1 5000) as H2.
  pose proof (out_of_range_false binCapacity 1 1000) as H3.
  destruct (out_of_range numRows 1 30),
    (out_of_range numBalls 1 5000), (out_of_range binCapacity 1 1000);
    cbn [fst snd];
    (split; [split; [try discriminate|]|]);
    try (intros (R & N & C & -> & -> & -> & Hr & Hn & Hc);
         first [ assert (true = false) by (apply H1; eauto); discriminate
               | assert (true = false) by (apply H2; eauto); discriminate
               | assert (true = false) by (apply H3; eauto); discriminate ]);
    try (intros _;
         destruct (proj1 H1 eq_refl) as (R & -> & Hr);
         destruct (proj1 H2 eq_refl) as (N & -> & Hn);
         destruct (proj1 H3 eq_refl) as (C & -> & Hc);
         exists R, N, C; auto 10);
    repeat split; intros; try discriminate; reflexivity.
Qed.

(** X16: for a requested total between 1 and 5000 the spawn delay is a
    number between 10 and 100: 100 for totals up to 500 and [50000 / total]
    above; and a larger total never gives a longer delay. *)
Theorem dropDelay_range N M :
  1 <= N <= 5000 -> 1 <= M <= 5000 -> N <= M ->
  exists d d',
    dropDelay (Some N) = Some d /\ dropDelay (Some M) = Some d'
    /\ (10 <= d)%Q /\ (d <= 100)%Q
    /\ (N <= 500 -> (d == 100)%Q)
    /\ (500 <= N -> (d == 50000 / inject_Z N)%Q)
    /\ (d' <= d)%Q.
Proof.
  intros HN HM Hle.
  assert (Hq : forall K, 1 <= K <= 5000 ->
            exists d,
              dropDelay (Some K) = Some d
              /\ (d == Qmax 10 (Qmin 100 (50000 / inject_Z K)))%Q
              /\ (0 < inject_Z K)%Q).
  { intros K HK. unfold dropDelay, Math_max, Math_min, lit.
    cbn [of_int option_map div lift2].
    assert (Hpos : (0 < inject_Z K)%Q)
      by (change 0%Q with (inject_Z 0); rewrite <- Zlt_Qlt; lia).
    assert (Hz : Qeq_bool (inject_Z K) 0 = false).
    { apply not_true_is_false. intros H. apply Qeq_bool_iff in H.
      rewrite H in Hpos. apply (Qlt_irrefl _ Hpos). }
    rewrite Hz. eexists. split; [reflexivity|]. split; [reflexivity|assumption]. }
  destruct (Hq N HN) as (d & Hd & Ed & HposN).
  destruct (Hq M HM) as (d' & Hd' & Ed' & HposM).
  exists d, d'. split; [exact Hd|]. split; [exact Hd'|].
  assert (HNq : (inject_Z N <= 5000)%Q)
    by (change 5000%Q with (inject_Z 5000); rewrite <- Zle_Qle; lia).
  assert (HMq : (inject_Z M <= 5000)%Q)
    by (change 5000%Q with (inject_Z 5000); rewrite <- Zle_Qle; lia).
  assert (HNM : (inject_Z N <= inject_Z M)%Q) by (rewrite <- Zle_Qle; lia).
  assert (Hlow : forall K : Q, (0 < K)%Q -> (K <= 5000)%Q ->
                               (10 <= 50000 / K)%Q).
  { intros K H0 H5. apply Qle_shift_div_l; [exact H0|]. lra. }
  assert (Hmono : (50000 / inject_Z M <= 50000 / inject_Z N)%Q).
  { apply Qle_shift_div_l; [exact HposN|].
    setoid_replace (50000 / inject_Z M * inject_Z N)%Q
      with (50000 * (inject_Z N / inject_Z M))%Q by (field; lra).
    assert (inject_Z N / inject_Z M <= 1)%Q
      by (apply Qle_shift_div_r; [exact HposM | lra]).
    lra. }
  pose proof (Hlow _ HposN HNq) as HlN.
  pose proof (Hlow _ HposM HMq) as HlM.
  set (qN := (50000 / inject_Z N)%Q) in *.
  set (qM := (50000 / inject_Z M)%Q) in *.
  assert (EdN : (d == Qmin 100 qN)%Q).
  { rewrite Ed. apply Q.max_r. apply Q.min_glb; lra. }
  assert (EdM : (d' == Qmin 100 qM)%Q).
  { rewrite Ed'. apply Q.max_r. apply Q.min_glb; lra. }
  split; [rewrite EdN; apply Q.min_glb; lra|].
  split; [rewrite EdN; apply Q.le_min_l|].
  split; [|split].
  - intros H500. rewrite EdN. apply Q.min_l.
    unfold qN. apply Qle_shift_div_l; [exact HposN|].
    assert (inject_Z N <= 500)%Q
      by (change 500%Q with (inject_Z 500); rewrite <- Zle_Qle; lia).
    lra.
  - intros H500. rewrite EdN. apply Q.min_r.
    unfold qN. apply Qle_shift_div_r; [exact HposN|].
    assert (500 <= inject_Z N)%Q
      by (change 500%Q with (inject_Z 500); rewrite <- Zle_Qle; lia).
    lra.
  - rewrite EdN, EdM. apply Q.min_glb.
    + apply Q.le_min_l.
    + eapply Qle_trans; [apply Q.le_min_r | exact Hmono].
Qed.

Lemma dropDelay_range_witness :
  exists d d',
    dropDelay (Some 100) = Some d /\ dropDelay (Some 2000) = Some d'
    /\ (d == 100)%Q /\ (d' <= d)%Q.
Proof.
  destruct (dropDelay_range 100 2000) as (d & d' & H1 & H2 & _ & _ & H3 & _ & H4);
    try lia.
  exists d, d'. repeat split; try assumption. apply H3. lia.
Defined.

(* ------------------------------------------------------------------------- *)
(** * Properties of the renderer *)

Lemma drawBalls_falling bs :
  flat_map (fun ball =>
              if landed ball || isSettling ball then []
              else [mkDisc (x ball) (y ball) (radius ball) (color ball)]) bs
  = map (fun ball => mkDisc (x ball) (y ball) (radius ball) (color ball))
        (filter is_falling bs).
Proof.
  induction bs as [|b bs IH]; [reflexivity|].
  cbn [flat_map filter]. rewrite IH. unfold is_falling.
  destruct (landed b), (isSettling b); reflexivity.
Qed.

(** X17: [drawBalls] paints one disc, at the ball's position and with its
    radius and colour, for each ball that is neither settling nor landed, in
    spawn order, and nothing for the others; in every state the page can
    reach the number of discs is [ballsBeingDropped]. *)
Theorem drawBalls_paints_the_active_balls env ctl cw ch rnd evs :
  let s := run evs (pageLoad env ctl cw ch rnd) in
  drawBalls s
  = map (fun ball => mkDisc (x ball) (y ball) (radius ball) (color ball))
        (filter is_falling (balls s))
  /\ Z.of_nat (length (drawBalls s)) = ballsBeingDropped s.
Proof.
  intros s. unfold drawBalls. rewrite drawBalls_falling.
  split; [reflexivity|].
  destruct (reachable_Inv env ctl cw ch rnd evs) as ((C1 & _) & _).
  fold s in C1. rewrite C1, length_map. reflexivity.
Qed.

(** X18: for a bin with numeric position and size, a height of at least 1
    and a count between 1 and its capacity, [drawBins] paints a fill bar
    that is inset by one unit on the left and right, stands on the bin's
    bottom edge, is [min (count / maxCapacity * height) (height - 1)] high,
    hence never reaches the bin's top edge, and is [height - 1] high when the
    bin is full.  The label is the count. *)
Theorem fill_bar_stays_inside_bin s bin bx by_ w h :
  bin_x bin = Some bx -> bin_y bin = Some by_ ->
  width bin = Some w -> height bin = Some h ->
  (1 <= h)%Q ->
  0 < count bin <= maxCapacity bin ->
  label (drawBin s bin) = count bin
  /\ exists fx fy fw fh,
       fillBar (drawBin s bin)
       = Some (mkRect (Some fx) (Some fy) (Some fw) (Some fh))
       /\ (fx == bx + 1)%Q /\ (fw == w - 2)%Q
       /\ (fy + fh == by_ + h)%Q
       /\ (by_ + 1 <= fy)%Q
       /\ (0 <= fh)%Q /\ (fh <= h - 1)%Q
       /\ (fh == Qmin (inject_Z (count bin) / inject_Z (maxCapacity bin) * h)
                      (h - 1))%Q
       /\ (count bin = maxCapacity bin -> (fh == h - 1)%Q).
Proof.
  intros Hx Hy Hw Hh Hh1 Hc. split; [reflexivity|].
  unfold drawBin. cbn [fillBar].
  assert (H1 : (0 <? count bin) = true) by (apply Z.ltb_lt; lia).
  assert (H2 : (0 <? maxCapacity bin) = true) by (apply Z.ltb_lt; lia).
  rewrite H1, H2, Hx, Hy, Hw, Hh. cbn [andb].
  assert (Hm : (0 < inject_Z (maxCapacity bin))%Q)
    by (change 0%Q with (inject_Z 0); rewrite <- Zlt_Qlt; lia).
  assert (Hcq : (0 < inject_Z (count bin))%Q)
    by (change 0%Q with (inject_Z 0); rewrite <- Zlt_Qlt; lia).
  assert (Hz : Qeq_bool (inject_Z (maxCapacity bin)) 0 = false).
  { apply not_true_is_false. intros H. apply Qeq_bool_iff in H.
    rewrite H in Hm. apply (Qlt_irrefl _ Hm). }
  unfold Math_min, lit. cbn [of_int option_map div lift2 mul add sub].
  rewrite Hz. cbn [lift2].
  do 4 eexists. split; [reflexivity|].
  set (bar := (inject_Z (count bin) / inject_Z (maxCapacity bin) * h)%Q).
  assert (Hratio : (0 <= inject_Z (count bin) / inject_Z (maxCapacity bin))%Q).
  { apply Qle_shift_div_l; [exact Hm|]. lra. }
  assert (Hbar : (0 <= bar)%Q)
    by (unfold bar; apply Qmult_le_0_compat; [exact Hratio | lra]).
  assert (Hle : (Qmin bar (h - 1) <= h - 1)%Q) by apply Q.le_min_r.
  assert (Hge : (0 <= Qmin bar (h - 1))%Q) by (apply Q.min_glb; lra).
  split; [reflexivity|]. split; [reflexivity|].
  split; [ring|]. split; [lra|]. split; [exact Hge|]. split; [exact Hle|].
  split; [reflexivity|].
  intros Heq. apply Q.min_r. unfold bar. rewrite Heq.
  setoid_replace (inject_Z (maxCapacity bin) / inject_Z (maxCapacity bin))%Q
    with 1%Q by (field; lra).
  lra.
Qed.

Lemma fill_bar_stays_inside_bin_witness :
  exists fx fy fw fh,
    fillBar (drawBin demo_run full_bin)
    = Some (mkRect (Some fx) (Some fy) (Some fw) (Some fh))
    /\ (fh == 59)%Q /\ (fy == 67)%Q.
Proof.
  destruct (fill_bar_stays_inside_bin demo_run full_bin 50 66 40 60
              eq_refl eq_refl eq_refl eq_refl)
    as (_ & fx & fy & fw & fh & Hf & _ & _ & Hbot & _ & _ & _ & _ & Hfull).
  - vm_compute. discriminate.
  - cbn. lia.
  - exists fx, fy, fw, fh. split; [exact Hf|].
    assert (Hfh : (fh == 60 - 1)%Q) by (apply Hfull; reflexivity).
    split; [rewrite Hfh; reflexivity|]. lra.
Defined.

(* ------------------------------------------------------------------------- *)
(** * The board and the controls during a session *)

Lemma same_board_refl s : same_board s s.
Proof. unfold same_board. repeat split; auto using same_bins_refl. Qed.

Lemma same_board_trans a b c :
  same_board a b -> same_board b c -> same_board a c.
Proof.
  unfold same_board.
  intros (L1 & W1 & H1 & P1 & B1) (L2 & W2 & H2 & P2 & B2).
  repeat split; try congruence. eapply same_bins_trans; eassumption.
Qed.

Lemma stopSimulation_board s :
  same_board s (stopSimulation s)
  /\ balls (stopSimulation s) = balls s
  /\ ballsToDropTotal (stopSimulation s) = ballsToDropTotal s.
Proof.
  rewrite stopSimulation_shape. unfold same_board. cbn.
  repeat split; auto using same_bins_refl.
Qed.

Lemma gameLoop_board s :
  same_board s (gameLoop s)
  /\ length (balls (gameLoop s)) = length (balls s)
  /\ ballsToDropTotal (gameLoop s) = ballsToDropTotal s.
Proof.
  destruct (updateBalls_frame s)
    as (_ & Hl & Hw & Hh & Hp & _ & _ & Ht & _ & _ & _ & _ & Hlen & Hb).
  assert (H1 : same_board s (updateBalls s))
    by (unfold same_board; auto).
  unfold gameLoop. break_if.
  - unfold requestAnimationFrame. cbn. auto.
  - destruct (stopSimulation_board (updateBalls s)) as (H2 & Hb2 & Ht2).
    split; [eapply same_board_trans; eassumption|].
    rewrite Hb2, Ht2. auto.
Qed.

Lemma tryDropBall_board n s :
  same_board s (tryDropBall n s)
  /\ (length (balls s) <= length (balls (tryDropBall n s)))%nat
  /\ ballsToDropTotal (tryDropBall n s) = ballsToDropTotal s
  /\ controls (tryDropBall n s) = controls s
  /\ animationFrameId (tryDropBall n s) = animationFrameId s
  /\ NUM_ROWS (tryDropBall n s) = NUM_ROWS s.
Proof.
  destruct (tryDropBall_shape n s) as [-> | [(b & k & l & _ & ->) | ->]];
    unfold same_board; cbn; rewrite ?length_app; cbn;
    repeat split; auto using same_bins_refl; lia.
Qed.

Lemma gameLoop_controls s :
  (truthy (animationFrameId (gameLoop s)) = true
   /\ controls (gameLoop s) = controls s)
  \/ (animationFrameId (gameLoop s) = h_null
      /\ controls (gameLoop s) = enable_inputs (controls s)).
Proof.
  destruct (updateBalls_frame s)
    as (_ & _ & _ & _ & _ & _ & _ & _ & Hc & _).
  unfold gameLoop. break_if.
  - left. unfold requestAnimationFrame. cbn. auto.
  - right. rewrite stopSimulation_shape. cbn. rewrite Hc. auto.
Qed.

Lemma resetSimulation_ui env s : ui_locked (resetSimulation env s).
Proof.
  rewrite resetSimulation_shape. unfold ui_locked. cbn -[rebuild].
  repeat split; auto.
  eapply Forall_impl; [|apply rebuild_bins_fresh]. intros b [Hb _]. exact Hb.
Qed.

Lemma gameLoop_ui s :
  startButton_disabled (controls s) = true ->
  numRowsInput_disabled (controls s) = true ->
  numBallsInput_disabled (controls s) = true ->
  binCapacityInput_disabled (controls s) = true ->
  resetButton_disabled (controls s) = false ->
  ui_locked (gameLoop s).
Proof.
  intros H1 H2 H3 H4 H5. unfold ui_locked.
  destruct (gameLoop_controls s) as [[Ha Hc] | [Ha Hc]]; rewrite Ha, Hc.
  - rewrite H1, H2, H3, H4, H5. repeat split; discriminate.
  - cbn. rewrite H5. repeat split; discriminate.
Qed.

Lemma step_ui ev s : Inv s -> ui_locked s -> ui_locked (step ev s).
Proof.
  intros HI HU.
  destruct ev as [env|env|env|env|env|n|n]; cbn [step].
  - destruct (truthy (animationFrameId s)) eqn:Hrun.
    { unfold startSimulation. rewrite Hrun. exact HU. }
    destruct (validateInputs_cases (numRowsInput_value env)
                (numBallsInput_value env) (binCapacityInput_value env))
      as [(Hv & _) | (msg & Hv & _)].
    + rewrite (startSimulation_accepted env s Hrun Hv). cbn [snd].
      destruct (tryDropBall_board (nextHandle (host s)) (start_setup env s))
        as (_ & _ & _ & Hc & _).
      apply gameLoop_ui; rewrite Hc; reflexivity.
    + rewrite (startSimulation_rejected env s msg Hrun Hv). cbn [snd].
      exact HU.
  - apply resetSimulation_ui.
  - cbn [animationFrameId set_NUM_ROWS]. break_if.
    + apply resetSimulation_ui.
    + exact HU.
  - break_if; [apply resetSimulation_ui | exact HU].
  - break_if; [apply resetSimulation_ui | exact HU].
  - break_if; [|exact HU].
    assert (Hrun : truthy (animationFrameId s) = true).
    { unfold pending in Heqb. apply existsb_exists in Heqb.
      destruct Heqb as (m & Hin & _).
      destruct HI as (_ & Hf & _). rewrite (Hf m Hin). reflexivity. }
    destruct HU as (H1 & H2 & H3 & H4 & H5). rewrite Hrun in *.
    apply gameLoop_ui; cbn; try assumption.
    destruct (resetButton_disabled (controls s)); [|reflexivity].
    destruct (H5 eq_refl) as [? _]. discriminate.
  - destruct (truthy (animationFrameId s)) eqn:Hrun.
    + destruct (tryDropBall_board n s) as (_ & _ & _ & Hc & Ha & _).
      destruct HU as (H1 & H2 & H3 & H4 & H5). rewrite Hrun in *.
      unfold ui_locked. rewrite Hc, Ha, Hrun.
      repeat split; try assumption;
        match goal with
        | Hr : resetButton_disabled _ = true |- _ =>
            destruct (H5 Hr) as [? _]; discriminate
        end.
    + destruct (Inv_idle_quiet s HI Hrun) as [_ Hi].
      unfold tryDropBall. rewrite Hi. exact HU.
Qed.

Lemma reachable_ui env ctl cw ch rnd evs :
  ui_locked (run evs (pageLoad env ctl cw ch rnd)).
Proof.
  assert (H : forall l s, Inv s -> ui_locked s -> ui_locked (run l s)).
  { induction l as [|ev l IH]; intros s HI HU; [exact HU|].
    apply IH; [apply step_Inv; exact HI | apply step_ui; assumption]. }
  apply H; [apply pageLoad_Inv|].
  unfold pageLoad. apply resetSimulation_ui.
Qed.

(** X19: in every state the page can reach, whatever the markup's initial
    flags, the start button and the three inputs are disabled exactly while
    a run is active ([animationFrameId] holds a handle), all four together;
    and while the reset button is disabled no run is active, there are no
    balls and every bin is empty. *)
Theorem controls_follow_the_run env ctl cw ch rnd evs :
  let s := run evs (pageLoad env ctl cw ch rnd) in
  let running := truthy (animationFrameId s) in
  startButton_disabled (controls s) = running
  /\ numRowsInput_disabled (controls s) = running
  /\ numBallsInput_disabled (controls s) = running
  /\ binCapacityInput_disabled (controls s) = running
  /\ (resetButton_disabled (controls s) = true ->
      running = false /\ balls s = []
      /\ Forall (fun b => count b = 0) (bins s)).
Proof. apply reachable_ui. Qed.

(** X20: while a run is active, no event other than a click on reset
    changes the board: a start click, a change of the rows or capacity
    input, a window resize, a frame and a spawn-timer tick all leave the
    layout, the canvas size and the pegs as they are, keep every bin's
    position, size and capacity, keep the requested total, and never remove
    a ball from the list. *)
Theorem board_is_fixed_during_a_run ev s :
  truthy (animationFrameId s) = true ->
  (forall env, ev <> ev_click_reset env) ->
  layout (step ev s) = layout s
  /\ canvas_width (step ev s) = canvas_width s
  /\ canvas_height (step ev s) = canvas_height s
  /\ pegs (step ev s) = pegs s
  /\ Forall2 same_bin (bins s) (bins (step ev s))
  /\ ballsToDropTotal (step ev s) = ballsToDropTotal s
  /\ (length (balls s) <= length (balls (step ev s)))%nat.
Proof.
  intros Hrun Hev.
  assert (Hid : forall t, same_board s t -> ballsToDropTotal t = ballsToDropTotal s ->
                 (length (balls s) <= length (balls t))%nat ->
                 layout t = layout s
                 /\ canvas_width t = canvas_width s
                 /\ canvas_height t = canvas_height s
                 /\ pegs t = pegs s
                 /\ Forall2 same_bin (bins s) (bins t)
                 /\ ballsToDropTotal t = ballsToDropTotal s
                 /\ (length (balls s) <= length (balls t))%nat).
  { intros t (L & W & Hh & P & B) Ht Hl. auto 10. }
  destruct ev as [env|env|env|env|env|n|n]; cbn [step].
  - unfold startSimulation. rewrite Hrun. cbn [snd].
    apply Hid; [apply same_board_refl | reflexivity | lia].
  - exfalso. apply (Hev env). reflexivity.
  - cbn [animationFrameId set_NUM_ROWS]. rewrite Hrun. cbn [negb].
    apply Hid; [unfold same_board; cbn; auto 10 using same_bins_refl
               | reflexivity | cbn; lia].
  - rewrite Hrun. cbn [negb].
    apply Hid; [apply same_board_refl | reflexivity | lia].
  - rewrite Hrun. cbn [negb].
    apply Hid; [apply same_board_refl | reflexivity | lia].
  - break_if; [|apply Hid; [apply same_board_refl | reflexivity | lia]].
    destruct (gameLoop_board (cancelAnimationFrame (h_id n) s))
      as (Hb & Hl & Ht).
    apply Hid.
    + exact Hb.
    + rewrite Ht. reflexivity.
    + rewrite Hl. cbn. lia.
  - destruct (tryDropBall_board n s) as (Hb & Hl & Ht & _).
    apply Hid; assumption.
Qed.

Lemma board_is_fixed_during_a_run_witness :
  pegs (step (ev_resize narrow_env) demo_run) = pegs demo_run
  /\ canvas_width (step (ev_resize narrow_env) demo_run)
     = canvas_width demo_run.
Proof.
  assert (Hrun : truthy (animationFrameId demo_run) = true)
    by (vm_compute; reflexivity).
  destruct (board_is_fixed_during_a_run (ev_resize narrow_env) demo_run Hrun)
    as (_ & Hw & _ & Hp & _).
  - intros env. discriminate.
  - split; [exact Hp | exact Hw].
Defined.

(* ------------------------------------------------------------------------- *)
(** * The first frame of a session *)

(** A ball whose centre is at least the contact distance above every peg
    passes the peg step untouched. *)
Lemma no_peg_hit ps : forall ball t sf bx by_,
  currentBallRadius (layout t) = Some (5 * sf)%Q ->
  currentPegRadius (layout t) = Some (6 * sf)%Q ->
  (0 < sf)%Q ->
  x ball = Some bx -> y ball = Some by_ -> (by_ <= 19 * sf)%Q ->
  Forall (fun peg => exists px py,
            peg_x peg = Some px /\ peg_y peg = Some py
            /\ (30 * sf <= py)%Q) ps ->
  forEachPeg ps ball t = (ball, t).
Proof.
  induction ps as [|peg rest IH]; intros ball t sf bx by_ Hr Hpr Hsf Hx Hy Hhigh Hps;
    [reflexivity|].
  inversion Hps as [|? ? (px & py & Hpx & Hpy & Hlow) Hrest]; subst.
  cbn [forEachPeg].
  assert (Hmiss : pegHit ball peg t = false).
  { unfold pegHit. rewrite Hr, Hpr, Hx, Hy, Hpx, Hpy. qcbn.
    unfold sqrt_lt.
    apply andb_false_intro2. apply Qltb_ge.
    set (dx := (bx - px)%Q). set (e := (py - by_ - 11 * sf)%Q).
    assert (H1 : (0 <= dx * dx)%Q) by nra.
    assert (H2 : (0 <= e * e)%Q) by nra.
    assert (H3 : (0 <= e * sf)%Q)
      by (apply Qmult_le_0_compat; unfold e; lra).
    assert (H4 : ((by_ - py) * (by_ - py)
                  == e * e + 22 * (e * sf)
                     + (5 * sf + 6 * sf) * (5 * sf + 6 * sf))%Q)
      by (unfold e; ring).
    rewrite H4. lra. }
  unfold pegCollision. rewrite Hmiss.
  eapply IH; eassumption.
Qed.

(** The frame of a freshly created ball on a built board: gravity, then the
    bounce off the top edge; no peg and no bin is in reach. *)
Lemma first_frame t p sf fw h c xq yq v :
  layout t
  = mkLayout (Some p) (Some (30 * sf)%Q) (Some (30 * sf)%Q)
             (Some (6 * sf)%Q) (Some (5 * sf)%Q) (Some (60 * sf)%Q)
             (Some (30 * sf)%Q) (Some (40 * sf)%Q) (Some sf) ->
  canvas_width t = Some fw -> canvas_height t = Some h ->
  (0 < sf)%Q -> (sf <= 1)%Q -> (11 <= fw)%Q -> (0 <= h)%Q ->
  Forall (fun peg => exists px py,
            peg_x peg = Some px /\ peg_y peg = Some py
            /\ (30 * sf <= py)%Q) (pegs t) ->
  Forall (fun bin => exists by_,
            bin_y bin = Some by_ /\ (66 * sf <= by_)%Q) (bins t) ->
  (xq == fw / 2)%Q -> (yq == 0)%Q ->
  (- (1 # 4) <= v)%Q -> (v <= 1 # 4)%Q ->
  updateBall (mkBall (Some xq) (Some yq) (Some (5 * sf)%Q) c (Some v)
                     (Some 0%Q) false false) t
  = (mkBall (Some (xq + v)%Q) (Some (5 * sf)%Q) (Some (5 * sf)%Q) c (Some v)
            (Some ((0 + (15 # 100) * sf) * - (1 # 10))%Q) false false, t).
Proof.
  intros Hl Hw Hh Hsf Hsf1 Hfw Hh0 Hpegs Hbins Hx Hy Hv1 Hv2.
  assert (Hx2 : (xq * 2 == fw)%Q) by (rewrite Hx; field).
  unfold updateBall. cbn [landed isSettling].
  unfold applyBallPhysics, handleBallWallCollisions, GRAVITY, BOUNCE_FACTOR,
    lit.
  rewrite Hl, Hw, Hh. qcbn.
  assert (E1 : Qltb (xq + v - 5 * sf) 0 = false) by (apply Qltb_ge; lra).
  assert (E2 : Qltb fw (xq + v + 5 * sf) = false) by (apply Qltb_ge; lra).
  rewrite E1, E2. qcbn.
  assert (E3 : Qltb h (yq + (0 + (15 # 100) * sf) - 5 * sf) = false)
    by (apply Qltb_ge; lra).
  rewrite E3. qcbn.
  assert (E4 : Qltb (yq + (0 + (15 # 100) * sf) - 5 * sf) 0 = true)
    by (apply Qltb_lt; lra).
  rewrite E4. qcbn.
  unfold handleBallPegCollisions.
  rewrite (no_peg_hit (pegs t) _ t sf (xq + v)%Q (5 * sf)%Q);
    try reflexivity; try assumption;
    [|rewrite Hl; reflexivity | rewrite Hl; reflexivity | lra].
  unfold handleBallBinInteractions.
  destruct (bins t) as [|bin0 rest]; [reflexivity|].
  inversion Hbins as [|? ? (by_ & Hby & Hlow) _]; subst.
  rewrite Hl, Hby. qcbn.
  assert (E5 : Qle_bool by_ (5 * sf + 5 * sf) = false).
  { apply not_true_is_false. intros H. apply Qle_bool_iff in H. lra. }
  rewrite E5. reflexivity.
Qed.

(** The rebuilt board for a numeric width and at least one row. *)
Lemma rebuild_numeric env s R vw :
  numRowsInput_value env = Some R ->
  innerWidth env = Some vw ->
  1 <= R ->
  exists p sf fw h xq,
    layout (rebuild env s)
    = mkLayout (Some p) (Some (30 * sf)%Q) (Some (30 * sf)%Q)
               (Some (6 * sf)%Q) (Some (5 * sf)%Q) (Some (60 * sf)%Q)
               (Some (30 * sf)%Q) (Some (40 * sf)%Q) (Some sf)
    /\ canvas_width (rebuild env s) = Some fw
    /\ canvas_height (rebuild env s) = Some h
    /\ (0 < sf)%Q /\ (sf <= 1)%Q /\ (11 <= fw)%Q /\ (0 <= h)%Q
    /\ Forall (fun peg => exists px py,
                 peg_x peg = Some px /\ peg_y peg = Some py
                 /\ (30 * sf <= py)%Q) (pegs (rebuild env s))
    /\ Forall (fun bin => exists by_,
                 bin_y bin = Some by_ /\ (66 * sf <= by_)%Q)
              (bins (rebuild env s))
    /\ (exists rest, pegs (rebuild env s)
                     = mkPeg (Some xq) (Some (30 * sf + inject_Z (Z.of_nat 0) * (30 * sf))%Q)
                             (Some (6 * sf)%Q) :: rest)
    /\ (xq == fw / 2)%Q.
Proof.
  intros HR HW Hrows.
  destruct (resizeCanvas_numeric env s R vw HR HW ltac:(lia))
    as (p & sf & fw & Hl & Hw & Hh & Hn & Hp1 & Hp2 & Hsf & Hfw).
  assert (Hsf' : (sf * 40 == p)%Q) by (rewrite Hsf; field).
  assert (HRq : (1 <= inject_Z R)%Q)
    by (change 1%Q with (inject_Z 1); rewrite <- Zle_Qle; lia).
  exists p, sf, fw. eexists. eexists.
  unfold rebuild, initBins, initPegs.
  cbn [layout canvas_width canvas_height pegs bins set_bins set_pegs NUM_ROWS].
  rewrite Hl, Hw, Hh, Hn.
  split; [reflexivity|]. split; [reflexivity|]. split; [reflexivity|].
  split; [lra|]. split; [lra|].
  split. { rewrite Hfw. nra. }
  split. { nra. }
  split.
  { apply Forall_forall. intros peg Hin.
    apply in_flat_map in Hin. destruct Hin as (row & _ & Hin).
    rewrite (pegRow_numeric _ row p sf fw Hl Hw) in Hin.
    apply in_map_iff in Hin. destruct Hin as (col & <- & _).
    do 2 eexists. split; [reflexivity|]. split; [reflexivity|].
    pose proof (inject_Z_nat_nonneg row). nra. }
  split.
  { apply Forall_forall. intros bin Hin.
    cbn [currentPegSpacingX currentStartYOffset currentPegSpacingY
         currentPegRadius currentSpaceBelowPegs currentDrawnBinHeight] in Hin.
    apply in_map_iff in Hin. destruct Hin as (i & <- & _).
    cbn [bin_y]. unfold lit. cbn [of_int option_map add sub mul lift2].
    eexists. split; [reflexivity|]. nra. }
  cbn [loop_count].
  destruct (Z.to_nat R) as [|n] eqn:En; [lia|].
  cbn [seq flat_map].
  rewrite (pegRow_numeric _ 0%nat p sf fw Hl Hw).
  cbn [seq map app]. split; [eexists; reflexivity|].
  change (inject_Z (Z.of_nat 1)) with 1%Q.
  change (inject_Z (Z.of_nat 0)) with 0%Q. field.
Qed.

(** X21: a start click on an idle page with valid inputs (rows in 1..30,
    balls in 1..5000, capacity in 1..1000), a numeric viewport width and a
    random draw in [0,1) shows no alert and leaves, when the click handler
    returns, exactly one ball: still falling, with its centre one radius
    below the top edge ([y = radius = 5 * scaleFactor]), at
    [x = width / 2 + vx] with [vx = (draw - 1/2) / 2], and moving upwards
    with [vy = -(3/200) * scaleFactor], because the frame run by the click
    itself has applied gravity and bounced it off the top edge.  The counter
    is 1, the requested total is recorded, the spawn timer is live with one
    drop counted and a frame request is pending, each under the handle kept
    in its variable, one random number has been consumed, the inputs are
    locked with reset enabled, and all bins are empty. *)
Theorem first_ball_after_start env s R N C vw :
  truthy (animationFrameId s) = false ->
  numRowsInput_value env = Some R -> 1 <= R <= 30 ->
  numBallsInput_value env = Some N -> 1 <= N <= 5000 ->
  binCapacityInput_value env = Some C -> 1 <= C <= 1000 ->
  innerWidth env = Some vw ->
  (0 <= randoms (host s) (randIdx (host s)) < 1)%Q ->
  let s' := snd (startSimulation env s) in
  fst (startSimulation env s) = None
  /\ exists sf fw bx v w,
       scaleFactor (layout s') = Some sf /\ canvas_width s' = Some fw
       /\ balls s'
          = [mkBall (Some bx) (Some (5 * sf)%Q) (Some (5 * sf)%Q) BALL_COLOR
                    (Some v) (Some w) false false]
       /\ (v == (randoms (host s) (randIdx (host s)) - (1 # 2)) * (1 # 2))%Q
       /\ (bx == fw / 2 + v)%Q
       /\ (w == - (3 # 200) * sf)%Q
       /\ ballsBeingDropped s' = 1
       /\ ballsToDropTotal s' = Some N
       /\ (exists a b,
             dropIntervalId s' = h_id a /\ animationFrameId s' = h_id b
             /\ In (a, 1) (intervals (host s'))
             /\ In b (frames (host s')))
       /\ randIdx (host s') = S (randIdx (host s))
       /\ controls s' = mkControls true true true true false
       /\ Forall (fun b => count b = 0) (bins s').
Proof.
  intros Hidle HR HRr HN HNr HC HCr HW Hu s'.
  set (n := nextHandle (host s)).
  assert (Hv : validateInputs (numRowsInput_value env)
                 (numBallsInput_value env) (binCapacityInput_value env)
               = (true, None)).
  { rewrite HR, HN, HC. unfold validateInputs, out_of_range.
    replace (R <? 1) with false by (symmetry; apply Z.ltb_ge; lia).
    replace (30 <? R) with false by (symmetry; apply Z.ltb_ge; lia).
    replace (N <? 1) with false by (symmetry; apply Z.ltb_ge; lia).
    replace (5000 <? N) with false by (symmetry; apply Z.ltb_ge; lia).
    replace (C <? 1) with false by (symmetry; apply Z.ltb_ge; lia).
    replace (1000 <? C) with false by (symmetry; apply Z.ltb_ge; lia).
    reflexivity. }
  subst s'. rewrite (startSimulation_accepted env s Hidle Hv).
  cbn [fst snd]. split; [reflexivity|].
  destruct (rebuild_numeric env s R vw HR HW ltac:(lia))
    as (p & sf & fw & h & xq & Hl & Hw & Hh & Hsf & Hsf1 & Hfw & Hh0
        & Hpegs & Hbins & (rest & Hp0) & Hxq).
  fold n.
  assert (Ht : tryDropBall n (start_setup env s)
               = set_intervals
                   (store_counter n 1 ((n, 0) :: intervals (host s)))
                   (set_ballsBeingDropped 1
                      (set_balls
                         [fst (createBall (start_setup env s))]
                         (snd (createBall (start_setup env s)))))).
  { unfold tryDropBall, lookup_counter, start_setup at 1 2.
    cbn [host intervals find fst]. fold n. rewrite Pos.eqb_refl.
    cbn [option_map snd ballsToDropTotal]. rewrite HN. unfold int_lt.
    replace (0 <? N) with true by (symmetry; apply Z.ltb_lt; lia).
    reflexivity. }
  set (u := randoms (host s) (randIdx (host s))) in *.
  set (v := ((u - (1 # 2)) * (1 # 2))%Q).
  assert (Hb : fst (createBall (start_setup env s))
               = mkBall (Some xq) (Some (30 * sf - 30 * sf)%Q)
                        (Some (5 * sf)%Q) BALL_COLOR (Some v) (Some 0%Q)
                        false false).
  { unfold createBall, Math_random, start_setup.
    cbn [fst pegs layout host randoms randIdx]. rewrite Hp0, Hl.
    reflexivity. }
  rewrite Ht, Hb. clear Ht Hb.
  set (t1 := set_intervals _ _).
  assert (Hf : updateBall
                 (mkBall (Some xq) (Some (30 * sf - 30 * sf)%Q)
                         (Some (5 * sf)%Q) BALL_COLOR (Some v) (Some 0%Q)
                         false false) t1
               = (mkBall (Some (xq + v)%Q) (Some (5 * sf)%Q) (Some (5 * sf)%Q)
                         BALL_COLOR (Some v)
                         (Some ((0 + (15 # 100) * sf) * - (1 # 10))%Q)
                         false false, t1)).
  { apply (first_frame t1 p sf fw h); try assumption.
    - ring.
    - unfold v. lra.
    - unfold v. lra. }
  assert (Hu1 : updateBalls t1
                = set_balls
                    [mkBall (Some (xq + v)%Q) (Some (5 * sf)%Q)
                            (Some (5 * sf)%Q) BALL_COLOR (Some v)
                            (Some ((0 + (15 # 100) * sf) * - (1 # 10))%Q)
                            false false] t1).
  { unfold updateBalls.
    change (balls t1)
      with [mkBall (Some xq) (Some (30 * sf - 30 * sf)%Q)
                   (Some (5 * sf)%Q) BALL_COLOR (Some v) (Some 0%Q)
                   false false].
    cbn [forEachBall]. rewrite Hf. reflexivity. }
  unfold gameLoop. rewrite Hu1.
  change (ballsBeingDropped (set_balls _ t1)) with 1.
  cbn [Z.ltb Z.compare orb].
  unfold requestAnimationFrame.
  exists sf, fw, (xq + v)%Q, v. eexists.
  split; [exact (f_equal scaleFactor Hl)|].
  split; [exact Hw|].
  split; [reflexivity|].
  split; [reflexivity|].
  split; [rewrite Hxq; reflexivity|].
  split; [ring|].
  split; [reflexivity|].
  split; [exact HN|].
  split.
  { exists n, (Pos.succ n).
    split; [reflexivity|]. split; [reflexivity|].
    split; [|left; reflexivity].
    unfold t1, set_intervals, store_counter.
    cbn [host intervals set_host map fst]. rewrite Pos.eqb_refl.
    left. reflexivity. }
  split; [reflexivity|].
  split; [reflexivity|].
  change (Forall (fun b => count b = 0) (bins (rebuild env s))).
  eapply Forall_impl; [|apply rebuild_bins_fresh].
  intros b [Hb _]. exact Hb.
Qed.

Lemma first_ball_after_start_witness :
  ballsBeingDropped demo_run = 1
  /\ (length (balls demo_run) = 1)%nat
  /\ controls demo_run = mkControls true true true true false.
Proof.
  assert (Hidle : truthy (animationFrameId demo_page) = false)
    by (vm_compute; reflexivity).
  assert (Hu : (0 <= randoms (host demo_page) (randIdx (host demo_page)) < 1)%Q)
    by (split; [vm_compute; discriminate | vm_compute; reflexivity]).
  destruct (first_ball_after_start demo_env demo_page 1 1 50 1000 Hidle
              eq_refl ltac:(lia) eq_refl ltac:(lia) eq_refl ltac:(lia)
              eq_refl Hu)
    as (_ & sf & fw & bx & v & w & _ & _ & Hb & _ & _ & _ & Hc & _ & _ & _
        & Hctl & _).
  unfold demo_run. rewrite Hb.
  split; [exact Hc|]. split; [reflexivity | exact Hctl].
Defined.

(** X22: the state [resetSimulation] leaves (row count, layout, canvas
    size, pegs, bins, no balls, counter 0, total 0, cleared frame handle,
    controls) is the same whatever the state before: it depends on the
    inputs and the viewport only.  And an accepted start builds exactly the
    board a reset draws for the same inputs: same row count, layout, canvas
    size and pegs, and bins of the same position, size and capacity. *)
Theorem board_is_a_function_of_the_inputs env s t :
  let r := resetSimulation env t in
  (let r' := resetSimulation env s in
   NUM_ROWS r' = NUM_ROWS r /\ layout r' = layout r
   /\ canvas_width r' = canvas_width r /\ canvas_height r' = canvas_height r
   /\ pegs r' = pegs r /\ bins r' = bins r /\ balls r' = balls r
   /\ ballsBeingDropped r' = ballsBeingDropped r
   /\ ballsToDropTotal r' = ballsToDropTotal r
   /\ animationFrameId r' = animationFrameId r
   /\ controls r' = controls r)
  /\ (truthy (animationFrameId s) = false ->
      validateInputs (numRowsInput_value env) (numBallsInput_value env)
                     (binCapacityInput_value env) = (true, None) ->
      let s' := snd (startSimulation env s) in
      NUM_ROWS s' = NUM_ROWS r /\ layout s' = layout r
      /\ canvas_width s' = canvas_width r
      /\ canvas_height s' = canvas_height r
      /\ pegs s' = pegs r
      /\ Forall2 same_bin (bins r) (bins s')).
Proof.
  intros r. subst r. split.
  - cbn zeta. rewrite !resetSimulation_shape. cbn -[rebuild].
    destruct (rebuild_indep env s t) as (L & W & H & P & B).
    rewrite L, W, H, P, B. repeat split; reflexivity.
  - intros Hidle Hv s'. subst s'.
    rewrite (startSimulation_accepted env s Hidle Hv). cbn [snd].
    set (n := nextHandle (host s)).
    destruct (tryDropBall_board n (start_setup env s))
      as ((L1 & W1 & H1 & P1 & B1) & _ & _ & _ & _ & N1).
    destruct (gameLoop_board (tryDropBall n (start_setup env s)))
      as ((L2 & W2 & H2 & P2 & B2) & _).
    destruct (updateBalls_frame (tryDropBall n (start_setup env s)))
      as (N2 & _).
    assert (N3 : NUM_ROWS (gameLoop (tryDropBall n (start_setup env s)))
                 = NUM_ROWS (tryDropBall n (start_setup env s))).
    { unfold gameLoop. break_if.
      - unfold requestAnimationFrame. cbn. exact N2.
      - rewrite stopSimulation_shape. cbn. exact N2. }
    rewrite resetSimulation_shape. cbn -[rebuild].
    destruct (rebuild_indep env s t) as (L & W & H & P & B).
    rewrite N3, N1, L2, L1, W2, W1, H2, H1, P2, P1.
    cbn -[rebuild]. rewrite <- L, <- W, <- H, <- P, <- B.
    repeat split; try reflexivity.
    eapply same_bins_trans; [exact B1 | exact B2].
Qed.

Lemma board_is_a_function_of_the_inputs_witness :
  pegs demo_run = pegs (resetSimulation demo_env demo_page)
  /\ canvas_width demo_run
     = canvas_width (resetSimulation demo_env demo_page).
Proof.
  destruct (board_is_a_function_of_the_inputs demo_env demo_page demo_page)
    as [_ Hs].
  destruct Hs as (_ & _ & Hw & _ & Hp & _).
  - vm_compute. reflexivity.
  - vm_compute. reflexivity.
  - split; [exact Hp | exact Hw].
Defined.

(* ------------------------------------------------------------------------- *)
(** * A frame keeps a ball between the side walls *)

Lemma wall_x_inside ball s bx r W :
  x ball = Some bx ->
  currentBallRadius (layout s) = Some r ->
  canvas_width s = Some W ->
  (2 * r <= W)%Q ->
  exists x', x (fst (handleBallWallCollisions ball s)) = Some x'
             /\ (r <= x')%Q /\ (x' <= W - r)%Q.
Proof.
  intros Hx Hr HW Hfit.
  destruct ball as [x0 y0 r0 c0 vx0 vy0 l0 st0]. cbn in Hx. subst.
  unfold handleBallWallCollisions. rewrite Hr, HW. qcbn.
  repeat break_if;
    cbn -[Qplus Qmult Qminus Qdiv Qeq_bool Qltb Qle_bool Qinv Qopp Qabs
          inject_Z] in *;
    eexists; (split; [reflexivity|]);
    repeat match goal with
           | H : _ || _ = true |- _ => apply orb_prop in H
           | H : _ || _ = false |- _ => apply orb_false_elim in H; destruct H
           | H : _ \/ _ |- _ => destruct H
           | H : Qltb _ _ = true |- _ => apply Qltb_lt in H
           | H : Qltb _ _ = false |- _ => apply Qltb_ge in H
           end;
    split; lra.
Qed.

(** The bin step either keeps a ball's [x] or puts it at the horizontal
    centre of one of the bins. *)
Lemma bins_x ball s :
  x (fst (handleBallBinInteractions ball s)) = x ball
  \/ exists bin, In bin (bins s)
                 /\ x (fst (handleBallBinInteractions ball s))
                    = (bin_x bin + width bin / lit 2)%num.
Proof.
  unfold handleBallBinInteractions.
  destruct (bins s) as [|bin0 rest] eqn:Hb; [left; reflexivity|].
  break_if; [left; reflexivity|].
  break_if; [|left; reflexivity].
  pose proof (binLoop_first_match (bin0 :: rest) ball s) as Hm.
  destruct (binLoop (bin0 :: rest) ball s) as [[[bs1 b1] s1]|];
    [|left; reflexivity].
  destruct Hm as (pre & bin & post & Hsplit & _ & _ & -> & -> & ->).
  cbn [fst]. unfold binArrival.
  destruct (count bin <? maxCapacity bin).
  - right. exists bin. split; [rewrite Hsplit; apply in_elt|]. reflexivity.
  - left. break_if; reflexivity.
Qed.

(** X23: one frame of a falling ball with numeric [x] and [vx], on a board
    with numeric ball radius [r] and canvas width [W >= 2 r] whose bins have
    their horizontal centres between [r] and [W - r], leaves the ball's
    centre between [r] and [W - r]: whatever the walls, the pegs and the
    bins do to it in that frame, the ball is inside the side walls when the
    frame ends. *)
Theorem balls_stay_between_the_side_walls ball s bx v r W :
  is_falling ball = true ->
  x ball = Some bx -> vx ball = Some v ->
  currentBallRadius (layout s) = Some r ->
  canvas_width s = Some W ->
  (2 * r <= W)%Q ->
  Forall (fun bin => exists c,
            (bin_x bin + width bin / lit 2)%num = Some c
            /\ (r <= c)%Q /\ (c <= W - r)%Q) (bins s) ->
  exists x',
    x (fst (updateBall ball s)) = Some x'
    /\ (r <= x')%Q /\ (x' <= W - r)%Q.
Proof.
  intros Hf Hx Hv Hr HW Hfit Hbins.
  unfold is_falling in Hf. apply andb_prop in Hf. destruct Hf as [Hs Hl].
  apply negb_true_iff in Hs. apply negb_true_iff in Hl.
  unfold updateBall. rewrite Hl, Hs.
  assert (Hx1 : x (applyBallPhysics ball s) = Some (bx + v)%Q).
  { unfold applyBallPhysics. cbn [x set_x set_y set_vy vx]. rewrite Hx, Hv.
    reflexivity. }
  destruct (wall_x_inside _ s _ r W Hx1 Hr HW Hfit) as (x1 & Hw1 & Hlo & Hhi).
  destruct (handleBallWallCollisions (applyBallPhysics ball s) s)
    as [b1 s1] eqn:Ew.
  cbn [fst] in Hw1.
  destruct (wall_spec _ _ _ _ Ew) as (_ & Hs1).
  assert (Hbs : bins s1 = bins s)
    by (destruct Hs1 as [[_ ->] | (_ & _ & ->)]; reflexivity).
  break_if; [exists x1; auto|].
  destruct (forEachPeg_frame (pegs s1) b1 s1)
    as (Hpx & _ & _ & _ & k & Hk & _).
  unfold handleBallPegCollisions.
  destruct (forEachPeg (pegs s1) b1 s1) as [b2 s2] eqn:Ep.
  cbn [fst snd] in Hpx, Hk.
  assert (Hbs2 : bins s2 = bins s) by (rewrite Hk; cbn; exact Hbs).
  destruct (bins_x b2 s2) as [Hb | (bin & Hin & Hb)]; rewrite Hb.
  - exists x1. rewrite Hpx. auto.
  - rewrite Hbs2 in Hin.
    rewrite Forall_forall in Hbins.
    destruct (Hbins bin Hin) as (c & Hc & Hc1 & Hc2).
    exists c. auto.
Qed.

Lemma balls_stay_between_the_side_walls_witness :
  exists x',
    x (fst (updateBall high_ball demo_run)) = Some x'
    /\ (90000 # 18000 <= x')%Q
    /\ (x' <= (1800 # 10) - (90000 # 18000))%Q.
Proof.
  assert (Hr : currentBallRadius (layout demo_run) = Some (90000 # 18000))
    by (vm_compute; reflexivity).
  assert (HW : canvas_width demo_run = Some (1800 # 10))
    by (vm_compute; reflexivity).
  assert (Hfit : (2 * (90000 # 18000) <= 1800 # 10)%Q)
    by (vm_compute; discriminate).
  apply (balls_stay_between_the_side_walls high_ball demo_run 90 0
           (90000 # 18000) (1800 # 10) eq_refl eq_refl eq_refl Hr HW Hfit).
  set (bs := bins demo_run). vm_compute in bs. subst bs.
  repeat constructor;
    (eexists; split; [vm_compute; reflexivity|];
     split; vm_compute; discriminate).
Defined.

(* ------------------------------------------------------------------------- *)
(** * The first closure *)

Lemma legacy_pegCollision_spec peg b s :
  landed (fst (Legacy.pegCollision peg b s)) = landed b
  /\ isSettling (fst (Legacy.pegCollision peg b s)) = isSettling b
  /\ x (fst (Legacy.pegCollision peg b s)) = x b
  /\ radius (fst (Legacy.pegCollision peg b s)) = radius b
  /\ exists k, snd (Legacy.pegCollision peg b s)
               = upd (bins s) (ballsBeingDropped s) k s.
Proof.
  unfold Legacy.pegCollision. break_if.
  - cbn -[upd]. repeat break_if; cbn -[upd]; repeat split;
      eexists; reflexivity.
  - cbn -[upd]. repeat split. eexists. symmetry. apply upd_id.
Qed.

Lemma legacy_forEachPeg_spec ps : forall b s,
  landed (fst (Legacy.forEachPeg ps b s)) = landed b
  /\ isSettling (fst (Legacy.forEachPeg ps b s)) = isSettling b
  /\ x (fst (Legacy.forEachPeg ps b s)) = x b
  /\ radius (fst (Legacy.forEachPeg ps b s)) = radius b
  /\ exists k, snd (Legacy.forEachPeg ps b s)
               = upd (bins s) (ballsBeingDropped s) k s.
Proof.
  induction ps as [|peg rest IH]; intros b s.
  - cbn -[upd]. repeat split. eexists. symmetry. apply upd_id.
  - cbn [Legacy.forEachPeg].
    destruct (legacy_pegCollision_spec peg b s)
      as (A1 & A2 & A3 & A4 & k1 & A5).
    destruct (Legacy.pegCollision peg b s) as [b1 s1].
    cbn [fst snd] in *. subst s1.
    destruct (IH b1 (upd (bins s) (ballsBeingDropped s) k1 s))
      as (B1 & B2 & B3 & B4 & k2 & B5).
    rewrite B1, B2, B3, B4, B5. repeat split; try assumption.
    exists k2. reflexivity.
Qed.

Lemma legacy_binLoop_spec bs : forall ball s bs' ball' s',
  Legacy.binLoop bs ball s = Some (bs', ball', s') ->
  isSettling ball' = isSettling ball
  /\ x ball' = x ball /\ radius ball' = radius ball
  /\ (landed ball = true -> ball' = ball)
  /\ Forall2 same_bin bs bs'
  /\ ((landed ball = false /\ landed ball' = true
       /\ total_count bs' = total_count bs + 1
       /\ s' = upd (bins s) (ballsBeingDropped s - 1) (randIdx (host s)) s)
      \/ (landed ball' = landed ball
          /\ bs' = bs /\ s' = s)).
Proof.
  induction bs as [|bin rest IH]; cbn [Legacy.binLoop];
    intros ball s bs' ball' s' H; [discriminate|].
  break_if_in H.
  - unfold Legacy.binArrival in H.
    destruct (landed ball) eqn:Hl; cbn [negb] in H.
    + inversion H; subst; clear H.
      split; [reflexivity|]. split; [reflexivity|]. split; [reflexivity|].
      split; [reflexivity|]. split; [apply same_bins_refl|].
      right. auto.
    + break_if_in H; inversion H; subst; clear H.
      * split; [reflexivity|]. split; [reflexivity|]. split; [reflexivity|].
        split; [discriminate|].
        split; [constructor; [unfold same_bin; cbn; auto
                             | apply same_bins_refl]|].
        left. split; [reflexivity|]. split; [reflexivity|].
        split; [cbn; lia | apply set_ballsBeingDropped_upd].
      * split; [reflexivity|]. split; [reflexivity|]. split; [reflexivity|].
        split; [discriminate|]. split; [apply same_bins_refl|].
        right. cbn. auto.
  - destruct (Legacy.binLoop rest ball s) as [[[rest1 ball1] s1]|] eqn:E;
      [|discriminate].
    inversion H; subst; clear H.
    destruct (IH _ _ _ _ _ E) as (I1 & I2 & I3 & I4 & I5 & I6).
    split; [exact I1|]. split; [exact I2|]. split; [exact I3|].
    split; [exact I4|].
    split; [constructor; [apply same_bin_refl | exact I5]|].
    destruct I6 as [(J1 & J2 & J3 & J4) | (J1 & J2 & J3)].
    + left. split; [exact J1|]. split; [exact J2|].
      split; [unfold total_count in *; cbn; lia | exact J4].
    + right. subst. auto.
Qed.

Lemma legacy_binStep_spec b s :
  let b' := fst (Legacy.binStep b s) in
  let s' := snd (Legacy.binStep b s) in
  isSettling b' = isSettling b
  /\ x b' = x b /\ radius b' = radius b
  /\ (landed b = true -> landed b' = true)
  /\ Forall2 same_bin (bins s) (bins s')
  /\ exists d c,
       s' = upd (bins s') (ballsBeingDropped s - d) (randIdx (host s)) s
       /\ total_count (bins s') = total_count (bins s) + c
       /\ 0 <= c <= d /\ d = ind (negb (landed b) && landed b').
Proof.
  intros b' s'. subst b' s'. unfold Legacy.binStep.
  assert (Hid : forall t : Sim,
             t = upd (bins t) (ballsBeingDropped t - 0) (randIdx (host t)) t).
  { intros t. rewrite Z.sub_0_r. symmetry. apply upd_id. }
  assert (Hnone : isSettling b = isSettling b
            /\ x b = x b /\ radius b = radius b
            /\ (landed b = true -> landed b = true)
            /\ Forall2 same_bin (bins s) (bins s)
            /\ exists d c,
                 s = upd (bins s) (ballsBeingDropped s - d)
                         (randIdx (host s)) s
                 /\ total_count (bins s) = total_count (bins s) + c
                 /\ 0 <= c <= d /\ d = ind (negb (landed b) && landed b)).
  { repeat split; auto using same_bins_refl.
    exists 0, 0. split; [apply Hid|]. split; [lia|]. split; [lia|].
    destruct (landed b); reflexivity. }
  destruct (bins s) as [|bin0 rest] eqn:Hb;
    [cbn [fst snd]; rewrite ?Hb; exact Hnone|].
  break_if; [|cbn [fst snd]; rewrite ?Hb; exact Hnone].
  rewrite <- Hb in *. clear Heqb0.
  destruct (Legacy.binLoop (bins s) b s) as [[[bs1 b1] s1]|] eqn:E.
  - destruct (legacy_binLoop_spec _ _ _ _ _ _ E)
      as (I1 & I2 & I3 & I4 & I5 & I6).
    destruct I6 as [(J1 & J2 & J3 & J4) | (J1 & J2 & J3)].
    + rewrite J2. cbn [negb andb fst snd].
      split; [exact I1|]. split; [exact I2|]. split; [exact I3|].
      split; [intros _; exact J2|]. split; [exact I5|].
      exists 1, 1. rewrite J4, J1, J2. cbn -[total_count upd].
      split; [reflexivity|]. split; [exact J3|]. split; [lia | reflexivity].
    + subst bs1 s1.
      assert (Hsb : set_bins (bins s) s = s) by (destruct s; reflexivity).
      rewrite Hsb.
      destruct (landed b1) eqn:Hl1; cbn [negb andb].
      * cbn [fst snd]. rewrite <- J1, Hl1. cbn [negb andb ind].
        split; [exact I1|]. split; [exact I2|]. split; [exact I3|].
        split; [auto|]. split; [apply same_bins_refl|].
        exists 0, 0. split; [apply Hid|]. split; [lia|]. split; [lia|].
        reflexivity.
      * break_if; cbn [fst snd].
        -- cbn -[total_count upd]. rewrite <- J1. cbn -[total_count upd].
           split; [exact I1|]. split; [exact I2|]. split; [exact I3|].
           split; [auto|]. split; [apply same_bins_refl|].
           exists 1, 0. split; [apply set_ballsBeingDropped_upd|].
           split; [lia|]. split; [lia | reflexivity].
        -- rewrite <- J1, Hl1.
           split; [exact I1|]. split; [exact I2|]. split; [exact I3|].
           split; [discriminate|]. split; [apply same_bins_refl|].
           exists 0, 0. split; [apply Hid|]. split; [lia|]. split; [lia|].
           reflexivity.
  - destruct (landed b) eqn:Hl; cbn [negb andb].
    + cbn [fst snd]. rewrite Hl. exact Hnone.
    + break_if; cbn [fst snd].
      * cbn -[total_count upd]. rewrite ?Hl. cbn -[total_count upd].
        split; [reflexivity|]. split; [reflexivity|]. split; [reflexivity|].
        split; [auto|]. split; [apply same_bins_refl|].
        exists 1, 0. split; [apply set_ballsBeingDropped_upd|].
        split; [lia|]. split; [lia | reflexivity].
      * rewrite ?Hl. exact Hnone.
Qed.

Lemma legacy_wallStep_flags b s :
  landed (Legacy.wallStep b s) = landed b
  /\ isSettling (Legacy.wallStep b s) = isSettling b
  /\ radius (Legacy.wallStep b s) = radius b.
Proof.
  unfold Legacy.wallStep. repeat break_if; cbn; auto.
Qed.

Lemma legacy_updateBall_spec b s :
  legacy_ball_effect b (fst (Legacy.updateBall b s)) s
                     (snd (Legacy.updateBall b s)).
Proof.
  unfold legacy_ball_effect, Legacy.updateBall.
  destruct (landed b) eqn:Hl.
  - cbn [fst snd]. rewrite Hl. cbn [negb andb ind].
    split; [eexists; symmetry; apply upd_id|].
    repeat split; auto using same_bins_refl; lia.
  - set (b0 := set_y _ _).
    assert (Hl0 : landed b0 = false) by exact Hl.
    assert (Hs0 : isSettling b0 = isSettling b) by reflexivity.
    destruct (legacy_forEachPeg_spec (pegs s) b0 s)
      as (P1 & P2 & _ & _ & k & P5).
    destruct (Legacy.forEachPeg (pegs s) b0 s) as [b1 s1].
    cbn [fst snd] in P1, P2, P5. subst s1.
    set (s1 := upd (bins s) (ballsBeingDropped s) k s).
    destruct (legacy_binStep_spec b1 s1)
      as (B1 & _ & _ & _ & B5 & d & c & B6 & B7 & B8 & B9).
    destruct (Legacy.binStep b1 s1) as [b2 s2].
    cbn [fst snd] in B1, B5, B6, B7, B8, B9 |- *.
    destruct (legacy_wallStep_flags b2 s2) as (W1 & W2 & _).
    rewrite W1, W2.
    rewrite P1, Hl0 in B9. cbn [negb andb] in B9 |- *.
    assert (Hd : ballsBeingDropped s2 = ballsBeingDropped s - d)
      by (rewrite B6; reflexivity).
    split.
    { exists k. rewrite B6 at 1. rewrite Hd. reflexivity. }
    split; [congruence|]. split; [discriminate|].
    split; [rewrite Hd, B9; reflexivity|].
    change (bins s1) with (bins s) in B5, B7.
    rewrite <- B9. repeat split; try lia. exact B5.
Qed.

Lemma legacy_forEachBall_spec bs : forall s,
  let bs' := fst (Legacy.forEachBall bs s) in
  let s' := snd (Legacy.forEachBall bs s) in
  (exists k, s' = upd (bins s') (ballsBeingDropped s') k s)
  /\ Forall2 (fun b b' => isSettling b' = isSettling b
                          /\ (landed b = true -> landed b' = true)) bs bs'
  /\ ballsBeingDropped s' - count_where (fun b => negb (landed b)) bs'
     = ballsBeingDropped s - count_where (fun b => negb (landed b)) bs
  /\ total_count (bins s) <= total_count (bins s')
  /\ total_count (bins s') - count_where landed bs'
     <= total_count (bins s) - count_where landed bs
  /\ Forall2 same_bin (bins s) (bins s').
Proof.
  induction bs as [|b rest IH]; intros s; cbn [Legacy.forEachBall].
  - cbn [fst snd]. split; [eexists; symmetry; apply upd_id|].
    repeat split; auto using same_bins_refl; lia.
  - pose proof (legacy_updateBall_spec b s) as Hb.
    destruct (Legacy.updateBall b s) as [b1 s1]. cbn [fst snd] in Hb.
    specialize (IH s1).
    destruct (Legacy.forEachBall rest s1) as [rest1 s2].
    cbn [fst snd] in IH |- *.
    destruct Hb as ((k1 & B0) & B1 & B2 & B3 & B4 & B5 & B6).
    destruct IH as ((k2 & R0) & R1 & R2 & R3 & R4 & R5).
    split.
    { exists k2. rewrite R0 at 1. rewrite B0. reflexivity. }
    split; [constructor; auto|].
    rewrite !count_where_cons.
    assert (Hind : ind (negb (landed b) && landed b1)
                   = ind (negb (landed b)) - ind (negb (landed b1))
                   /\ ind (negb (landed b) && landed b1)
                      = ind (landed b1) - ind (landed b)).
    { destruct (landed b) eqn:E1, (landed b1) eqn:E2; cbn; lia. }
    destruct Hind as [Hi1 Hi2].
    repeat split; try lia.
    eapply same_bins_trans; eassumption.
Qed.

Lemma legacy_updateBalls_spec s :
  let s' := Legacy.updateBalls s in
  (exists k, s' = set_balls (balls s')
                    (upd (bins s') (ballsBeingDropped s') k s))
  /\ length (balls s') = length (balls s)
  /\ (legacy_counts s -> legacy_counts s')
  /\ Forall2 same_bin (bins s) (bins s')
  /\ Forall2 (fun b b' => isSettling b' = isSettling b
                          /\ (landed b = true -> landed b' = true))
             (balls s) (balls s').
Proof.
  intros s'. subst s'. unfold Legacy.updateBalls.
  pose proof (legacy_forEachBall_spec (balls s) s) as H.
  destruct (Legacy.forEachBall (balls s) s) as [bs' s1].
  cbn [fst snd] in H. destruct H as ((k & E0) & Ef & E1 & E2 & E3 & E4).
  cbn [balls bins ballsBeingDropped set_balls].
  split; [exists k; rewrite E0 at 1; reflexivity|].
  split; [symmetry; eapply Forall2_length; exact Ef|].
  split; [|split; assumption].
  unfold legacy_counts. cbn [balls bins ballsBeingDropped set_balls].
  intros [C1 C2]. split; lia.
Qed.

Lemma legacy_gameLoop_Inv s :
  legacy_counts s -> frames (host s) = [] -> mirror_intervals s ->
  legacy_Inv (Legacy.gameLoop s).
Proof.
  intros HC Hfr Hi.
  destruct (legacy_updateBalls_spec s) as ((k & U0) & Hlen & Hc & _ & _).
  specialize (Hc HC). unfold Legacy.gameLoop.
  set (s1 := Legacy.updateBalls s) in *.
  assert (Hf1 : frames (host s1) = []) by (rewrite U0; exact Hfr).
  assert (Hd1 : dropIntervalId s1 = dropIntervalId s)
    by (rewrite U0; reflexivity).
  assert (Hi1 : mirror_intervals s1).
  { unfold mirror_intervals in *. rewrite Hd1, Hlen, <- Hi, U0.
    reflexivity. }
  break_if.
  - unfold requestAnimationFrame, legacy_Inv, legacy_counts, mirror_frames,
      mirror_intervals in *.
    cbn. rewrite Hf1. repeat split; try tauto.
  - destruct (stopSimulation_keeps s1) as (Kb & Kl & Kc).
    unfold legacy_Inv, legacy_counts. rewrite Kb, Kl, Kc.
    split; [exact Hc|].
    unfold mirror_frames, mirror_intervals in *.
    rewrite stopSimulation_shape. cbn. rewrite Hf1, Hi1.
    destruct (animationFrameId s1), (dropIntervalId s1);
      cbn; rewrite ?Pos.eqb_refl; cbn; repeat split; auto; discriminate.
Qed.

Lemma legacy_tryDropBall_counts n s :
  legacy_counts s -> legacy_counts (tryDropBall n s).
Proof.
  unfold legacy_counts. intros [C1 C2].
  destruct (tryDropBall_shape n s) as [-> | [(b & k & l & Hf & ->) | ->]].
  - auto.
  - cbn -[count_where total_count].
    rewrite !count_where_app, !count_where_cons, !count_where_nil.
    unfold is_falling in Hf. apply andb_prop in Hf. destruct Hf as [_ Hl].
    rewrite Hl. apply negb_true_iff in Hl. rewrite Hl. cbn [ind]. lia.
  - cbn -[count_where total_count]. auto.
Qed.

Lemma legacy_tryDropBall_Inv n s :
  legacy_Inv s -> legacy_Inv (tryDropBall n s).
Proof.
  intros (HC & Hf & Hi & Hrun).
  destruct (tryDropBall_mirror n s Hi) as (Hi' & Hf' & Ha').
  split; [apply legacy_tryDropBall_counts; exact HC|].
  split; [unfold mirror_frames; rewrite Hf', Ha'; exact Hf|].
  split; [exact Hi'|].
  rewrite Ha'. intros Hd. apply Hrun.
  destruct (tryDropBall_shape n s) as [E | [(b & k & l & _ & E) | E]];
    rewrite E in Hd; cbn in Hd; try exact Hd. discriminate.
Qed.

Lemma legacy_resetSimulation_eq env s :
  Legacy.resetSimulation env s = resetSimulation env s.
Proof.
  unfold Legacy.resetSimulation.
  match goal with
  | |- context [initBins env (initPegs (resizeCanvas env ?t))] =>
      change (initBins env (initPegs (resizeCanvas env t))) with (rebuild env t);
      rewrite (rebuild_shape env t);
      destruct (rebuild_indep env t s) as (-> & -> & -> & -> & ->)
  end.
  rewrite (resetSimulation_shape env s), (stopSimulation_shape s).
  reflexivity.
Qed.

Lemma legacy_startSimulation_idle env s :
  truthy (animationFrameId s) = false ->
  Legacy.startSimulation env s
  = Legacy.gameLoop (tryDropBall (nextHandle (host s)) (start_setup env s)).
Proof.
  intros Hidle. unfold Legacy.startSimulation. rewrite Hidle.
  match goal with
  | |- context [initBins env (initPegs (resizeCanvas env ?t))] =>
      change (initBins env (initPegs (resizeCanvas env t))) with (rebuild env t);
      rewrite (rebuild_shape env t);
      destruct (rebuild_indep env t s) as (-> & -> & -> & -> & ->)
  end.
  reflexivity.
Qed.

Lemma legacy_Inv_idle s :
  legacy_Inv s -> truthy (animationFrameId s) = false ->
  frames (host s) = [] /\ intervals (host s) = [].
Proof.
  intros (_ & Hf & Hi & Hrun) Hidle.
  unfold mirror_frames, mirror_intervals in *. split.
  - rewrite Hf. destruct (animationFrameId s); try reflexivity. discriminate.
  - rewrite Hi. destruct (dropIntervalId s); try reflexivity.
    rewrite Hrun in Hidle; [discriminate | reflexivity].
Qed.

Lemma legacy_startSimulation_Inv env s :
  legacy_Inv s -> legacy_Inv (Legacy.startSimulation env s).
Proof.
  intros HI.
  destruct (truthy (animationFrameId s)) eqn:Hrun.
  { unfold Legacy.startSimulation. rewrite Hrun. exact HI. }
  rewrite (legacy_startSimulation_idle env s Hrun).
  destruct (legacy_Inv_idle s HI Hrun) as [Hf0 Hi0].
  assert (HC : legacy_counts (start_setup env s)).
  { unfold legacy_counts, start_setup.
    cbn -[count_where total_count rebuild]. rewrite rebuild_total.
    split; reflexivity. }
  assert (Hm : mirror_intervals (start_setup env s)).
  { unfold mirror_intervals, start_setup. cbn. rewrite Hi0. reflexivity. }
  destruct (tryDropBall_mirror (nextHandle (host s)) _ Hm)
    as (Hm' & Hf' & _).
  apply legacy_gameLoop_Inv.
  - apply legacy_tryDropBall_counts. exact HC.
  - rewrite Hf'. exact Hf0.
  - exact Hm'.
Qed.

Lemma legacy_resetSimulation_Inv env s :
  legacy_Inv s -> legacy_Inv (Legacy.resetSimulation env s).
Proof.
  intros (_ & Hf & Hi & _). rewrite legacy_resetSimulation_eq.
  destruct (resetSimulation_mirror env s Hf Hi) as [Hf' Hi'].
  split; [|split; [exact Hf'|split; [exact Hi'|]]].
  - rewrite resetSimulation_shape. unfold legacy_counts.
    cbn -[count_where total_count rebuild]. rewrite rebuild_total.
    split; reflexivity.
  - rewrite resetSimulation_shape.
    cbn [dropIntervalId animationFrameId]. rewrite stopSimulation_shape.
    cbn [dropIntervalId].
    destruct (dropIntervalId s); discriminate.
Qed.

Lemma legacy_step_Inv ev s : legacy_Inv s -> legacy_Inv (Legacy.step ev s).
Proof.
  intros HI. destruct ev as [env|env|env|env|env|n|n]; cbn [Legacy.step].
  - apply legacy_startSimulation_Inv; exact HI.
  - apply legacy_resetSimulation_Inv; exact HI.
  - break_if; [apply legacy_resetSimulation_Inv|]; exact HI.
  - break_if; [apply legacy_resetSimulation_Inv|]; exact HI.
  - break_if; [apply legacy_resetSimulation_Inv|]; exact HI.
  - break_if; [|exact HI].
    destruct HI as (HC & Hf & Hi & _).
    apply legacy_gameLoop_Inv.
    + exact HC.
    + unfold pending in *. unfold mirror_frames in Hf. cbn.
      rewrite Hf in *. destruct (animationFrameId s) as [| |a];
        cbn in *; try discriminate.
      rewrite orb_false_r in Heqb. rewrite Pos.eqb_sym, Heqb. reflexivity.
    + exact Hi.
  - apply legacy_tryDropBall_Inv; exact HI.
Qed.

Lemma legacy_reachable_Inv env ctl cw ch rnd evs :
  legacy_Inv (Legacy.run evs (Legacy.pageLoad env ctl cw ch rnd)).
Proof.
  assert (H : forall l s, legacy_Inv s -> legacy_Inv (Legacy.run l s)).
  { induction l as [|ev l IH]; intros s HI; [exact HI|].
    apply IH, legacy_step_Inv, HI. }
  apply H. unfold Legacy.pageLoad. rewrite legacy_resetSimulation_eq.
  destruct (resetSimulation_mirror env
              (mkSim (numRowsInput_value env)
                 (mkLayout BASE_PEG_SPACING_X BASE_PEG_SPACING_Y
                    BASE_START_Y_OFFSET BASE_PEG_RADIUS BASE_BALL_RADIUS
                    BASE_DRAWN_BIN_HEIGHT BASE_SPACE_BELOW_PEGS
                    BASE_BOTTOM_PADDING (lit 1))
                 cw ch [] [] [] h_undefined 0 (Some 0) h_undefined ctl
                 (mkHost [] [] 1%positive rnd O)) eq_refl eq_refl)
    as [Hf Hi].
  split; [|split; [exact Hf|split; [exact Hi|]]].
  - rewrite resetSimulation_shape. unfold legacy_counts.
    cbn -[count_where total_count rebuild]. rewrite rebuild_total.
    split; reflexivity.
  - rewrite resetSimulation_shape. cbn. discriminate.
Qed.

Lemma count_where_split (p : Ball -> bool) bs :
  count_where p bs + count_where (fun b => negb (p b)) bs
  = Z.of_nat (length bs).
Proof.
  induction bs as [|b bs IH]; [reflexivity|].
  rewrite !count_where_cons. cbn [length]. rewrite Nat2Z.inj_succ.
  destruct (p b); cbn [negb ind]; lia.
Qed.

Lemma legacy_drawBalls_length bs :
  Z.of_nat (length (flat_map
                      (fun ball =>
                         if landed ball then []
                         else [mkDisc (x ball) (y ball) (radius ball)
                                      (color ball)]) bs))
  = count_where (fun b => negb (landed b)) bs.
Proof.
  induction bs as [|b bs IH]; [reflexivity|].
  cbn [flat_map]. rewrite length_app, Nat2Z.inj_add, IH, count_where_cons.
  destruct (landed b); cbn; lia.
Qed.

(** X24: in every state the first closure can reach, [ballsBeingDropped] is
    the number of balls not landed (so it is never negative), the bin counts
    add up to no more than the number of landed balls (the others fell past
    the canvas bottom), bins plus balls in flight never exceed the balls
    spawned, and its [drawBalls] paints exactly [ballsBeingDropped]
    discs. *)
Theorem legacy_accounting env ctl cw ch rnd evs :
  let s := Legacy.run evs (Legacy.pageLoad env ctl cw ch rnd) in
  ballsBeingDropped s = count_where (fun b => negb (landed b)) (balls s)
  /\ 0 <= ballsBeingDropped s
  /\ total_count (bins s) <= count_where landed (balls s)
  /\ total_count (bins s) + ballsBeingDropped s
     <= Z.of_nat (length (balls s))
  /\ Z.of_nat (length (Legacy.drawBalls s)) = ballsBeingDropped s.
Proof.
  intros s.
  destruct (legacy_reachable_Inv env ctl cw ch rnd evs) as ((C1 & C2) & _).
  fold s in C1, C2.
  pose proof (count_where_split landed (balls s)) as Hs.
  pose proof (count_where_nonneg (fun b => negb (landed b)) (balls s)).
  unfold Legacy.drawBalls. rewrite legacy_drawBalls_length.
  repeat split; lia.
Qed.

Lemma legacy_gameLoop_frame t :
  NUM_ROWS (Legacy.gameLoop t) = NUM_ROWS t
  /\ ballsToDropTotal (Legacy.gameLoop t) = ballsToDropTotal t
  /\ layout (Legacy.gameLoop t) = layout t
  /\ canvas_width (Legacy.gameLoop t) = canvas_width t
  /\ canvas_height (Legacy.gameLoop t) = canvas_height t
  /\ pegs (Legacy.gameLoop t) = pegs t
  /\ Forall2 same_bin (bins t) (bins (Legacy.gameLoop t))
  /\ resetButton_disabled (controls (Legacy.gameLoop t))
     = resetButton_disabled (controls t)
  /\ length (balls (Legacy.gameLoop t)) = length (balls t).
Proof.
  destruct (legacy_updateBalls_spec t) as ((k & U0) & Ulen & _ & UB & _).
  unfold Legacy.gameLoop.
  set (t2 := Legacy.updateBalls t) in *. clearbody t2.
  assert (F : NUM_ROWS t2 = NUM_ROWS t
              /\ ballsToDropTotal t2 = ballsToDropTotal t
              /\ layout t2 = layout t
              /\ canvas_width t2 = canvas_width t
              /\ canvas_height t2 = canvas_height t
              /\ pegs t2 = pegs t
              /\ controls t2 = controls t)
    by (rewrite U0; repeat split; reflexivity).
  destruct F as (F1 & F2 & F3 & F4 & F5 & F6 & F7).
  break_if.
  - unfold requestAnimationFrame.
    cbn [NUM_ROWS ballsToDropTotal layout canvas_width canvas_height pegs
         bins controls balls set_animationFrameId snd set_host].
    rewrite F1, F2, F3, F4, F5, F6, F7. auto 12.
  - rewrite stopSimulation_shape.
    cbn [NUM_ROWS ballsToDropTotal layout canvas_width canvas_height pegs
         bins controls balls enable_inputs resetButton_disabled].
    rewrite F1, F2, F3, F4, F5, F6, F7. auto 12.
Qed.

Lemma legacy_gameLoop_empty t :
  balls t = [] -> ballsBeingDropped t = 0 ->
  Legacy.gameLoop t = stopSimulation t.
Proof.
  intros Hb Hc.
  assert (Hu : Legacy.updateBalls t = t).
  { unfold Legacy.updateBalls. rewrite Hb. cbn [Legacy.forEachBall].
    rewrite <- Hb. destruct t; reflexivity. }
  unfold Legacy.gameLoop. rewrite Hu, Hb, Hc. reflexivity.
Qed.

Lemma tryDropBall_cases n t c :
  lookup_counter n (intervals (host t)) = Some c ->
  (int_lt c (ballsToDropTotal t) = true ->
   length (balls (tryDropBall n t)) = S (length (balls t)))
  /\ (int_lt c (ballsToDropTotal t) = false ->
      tryDropBall n t
      = set_dropIntervalId h_null (clearInterval (dropIntervalId t) t)).
Proof.
  intros Hl. unfold tryDropBall. rewrite Hl. split; intros ->.
  - unfold createBall, Math_random. cbn [balls set_intervals set_host
      set_ballsBeingDropped set_balls]. rewrite length_app. cbn. lia.
  - reflexivity.
Qed.

(** X25: the first closure's [startSimulation] validates nothing.  On an
    idle page it rebuilds the board for whatever the inputs hold and records
    the parsed total.  If that total is a number of at least 1, exactly one
    ball has been spawned when the click returns, whatever the row count and
    the capacity.  If the total is not a number or is below 1, no ball is
    spawned and the run is over within the click: both timer handles are
    null, the start button and the three inputs are enabled again, and the
    reset button is left enabled. *)
Theorem legacy_start_never_rejects env s :
  truthy (animationFrameId s) = false ->
  let s' := Legacy.startSimulation env s in
  NUM_ROWS s' = numRowsInput_value env
  /\ ballsToDropTotal s' = numBallsInput_value env
  /\ layout s' = layout (rebuild env s)
  /\ canvas_width s' = canvas_width (rebuild env s)
  /\ canvas_height s' = canvas_height (rebuild env s)
  /\ pegs s' = pegs (rebuild env s)
  /\ Forall2 same_bin (bins (rebuild env s)) (bins s')
  /\ resetButton_disabled (controls s') = false
  /\ (int_lt 0 (numBallsInput_value env) = true ->
      length (balls s') = 1%nat)
  /\ (int_lt 0 (numBallsInput_value env) = false ->
      balls s' = [] /\ ballsBeingDropped s' = 0
      /\ animationFrameId s' = h_null /\ dropIntervalId s' = h_null
      /\ controls s' = mkControls false false false false false
      /\ frames (host s') = frames (host s)).
Proof.
  intros Hidle s'. subst s'.
  rewrite (legacy_startSimulation_idle env s Hidle).
  set (n := nextHandle (host s)).
  assert (Hlook : lookup_counter n (intervals (host (start_setup env s)))
                  = Some 0).
  { unfold lookup_counter, start_setup. cbn [host intervals find fst].
    fold n. rewrite Pos.eqb_refl. reflexivity. }
  assert (T0 : NUM_ROWS (start_setup env s) = numRowsInput_value env
               /\ ballsToDropTotal (start_setup env s)
                  = numBallsInput_value env
               /\ layout (start_setup env s) = layout (rebuild env s)
               /\ canvas_width (start_setup env s)
                  = canvas_width (rebuild env s)
               /\ canvas_height (start_setup env s)
                  = canvas_height (rebuild env s)
               /\ pegs (start_setup env s) = pegs (rebuild env s)
               /\ bins (start_setup env s) = bins (rebuild env s)
               /\ controls (start_setup env s)
                  = mkControls true true true true false
               /\ balls (start_setup env s) = []
               /\ ballsBeingDropped (start_setup env s) = 0
               /\ animationFrameId (start_setup env s) = animationFrameId s
               /\ dropIntervalId (start_setup env s) = h_id n
               /\ frames (host (start_setup env s)) = frames (host s))
    by (repeat split; reflexivity).
  destruct T0 as (Z1 & Z2 & Z3 & Z4 & Z5 & Z6 & Z7 & Z8 & Z9 & Z10 & Z11
                  & Z12 & Z13).
  destruct (tryDropBall_cases n _ 0 Hlook) as [Hpos Hnone].
  rewrite Z2 in Hpos, Hnone.
  set (t0 := start_setup env s) in *. clearbody t0.
  destruct (tryDropBall_board n t0)
    as ((L1 & W1 & H1 & P1 & B1) & _ & T1 & C1 & A1 & N1).
  set (t1 := tryDropBall n t0) in *. clearbody t1.
  destruct (legacy_gameLoop_frame t1)
    as (G1 & G2 & G3 & G4 & G5 & G6 & G7 & G8 & G9).
  split; [congruence|]. split; [congruence|]. split; [congruence|].
  split; [congruence|]. split; [congruence|]. split; [congruence|].
  split.
  { rewrite <- Z7. eapply same_bins_trans; eassumption. }
  split; [rewrite G8, C1, Z8; reflexivity|].
  split.
  - intros Hp. rewrite G9, (Hpos Hp), Z9. reflexivity.
  - intros Hn. specialize (Hnone Hn).
    assert (Hb1 : balls t1 = []) by (rewrite Hnone; exact Z9).
    assert (Hc1 : ballsBeingDropped t1 = 0) by (rewrite Hnone; exact Z10).
    rewrite (legacy_gameLoop_empty t1 Hb1 Hc1), stopSimulation_shape.
    cbn [balls ballsBeingDropped animationFrameId dropIntervalId controls
         host frames].
    rewrite Hb1, Hc1, C1, Z8, A1, Z11.
    assert (Hd1 : dropIntervalId t1 = h_null) by (rewrite Hnone; reflexivity).
    assert (Hf1 : frames (host t1) = frames (host s))
      by (rewrite Hnone; exact Z13).
    rewrite Hd1, Hf1. cbn [truthy enable_inputs resetButton_disabled].
    repeat split.
    destruct (animationFrameId s); try reflexivity. discriminate.
Qed.

Lemma legacy_start_never_rejects_witness :
  length (balls (Legacy.startSimulation zero_rows_env zero_rows_page)) = 1%nat
  /\ NUM_ROWS (Legacy.startSimulation zero_rows_env zero_rows_page)
     = numRowsInput_value zero_rows_env.
Proof.
  assert (Hidle : truthy (animationFrameId zero_rows_page) = false)
    by (vm_compute; reflexivity).
  pose proof (legacy_start_never_rejects zero_rows_env zero_rows_page Hidle)
    as H.
  cbv zeta in H.
  destruct H as (HR & _ & _ & _ & _ & _ & _ & _ & Hone & _).
  split; [apply Hone; reflexivity | exact HR].
Defined.

Lemma legacy_binLoop_first_match bs : forall ball s,
  match Legacy.binLoop bs ball s with
  | None => Forall (fun b => Legacy.binEntered ball b = false) bs
  | Some (bs', ball', s') =>
      exists pre bin post,
        bs = pre ++ bin :: post
        /\ Forall (fun b => Legacy.binEntered ball b = false) pre
        /\ Legacy.binEntered ball bin = true
        /\ bs' = pre ++ fst (fst (Legacy.binArrival bin ball s)) :: post
        /\ ball' = snd (fst (Legacy.binArrival bin ball s))
        /\ s' = snd (Legacy.binArrival bin ball s)
  end.
Proof.
  induction bs as [|bin rest IH]; intros ball s; cbn [Legacy.binLoop].
  - constructor.
  - destruct (Legacy.binEntered ball bin) eqn:E.
    + destruct (Legacy.binArrival bin ball s) as [[bin1 ball1] s1] eqn:Ea.
      exists [], bin, rest. rewrite Ea. cbn. repeat split; auto.
    + specialize (IH ball s).
      destruct (Legacy.binLoop rest ball s) as [[[rest1 ball1] s1]|].
      * destruct IH as (pre & b & post & H1 & H2 & H3 & H4 & H5 & H6).
        exists (bin :: pre), b, post. subst. cbn.
        repeat split; auto.
      * constructor; assumption.
Qed.

(** X26: the bin step of the first closure, for a ball that has not landed.
    Either nothing happens; or the ball is captured by the leftmost bin that
    has the ball's centre strictly between its sides and its top above the
    ball's bottom, provided that bin has room: its count goes up by one, the
    counter down by one, and the ball is marked landed at once, where it is
    (no settling stage, no move to the bin centre); or that bin is full and
    the ball is put on top of it with [vy] multiplied by
    [-BOUNCE_FACTOR * 0.5]; or no bin has the centre inside.  In the last two
    cases the ball is marked landed, and counted off, exactly if its bottom is
    then below the canvas bottom. *)
Theorem legacy_bin_step ball s :
  landed ball = false ->
  let b' := fst (Legacy.binStep ball s) in
  let s' := snd (Legacy.binStep ball s) in
  let fall b :=
    (y b + radius b >? canvas_height s)%num in
  (b' = ball /\ s' = s)
  \/ (exists pre bin post,
        bins s = pre ++ bin :: post
        /\ Forall (fun b => Legacy.binEntered ball b = false) pre
        /\ Legacy.binEntered ball bin = true
        /\ ((count bin < maxCapacity bin
             /\ b' = set_landed true ball
             /\ bins s' = pre ++ set_count (count bin + 1) bin :: post
             /\ ballsBeingDropped s' = ballsBeingDropped s - 1)
            \/ (maxCapacity bin <= count bin
                /\ let bounced :=
                     set_y (bin_y bin - radius ball)%num
                       (set_vy (vy ball * (neg BOUNCE_FACTOR * lit (1 # 2)))%num
                               ball) in
                   (fall bounced = false /\ b' = bounced /\ s' = s)
                   \/ (fall bounced = true /\ b' = set_landed true bounced
                       /\ s' = set_ballsBeingDropped
                                 (ballsBeingDropped s - 1) s))))
  \/ (Forall (fun b => Legacy.binEntered ball b = false) (bins s)
      /\ fall ball = true
      /\ b' = set_landed true ball
      /\ s' = set_ballsBeingDropped (ballsBeingDropped s - 1) s).
Proof.
  intros Hl b' s' fall. subst b' s'. unfold Legacy.binStep.
  destruct (bins s) as [|bin0 rest] eqn:Hb; [left; auto|].
  break_if; [|left; auto].
  rewrite <- Hb. clear Heqb.
  pose proof (legacy_binLoop_first_match (bins s) ball s) as Hm.
  destruct (Legacy.binLoop (bins s) ball s) as [[[bs1 b1] s1]|].
  - destruct Hm as (pre & bin & post & Hsplit & Hpre & Hin & -> & -> & ->).
    right; left. exists pre, bin, post.
    split; [exact Hsplit|]. split; [exact Hpre|]. split; [exact Hin|].
    unfold Legacy.binArrival. rewrite Hl. cbn [negb].
    destruct (count bin <? maxCapacity bin) eqn:Hc.
    + apply Z.ltb_lt in Hc. left. cbn. repeat split; auto.
    + apply Z.ltb_ge in Hc. right. split; [exact Hc|].
      cbn [fst snd]. rewrite <- Hsplit.
      assert (Hsb : set_bins (bins s) s = s) by (destruct s; reflexivity).
      rewrite Hsb. cbn [landed set_y set_vy]. rewrite Hl. cbn [negb andb].
      unfold fall.
      match goal with
      | |- context [if ?c then _ else _] => destruct c eqn:Hf
      end; [right | left]; cbn [fst snd]; auto.
  - rewrite Hl. cbn [negb andb].
    match goal with
    | |- context [if ?c then _ else _] => destruct c eqn:Hf
    end.
    + right; right. cbn [fst snd]. auto.
    + left. auto.
Qed.

Lemma legacy_bin_step_witness :
  landed (fst (Legacy.binStep arriving_ball demo_run)) = true
  /\ ballsBeingDropped (snd (Legacy.binStep arriving_ball demo_run))
     = ballsBeingDropped demo_run - 1.
Proof.
  destruct (legacy_bin_step arriving_ball demo_run eq_refl)
    as [[Hb _] | [(pre & bin & post & Hsplit & _ & _
                   & [(_ & Hb & _ & Hc) | (Hfull & _)])
                 | (_ & _ & Hb & Hs)]].
  - apply (f_equal landed) in Hb. vm_compute in Hb. discriminate Hb.
  - rewrite Hb. split; [reflexivity | exact Hc].
  - exfalso.
    assert (Hcap : Forall (fun b => count b < maxCapacity b) (bins demo_run))
      by (vm_compute; repeat constructor).
    rewrite Hsplit in Hcap. apply Forall_elt in Hcap. lia.
  - rewrite Hb, Hs. split; reflexivity.
Defined.

Lemma legacy_wallStep_inside b s bx r W :
  x b = Some bx -> radius b = Some r -> canvas_width s = Some W ->
  (2 * r <= W)%Q ->
  exists x', x (Legacy.wallStep b s) = Some x'
             /\ (r <= x')%Q /\ (x' <= W - r)%Q.
Proof.
  intros Hx Hr HW Hfit.
  destruct b as [x0 y0 r0 c0 vx0 vy0 l0 st0]. cbn in Hx, Hr. subst.
  unfold Legacy.wallStep. rewrite HW. qcbn.
  repeat break_if;
    cbn -[Qplus Qmult Qminus Qdiv Qeq_bool Qltb Qle_bool Qinv Qopp Qabs
          inject_Z] in *;
    eexists; (split; [reflexivity|]);
    repeat match goal with
           | H : _ || _ = true |- _ => apply orb_prop in H
           | H : _ || _ = false |- _ => apply orb_false_elim in H; destruct H
           | H : _ \/ _ |- _ => destruct H
           | H : Qltb _ _ = true |- _ => apply Qltb_lt in H
           | H : Qltb _ _ = false |- _ => apply Qltb_ge in H
           end;
    split; lra.
Qed.

(** X27: in the first closure the side walls are the last step of a ball's
    frame.  So a frame of a ball that has not landed, with numeric [x], [vx]
    and radius [r], under a numeric scale factor and canvas width
    [W >= 2 r], leaves the ball's centre between [r] and [W - r], whatever
    pegs and bins did to it before. *)
Theorem legacy_frame_ends_inside_walls ball s bx v r sf W :
  landed ball = false ->
  x ball = Some bx -> vx ball = Some v -> radius ball = Some r ->
  scaleFactor (layout s) = Some sf ->
  canvas_width s = Some W ->
  (2 * r <= W)%Q ->
  exists x',
    x (fst (Legacy.updateBall ball s)) = Some x'
    /\ (r <= x')%Q /\ (x' <= W - r)%Q.
Proof.
  intros Hl Hx Hv Hr Hsf HW Hfit.
  unfold Legacy.updateBall. rewrite Hl.
  set (b0 := set_y _ _).
  assert (Hx0 : x b0 = Some (bx + v * sf)%Q).
  { unfold b0. cbn [x set_x set_y set_vy vx]. rewrite Hx, Hv, Hsf.
    reflexivity. }
  assert (Hr0 : radius b0 = Some r) by exact Hr.
  destruct (legacy_forEachPeg_spec (pegs s) b0 s)
    as (_ & _ & P3 & P4 & k & P5).
  destruct (Legacy.forEachPeg (pegs s) b0 s) as [b1 s1].
  cbn [fst snd] in P3, P4, P5.
  destruct (legacy_binStep_spec b1 s1)
    as (_ & B2 & B3 & _ & _ & d & c & B6 & _).
  destruct (Legacy.binStep b1 s1) as [b2 s2].
  cbn [fst snd] in B2, B3, B6 |- *.
  assert (HW2 : canvas_width s2 = Some W).
  { rewrite B6, P5. exact HW. }
  apply (legacy_wallStep_inside b2 s2 (bx + v * sf)%Q r W);
    try assumption; congruence.
Qed.

Lemma legacy_frame_ends_inside_walls_witness :
  exists x',
    x (fst (Legacy.updateBall stray_ball demo_run)) = Some x'
    /\ (5 <= x')%Q /\ (x' <= (1800 # 10) - 5)%Q.
Proof.
  assert (Hsf : scaleFactor (layout demo_run) = Some (18000 # 18000))
    by (vm_compute; reflexivity).
  assert (HW : canvas_width demo_run = Some (1800 # 10))
    by (vm_compute; reflexivity).
  assert (Hfit : (2 * 5 <= 1800 # 10)%Q) by (vm_compute; discriminate).
  exact (legacy_frame_ends_inside_walls stray_ball demo_run 200 0 5
           (18000 # 18000) (1800 # 10) eq_refl eq_refl eq_refl eq_refl
           Hsf HW Hfit).
Defined.

(** X28: the spawn delay of the first closure,
    [Math.max(50, 200 - ballsToDropTotal * 0.1)], is NaN for a total that is
    not a number and otherwise a number of at least 50: it is
    [200 - total / 10] up to a total of 1500 and 50 from there on, at most
    200 for a total that is not negative, and a larger total never gives a
    longer delay. *)
Theorem legacy_dropDelay_range N M :
  Legacy.dropDelay None = None
  /\ exists d e,
       Legacy.dropDelay (Some N) = Some d
       /\ Legacy.dropDelay (Some M) = Some e
       /\ (50 <= d)%Q
       /\ (N <= 1500 -> (d == 200 - inject_Z N / 10)%Q)
       /\ (1500 <= N -> (d == 50)%Q)
       /\ (0 <= N -> (d <= 200)%Q)
       /\ (N <= M -> (e <= d)%Q).
Proof.
  split; [reflexivity|].
  unfold Legacy.dropDelay, Math_max, lit.
  cbn [of_int option_map sub mul lift2].
  do 2 eexists. split; [reflexivity|]. split; [reflexivity|].
  set (n := inject_Z N). set (m := inject_Z M).
  assert (Hn : (200 - n * (1 # 10) == 200 - n / 10)%Q) by field.
  split; [apply Q.le_max_l|].
  split.
  { intros H. assert (n <= 1500)%Q
      by (unfold n; change 1500%Q with (inject_Z 1500);
          rewrite <- Zle_Qle; exact H).
    rewrite Q.max_r; [exact Hn | lra]. }
  split.
  { intros H. assert (1500 <= n)%Q
      by (unfold n; change 1500%Q with (inject_Z 1500);
          rewrite <- Zle_Qle; exact H).
    rewrite Q.max_l; [reflexivity | lra]. }
  split.
  { intros H. assert (0 <= n)%Q
      by (unfold n; change 0%Q with (inject_Z 0);
          rewrite <- Zle_Qle; exact H).
    apply Q.max_lub; lra. }
  intros H. assert (n <= m)%Q by (unfold n, m; rewrite <- Zle_Qle; exact H).
  apply Q.max_le_compat; lra.
Qed.

Lemma legacy_binLoop_ok bs : forall ball s bs' ball' s',
  Legacy.binLoop bs ball s = Some (bs', ball', s') ->
  Forall (fun b => 0 <= count b <= Z.max 0 (maxCapacity b)) bs ->
  Forall (fun b => 0 <= count b <= Z.max 0 (maxCapacity b)) bs'.
Proof.
  induction bs as [|bin rest IH]; cbn [Legacy.binLoop];
    intros ball s bs' ball' s' H Hok; [discriminate|].
  inversion Hok as [|? ? Hbin Hrest]; subst.
  break_if_in H.
  - unfold Legacy.binArrival in H.
    repeat break_if_in H; inversion H; subst; clear H;
      constructor; try assumption.
    cbn. apply Z.ltb_lt in Heqb1. lia.
  - destruct (Legacy.binLoop rest ball s) as [[[rest1 ball1] s1]|] eqn:E;
      [|discriminate].
    inversion H; subst; clear H.
    constructor; [exact Hbin | eapply IH; eassumption].
Qed.

Lemma legacy_updateBall_ok b s :
  legacy_bins_ok s -> legacy_bins_ok (snd (Legacy.updateBall b s)).
Proof.
  unfold legacy_bins_ok, Legacy.updateBall. intros Hok.
  break_if; [exact Hok|].
  set (b0 := set_y _ _).
  destruct (legacy_forEachPeg_spec (pegs s) b0 s) as (_ & _ & _ & _ & k & P5).
  destruct (Legacy.forEachPeg (pegs s) b0 s) as [b1 s1].
  cbn [fst snd] in P5.
  assert (Hok1 : Forall (fun b => 0 <= count b <= Z.max 0 (maxCapacity b))
                        (bins s1)) by (rewrite P5; exact Hok).
  clear P5 Hok. unfold Legacy.binStep.
  destruct (bins s1) as [|bin0 rest] eqn:Hb; [cbn; rewrite Hb; exact Hok1|].
  break_if; [|cbn; rewrite Hb; exact Hok1].
  rewrite <- Hb in *.
  destruct (Legacy.binLoop (bins s1) b1 s1) as [[[bs2 b2] s2]|] eqn:E.
  - pose proof (legacy_binLoop_ok _ _ _ _ _ _ E Hok1) as Hok2.
    break_if; cbn; exact Hok2.
  - break_if; cbn; exact Hok1.
Qed.

Lemma legacy_forEachBall_ok bs : forall s,
  legacy_bins_ok s -> legacy_bins_ok (snd (Legacy.forEachBall bs s)).
Proof.
  induction bs as [|b rest IH]; intros s Hok; cbn [Legacy.forEachBall];
    [exact Hok|].
  pose proof (legacy_updateBall_ok b s Hok) as H1.
  destruct (Legacy.updateBall b s) as [b1 s1]. cbn [snd] in H1.
  specialize (IH s1 H1).
  destruct (Legacy.forEachBall rest s1) as [rest1 s2]. exact IH.
Qed.

Lemma legacy_gameLoop_ok s :
  legacy_bins_ok s -> legacy_bins_ok (Legacy.gameLoop s).
Proof.
  intros Hok.
  assert (H1 : legacy_bins_ok (Legacy.updateBalls s)).
  { unfold Legacy.updateBalls.
    pose proof (legacy_forEachBall_ok (balls s) s Hok) as H.
    destruct (Legacy.forEachBall (balls s) s) as [bs' s']. exact H. }
  unfold Legacy.gameLoop. break_if.
  - exact H1.
  - unfold legacy_bins_ok. rewrite (proj1 (stopSimulation_keeps _)).
    exact H1.
Qed.

Lemma rebuild_bins_ok env s :
  Forall (fun b => 0 <= count b <= Z.max 0 (maxCapacity b))
         (bins (rebuild env s)).
Proof.
  eapply Forall_impl; [|apply rebuild_bins_fresh].
  intros b [H _]. rewrite H. lia.
Qed.

Lemma legacy_step_ok ev s :
  legacy_bins_ok s -> legacy_bins_ok (Legacy.step ev s).
Proof.
  intros Hok.
  assert (Hreset : forall env t, legacy_bins_ok (Legacy.resetSimulation env t)).
  { intros env t. rewrite legacy_resetSimulation_eq.
    unfold legacy_bins_ok. rewrite resetSimulation_shape.
    cbn [bins]. apply rebuild_bins_ok. }
  destruct ev as [env|env|env|env|env|n|n]; cbn [Legacy.step].
  - destruct (truthy (animationFrameId s)) eqn:Hrun.
    { unfold Legacy.startSimulation. rewrite Hrun. exact Hok. }
    rewrite (legacy_startSimulation_idle env s Hrun).
    apply legacy_gameLoop_ok. unfold legacy_bins_ok.
    rewrite tryDropBall_bins. apply rebuild_bins_ok.
  - apply Hreset.
  - break_if; [apply Hreset | exact Hok].
  - break_if; [apply Hreset | exact Hok].
  - break_if; [apply Hreset | exact Hok].
  - break_if; [|exact Hok]. apply legacy_gameLoop_ok. exact Hok.
  - unfold legacy_bins_ok. rewrite tryDropBall_bins. exact Hok.
Qed.

(** X29: the first closure never overfills a bin, although it accepts any
    capacity: in every state it can reach each bin's count is at least 0 and
    at most its capacity, or 0 when the capacity is not positive (then no
    ball is ever captured). *)
Theorem legacy_bins_never_overfilled env ctl cw ch rnd evs :
  Forall (fun b => 0 <= count b <= Z.max 0 (maxCapacity b))
         (bins (Legacy.run evs (Legacy.pageLoad env ctl cw ch rnd))).
Proof.
  assert (H : forall l s, legacy_bins_ok s -> legacy_bins_ok (Legacy.run l s)).
  { induction l as [|ev l IH]; intros s Hs; [exact Hs|].
    apply IH, legacy_step_ok, Hs. }
  apply H. unfold Legacy.pageLoad, legacy_bins_ok.
  rewrite legacy_resetSimulation_eq, resetSimulation_shape.
  cbn [bins]. apply rebuild_bins_ok.
Qed.
